(** * ABC / XYZ inventory classification

    A shallow embedding of the two classification engines of the
    repository: [assign_abc_groups] (abc_analyzer.py) and
    [assign_xyz_groups] (xyz_analyzer.py).

    Modelling choices.
    - A DataFrame is a list of rows, in row order.  The three required
      columns are fields of the row record, so the column-presence and
      dtype checks at the entry of both functions are discharged by typing.
    - [Value] is an exact rational ([Q]); a missing cell (NaN) is [None]
      and is replaced by [0] exactly where the source calls [fillna(0.0)].
      Rounding and overflow of binary floating point are not modelled.
    - The standard deviation needs a square root, so from [std_value] on
      the XYZ statistics live in [R]; the special float values that the
      source handles explicitly (NaN, +inf, -inf) are constructors of
      [float].
    - pandas primitives (groupby, sort_values, merge, unique, quantile) are
      modelled by small list functions that keep their documented row
      order.
    - [SKU] and [Period] are strings in the data model of the two
      classifiers.  A sheet can also hold a blank key cell; what
      [assign_abc_groups] does with such rows (groupby leaves them out,
      the join finds them no label, the check of step 6 raises) is the
      subject of the module [NullKeys]. *)

From Stdlib Require Import List String Ascii Bool Arith Lia ZArith.
From Stdlib Require Import QArith Qabs Qround Permutation Sorted.
From Stdlib Require Import Reals Qreals Psatz.
From Stdlib Require OrderedTypeEx.
Import ListNotations.

Local Open Scope string_scope.
Local Open Scope Q_scope.

(* ================================================================== *)
(** * Table primitives *)
(* ================================================================== *)

Module Table.

Section Generic.
Context {A K : Type}.
Variable eqb : K -> K -> bool.

(** [Series.unique()]: distinct values in order of first appearance. *)
Fixpoint unique (l : list K) : list K :=
  match l with
  | [] => []
  | x :: t => x :: filter (fun y => negb (eqb y x)) (unique t)
  end.

(** Put row [a] at the head of the group of key [k]. *)
Fixpoint add_to_group (k : K) (a : A) (gs : list (K * list A))
  : list (K * list A) :=
  match gs with
  | [] => [(k, [a])]
  | (k', g) :: rest =>
      if eqb k k' then (k', a :: g) :: rest
      else (k', g) :: add_to_group k a rest
  end.

(** Rows split by key; inside a group the rows keep the table order. *)
Fixpoint group_rows (key : A -> K) (rows : list A) : list (K * list A) :=
  match rows with
  | [] => []
  | a :: rest => add_to_group (key a) a (group_rows key rest)
  end.

(** Group of key [k], empty when the key is absent. *)
Fixpoint group_of (k : K) (gs : list (K * list A)) : list A :=
  match gs with
  | [] => []
  | (k', g) :: rest => if eqb k k' then g else group_of k rest
  end.
End Generic.

Section Sorting.
Context {A : Type}.
Variable leb : A -> A -> bool.

Fixpoint insert_sorted (x : A) (l : list A) : list A :=
  match l with
  | [] => [x]
  | y :: t => if leb x y then x :: l else y :: insert_sorted x t
  end.

(** Stable insertion sort: ties keep their input order. *)
Fixpoint sort_by (l : list A) : list A :=
  match l with
  | [] => []
  | x :: t => insert_sorted x (sort_by t)
  end.
End Sorting.

Section Merge.
Context {A B : Type}.
Variable matches : A -> B -> bool.

(** [pd.merge(left, right, how="left")]: every left row, in order, paired
    with each matching right row, or with a null when there is none. *)
Definition merge_left (left : list A) (right : list B)
  : list (A * option B) :=
  flat_map
    (fun a =>
       match filter (matches a) right with
       | [] => [(a, None)]
       | ms => map (fun b => (a, Some b)) ms
       end)
    left.
End Merge.

End Table.

Import Table.

(** Lexicographic order on two string keys, as groupby sorts its keys. *)
Definition key2 : Type := (string * string)%type.

Definition key2_eqb (k1 k2 : key2) : bool :=
  (String.eqb (fst k1) (fst k2) && String.eqb (snd k1) (snd k2))%bool.

Definition key2_leb (k1 k2 : key2) : bool :=
  match String.compare (fst k1) (fst k2) with
  | Lt => true
  | Gt => false
  | Eq => String.leb (snd k1) (snd k2)
  end.

Definition Qsum (l : list Q) : Q := fold_right Qplus 0 l.

(* ================================================================== *)
(** * Data model *)
(* ================================================================== *)

(** A row as the loader hands it over: [Value] may be null. *)
Record RawRecord := mkRaw {
  raw_SKU : string;
  raw_Period : string;
  raw_Value : option Q
}.

(** A row after [df['Value'].fillna(0.0)]. *)
Record InventoryRecord := mkRecord {
  SKU : string;
  Period : string;
  Value : Q
}.

Definition isna {A : Type} (v : option A) : bool :=
  match v with
  | None => true
  | Some _ => false
  end.

Definition fillna {A : Type} (d : A) (v : option A) : A :=
  match v with
  | Some x => x
  | None => d
  end.

Definition fill_values (df : list RawRecord) : list InventoryRecord :=
  map (fun r => mkRecord (raw_SKU r) (raw_Period r) (fillna 0 (raw_Value r))) df.

Inductive exn : Type :=
| ValueError (msg : string)
| RuntimeError (missing_count : nat).

Inductive result (A : Type) : Type :=
| Ok (a : A)
| Raise (e : exn).
Arguments Ok {A} a.
Arguments Raise {A} e.

(** Sum of [Value] over the rows of one period. *)
Definition period_value_sum (p : string) (df : list InventoryRecord) : Q :=
  Qsum (map Value (filter (fun r => String.eqb (Period r) p) df)).

(* ================================================================== *)
(** * ABC classifier (abc_analyzer.py, assign_abc_groups) *)
(* ================================================================== *)

Module ABC.

(** One row of [agg_df] after the group-by-sum. *)
Record PeriodAggregate := mkAgg {
  agg_Period : string;
  agg_SKU : string;
  agg_Value : Q
}.

(** [agg_df] with its derived columns. *)
Record AbcRow := mkAbcRow {
  agg : PeriodAggregate;
  Total_Period_Value : Q;
  Cumulative_Value : Q;
  Cumulative_Percent : Q;
  ABC_Group : string
}.

(** Step 2: [df.groupby(['Period','SKU'], as_index=False)['Value'].sum()];
    groups come out sorted by key. *)
Definition aggregate (df : list InventoryRecord) : list PeriodAggregate :=
  map (fun kg => mkAgg (fst (fst kg)) (snd (fst kg)) (Qsum (map Value (snd kg))))
      (sort_by (fun x y => key2_leb (fst x) (fst y))
               (group_rows key2_eqb (fun r => (Period r, SKU r)) df)).

(** Step 3: [sort_values(['Period','Value'], ascending=[True, False])]. *)
Definition period_value_leb (r1 r2 : PeriodAggregate) : bool :=
  match String.compare (agg_Period r1) (agg_Period r2) with
  | Lt => true
  | Gt => false
  | Eq => Qle_bool (agg_Value r2) (agg_Value r1)
  end.

Definition sort_values (t : list PeriodAggregate) : list PeriodAggregate :=
  sort_by period_value_leb t.

(** [groupby('Period')['Value'].transform('sum')] for one period. *)
Definition period_total (t : list PeriodAggregate) (p : string) : Q :=
  Qsum (map agg_Value (filter (fun r => String.eqb (agg_Period r) p) t)).

(** Step 4, the closure [classify_abc] with its two captured thresholds. *)
Definition classify_abc (a_threshold b_threshold : Q)
           (cum_pct total_val : Q) : string :=
  if Qeq_bool total_val 0 then "C"
  else if Qle_bool cum_pct a_threshold then "A"
  else if Qle_bool cum_pct b_threshold then "B"
  else "C".

(** [np.where(total == 0, 1.0, cumulative / total)]. *)
Definition cumulative_percent (cum total : Q) : Q :=
  if Qeq_bool total 0 then 1 else cum / total.

Definition bump (running : string -> Q) (p : string) (c : Q) : string -> Q :=
  fun q => if String.eqb q p then c else running q.

(** The derived columns, computed in one pass over the sorted rows:
    [running p] is the cumulative sum reached so far inside period [p]
    ([groupby('Period')['Value'].cumsum()]). *)
Fixpoint annotate (a_threshold b_threshold : Q)
         (total : string -> Q) (running : string -> Q)
         (t : list PeriodAggregate) : list AbcRow :=
  match t with
  | [] => []
  | r :: rest =>
      let tot := total (agg_Period r) in
      let cum := running (agg_Period r) + agg_Value r in
      let pct := cumulative_percent cum tot in
      mkAbcRow r tot cum pct (classify_abc a_threshold b_threshold pct tot)
      :: annotate a_threshold b_threshold total
                  (bump running (agg_Period r) cum) rest
  end.

(** [agg_df] at the end of step 4. *)
Definition abc_table (a_threshold b_threshold : Q)
           (df : list InventoryRecord) : list AbcRow :=
  let t := sort_values (aggregate df) in
  annotate a_threshold b_threshold (period_total t) (fun _ => 0) t.

Definition same_key (r : InventoryRecord) (x : AbcRow) : bool :=
  (String.eqb (Period r) (agg_Period (agg x))
   && String.eqb (SKU r) (agg_SKU (agg x)))%bool.

(** Step 5: left join of the label onto the original rows. *)
Definition join_labels (df : list InventoryRecord) (t : list AbcRow)
  : list (InventoryRecord * option string) :=
  map (fun x => (fst x, option_map ABC_Group (snd x)))
      (merge_left same_key df t).

(** Step 6: the postcondition check, on the joined frame whatever its
    other columns hold. *)
Definition check_assigned {A : Type} (res : list (A * option string))
  : result (list (A * option string)) :=
  if existsb (fun x => isna (snd x)) res
  then Raise (RuntimeError (List.length (filter (fun x => isna (snd x)) res)))
  else Ok res.

Definition assign_abc_groups (df : list RawRecord) (a_threshold b_threshold : Q)
  : result (list (InventoryRecord * option string)) :=
  let df' := fill_values df in
  check_assigned (join_labels df' (abc_table a_threshold b_threshold df')).

Definition default_a : Q := 80 # 100.
Definition default_b : Q := 95 # 100.

End ABC.

(* ================================================================== *)
(** * XYZ classifier (xyz_analyzer.py, assign_xyz_groups) *)
(* ================================================================== *)

Module XYZ.

(** Result of a float division: a real number or one of the special
    values. *)
Inductive float : Type :=
| Num (x : R)
| PInf
| NInf
| NaN.

(** One row of [sku_stats]; a null [cv] is NaN. *)
Record SkuStat := mkStat {
  stat_SKU : string;
  n_periods : nat;
  mean_value : Q;
  std_value : R;
  cv : option R
}.

(** One row of the returned frame. *)
Record XyzRow := mkXyzRow {
  rec : InventoryRecord;
  XYZ : string;
  CV : option R;
  x_threshold_33 : R;
  y_threshold_66 : R
}.

(** Step 2: [df_out.groupby(["SKU","Period"], as_index=False)["Value"].sum()]. *)
Definition period_sum (df_out : list InventoryRecord) : list InventoryRecord :=
  map (fun kg => mkRecord (fst (fst kg)) (snd (fst kg)) (Qsum (map Value (snd kg))))
      (sort_by (fun x y => key2_leb (fst x) (fst y))
               (group_rows key2_eqb (fun r => (SKU r, Period r)) df_out)).

(** Step 3, dense branch: the SKU x Period grid, left-joined with the
    aggregated values, nulls filled with zero. *)
Definition densify (df_out psum : list InventoryRecord) : list InventoryRecord :=
  let all_skus := unique String.eqb (map SKU df_out) in
  let all_periods := unique String.eqb (map Period df_out) in
  let df_scaffold := list_prod all_skus all_periods in
  map (fun x => mkRecord (fst (fst x)) (snd (fst x))
                         (fillna 0 (option_map Value (snd x))))
      (merge_left (fun k r => key2_eqb k (SKU r, Period r)) df_scaffold psum).

Definition stats_input_df (data_mode : string) (df_out : list InventoryRecord)
  : list InventoryRecord :=
  if String.eqb data_mode "dense" then densify df_out (period_sum df_out)
  else period_sum df_out.

(** [stats_input_df.groupby("SKU")["Value"]]: one list of values per SKU,
    SKUs in sorted order. *)
Definition sku_groups (stats_input : list InventoryRecord)
  : list (string * list Q) :=
  map (fun kg => (fst kg, map Value (snd kg)))
      (sort_by (fun x y => String.leb (fst x) (fst y))
               (group_rows String.eqb SKU stats_input)).

Definition count (vs : list Q) : nat := List.length vs.

Definition mean (vs : list Q) : Q :=
  Qsum vs / inject_Z (Z.of_nat (count vs)).

Definition sum_sq_dev (vs : list Q) : Q :=
  Qsum (map (fun v => (v - mean vs) * (v - mean vs)) vs).

(** Unbiased variance (divisor n - 1); null below two values. *)
Definition var (vs : list Q) : option Q :=
  if (count vs <? 2)%nat then None
  else Some (sum_sq_dev vs / inject_Z (Z.of_nat (count vs - 1))).

(** pandas [std]: the square root of [var], NaN when [var] is. *)
Definition std (vs : list Q) : option R :=
  option_map (fun v => sqrt (Q2R v)) (var vs).

(** Float division of two finite numbers, the divisor being [+0] when it
    is zero. *)
Definition fdiv (x y : R) : float :=
  if Req_EM_T y 0 then
    if Req_EM_T x 0 then NaN
    else if Rlt_dec 0 x then PInf else NInf
  else Num (x / y).

(** [.replace([np.inf, -np.inf], np.nan)]. *)
Definition replace_inf (x : float) : option R :=
  match x with
  | Num r => Some r
  | PInf | NInf | NaN => None
  end.

(** Step 5: [np.where(mean == 0, 0.0, std / abs(mean))], infinities
    replaced by NaN. *)
Definition coefficient_of_variation (mean_v : Q) (std_v : R) : option R :=
  replace_inf
    (if Qeq_bool mean_v 0 then Num 0
     else fdiv std_v (Q2R (Qabs mean_v))).

(** Steps 4 and 5 for one group. *)
Definition sku_stat (g : string * list Q) : SkuStat :=
  let n := count (snd g) in
  let m := mean (snd g) in
  let s := fillna 0%R (std (snd g)) in
  mkStat (fst g) n m s (coefficient_of_variation m s).

Definition sku_stats (stats_input : list InventoryRecord) : list SkuStat :=
  map sku_stat (sku_groups stats_input).

Definition MIN_PERIODS : nat := 2.

Definition is_eligible (st : SkuStat) : bool :=
  ((MIN_PERIODS <=? n_periods st)%nat && negb (Qeq_bool (mean_value st) 0))%bool.

Definition dropna (l : list (option R)) : list R :=
  flat_map (fun v => match v with Some x => [x] | None => [] end) l.

Definition eligible_cvs (stats : list SkuStat) : list R :=
  dropna (map cv (filter is_eligible stats)).

Definition Rleb (x y : R) : bool := if Rle_dec x y then true else false.

(** [Series.quantile(q)] with the default linear interpolation: with the
    values sorted and [h = (n - 1) * q], the result lies between the values
    at [floor h] and the next position, at the fraction [h - floor h]. *)
Definition quantile (q : Q) (l : list R) : R :=
  let s := sort_by Rleb l in
  let n := List.length s in
  let h := inject_Z (Z.of_nat (n - 1)) * q in
  let i := Z.to_nat (Qfloor h) in
  let g := h - inject_Z (Qfloor h) in
  let lo := nth i s 0%R in
  let hi := nth (Nat.min (i + 1) (n - 1)) s 0%R in
  (lo + (hi - lo) * Q2R g)%R.

(** The spec's wording of a percentile: [v] is the [q]-th percentile of
    [l] under linear interpolation when, [s] being [l] in increasing
    order and [h = (n - 1) * q] the fractional rank, [v] lies between the
    values at ranks [floor h] and [floor h + 1], at the fraction
    [h - floor h] of the way. *)
Definition percentile_linear_spec (q : Q) (l : list R) (v : R) : Prop :=
  exists s : list R,
    Permutation s l /\ StronglySorted Rle s
    /\ exists (i : nat) (g : R),
        let h := (INR (List.length l - 1) * Q2R q)%R in
        (INR i <= h < INR i + 1)%R
        /\ g = (h - INR i)%R
        /\ v = ((1 - g) * nth i s 0
                + g * nth (Nat.min (i + 1) (List.length l - 1)) s 0)%R.

(** Step 6. *)
Definition thresholds (stats : list SkuStat) : R * R :=
  match eligible_cvs stats with
  | [] => (0%R, 0%R)
  | cvs => (quantile (33 # 100) cvs, quantile (66 # 100) cvs)
  end.

(** [np.select(condlist, choicelist, default)]: the choice of the first
    condition that holds. *)
Fixpoint np_select {A : Type} (condlist : list bool) (choicelist : list A)
         (default : A) : A :=
  match condlist, choicelist with
  | c :: cs, x :: xs => if c then x else np_select cs xs default
  | _, _ => default
  end.

(** [cv <= t] on a column that may hold NaN: false on NaN. *)
Definition cv_le (c : option R) (t : R) : bool :=
  match c with
  | Some x => Rleb x t
  | None => false
  end.

(** Step 7. *)
Definition xyz_label (x_threshold y_threshold : R) (st : SkuStat) : string :=
  np_select
    [ (n_periods st <? MIN_PERIODS)%nat;
      Qeq_bool (mean_value st) 0;
      isna (cv st);
      cv_le (cv st) x_threshold;
      cv_le (cv st) y_threshold ]
    [ ""; ""; ""; "X"; "Y" ]
    "Z".

(** Step 8: the label and the cv of each SKU joined onto every original
    row, a missing label filled with the empty string. *)
Definition broadcast (df_out : list InventoryRecord) (stats : list SkuStat)
           (x_threshold y_threshold : R) : list XyzRow :=
  map (fun x =>
         mkXyzRow (fst x)
                  (fillna "" (option_map (xyz_label x_threshold y_threshold) (snd x)))
                  (match snd x with Some st => cv st | None => None end)
                  x_threshold y_threshold)
      (merge_left (fun r st => String.eqb (SKU r) (stat_SKU st)) df_out stats).

Definition assign_xyz_groups (df : list RawRecord) (data_mode : string)
  : result (list XyzRow) :=
  if negb (String.eqb data_mode "dense" || String.eqb data_mode "sparse")
  then Raise (ValueError "data_mode must be 'dense' or 'sparse'")
  else
    let df_out := fill_values df in
    let stats := sku_stats (stats_input_df data_mode df_out) in
    let '(x_threshold, y_threshold) := thresholds stats in
    Ok (broadcast df_out stats x_threshold y_threshold).

End XYZ.

(* ================================================================== *)
(** * Blank key cells (abc_analyzer.py, assign_abc_groups) *)
(* ================================================================== *)

(** The same function on a sheet whose SKU or Period cell may be blank: a
    blank SKU is NaN after [read_excel], a date that does not parse is NaT
    and its [strftime] is NaN.  [groupby] leaves the rows with a null key
    out of [agg_df] (dropna=True), so the left join of step 5, which
    matches a null key only with a null key, finds them no label. *)
Module NullKeys.

Record SheetRecord := mkSheet {
  sheet_SKU : option string;
  sheet_Period : option string;
  sheet_Value : option Q
}.

(** A row after [df['Value'].fillna(0.0)]; the keys stay as they are. *)
Record FilledRecord := mkFilled {
  filled_SKU : option string;
  filled_Period : option string;
  filled_Value : Q
}.

Definition fill_sheet (df : list SheetRecord) : list FilledRecord :=
  map (fun r => mkFilled (sheet_SKU r) (sheet_Period r)
                         (fillna 0 (sheet_Value r))) df.

Definition has_null_key (r : FilledRecord) : bool :=
  (isna (filled_Period r) || isna (filled_SKU r))%bool.

(** The rows that [groupby(['Period','SKU'])] puts in a group. *)
Definition groupby_dropna (df : list FilledRecord) : list InventoryRecord :=
  flat_map (fun r => match filled_Period r, filled_SKU r with
                     | Some p, Some s => [mkRecord s p (filled_Value r)]
                     | _, _ => []
                     end)
           df.

(** Join condition of step 5; [agg_df] holds no null key. *)
Definition same_key (r : FilledRecord) (x : ABC.AbcRow) : bool :=
  match filled_Period r, filled_SKU r with
  | Some p, Some s =>
      (String.eqb p (ABC.agg_Period (ABC.agg x))
       && String.eqb s (ABC.agg_SKU (ABC.agg x)))%bool
  | _, _ => false
  end.

Definition join_labels (df : list FilledRecord) (t : list ABC.AbcRow)
  : list (FilledRecord * option string) :=
  map (fun x => (fst x, option_map ABC.ABC_Group (snd x)))
      (merge_left same_key df t).

Definition assign_abc_groups (df : list SheetRecord)
           (a_threshold b_threshold : Q)
  : result (list (FilledRecord * option string)) :=
  let df' := fill_sheet df in
  let agg_df := ABC.abc_table a_threshold b_threshold (groupby_dropna df') in
  ABC.check_assigned (join_labels df' agg_df).

(** A row of the classifiers' data model, seen as a sheet row. *)
Definition of_raw (r : RawRecord) : SheetRecord :=
  mkSheet (Some (raw_SKU r)) (Some (raw_Period r)) (raw_Value r).

Definition of_record (r : InventoryRecord) : FilledRecord :=
  mkFilled (Some (SKU r)) (Some (Period r)) (Value r).

End NullKeys.

(* ================================================================== *)
(** * Data preparation (abc_analyzer.py transform_data,
      xyz_analyzer.py prepare_data) *)
(* ================================================================== *)

Module Period.

(** The part of a parsed date that [strftime('%Y-%m')] reads. *)
Record Timestamp := mkTimestamp {
  ts_year : nat;
  ts_month : nat
}.

Definition digit (n : nat) : ascii := ascii_of_nat (48 + n mod 10).

(** [.dt.strftime('%Y-%m')]: the year on four digits, a dash, the month
    on two digits. *)
Definition strftime_Y_m (t : Timestamp) : string :=
  let y := ts_year t in
  let m := ts_month t in
  String (digit (y / 10 / 10 / 10))
    (String (digit (y / 10 / 10))
       (String (digit (y / 10))
          (String (digit y)
             (String "-"
                (String (digit (m / 10))
                   (String (digit m) EmptyString)))))).

End Period.

Module Transform.

(** A row of the stock sheet and a row of the cost sheet, with the
    columns that [transform_data] reads. *)
Record StockRow := mkStock {
  stock_SKU : string;
  stock_Date : Period.Timestamp;
  stock_Stock : option Q
}.

Record CogsRow := mkCogs {
  cogs_SKU : string;
  cogs_COGS : option Q
}.

(** [stock_cogs['COGS'].fillna(0)] on a row of the left join: the cost of
    the matched row, 0 when it is null or when no row matched. *)
Definition cogs_of (m : option CogsRow) : Q :=
  fillna 0 (match m with
            | Some c => cogs_COGS c
            | None => None
            end).

(** [transform_data]: the period of each stock row, the left join with
    the costs on SKU, Value = Stock * COGS (null when Stock is null), and
    the three columns SKU, Period, Value. *)
Definition transform_data (stock : list StockRow) (cogs : list CogsRow)
  : list RawRecord :=
  map (fun x =>
         mkRaw (stock_SKU (fst x))
               (Period.strftime_Y_m (stock_Date (fst x)))
               (option_map (fun s => s * cogs_of (snd x))
                           (stock_Stock (fst x))))
      (merge_left (fun s c => String.eqb (stock_SKU s) (cogs_SKU c))
                  stock cogs).

(** The main script of abc_analyzer.py between loading and saving. *)
Definition run_abc (stock : list StockRow) (cogs : list CogsRow)
  : result (list (InventoryRecord * option string)) :=
  ABC.assign_abc_groups (transform_data stock cogs) ABC.default_a ABC.default_b.

End Transform.

Module Prepare.

(** A frame seen through its columns: names in column order, each with
    its cells.  [prepare_data] only moves columns around, so the cell type
    is left open. *)
Section Columns.
Context {C : Type}.

Definition frame : Type := list (string * list C).

(** [name in df.columns]. *)
Definition has_column (name : string) (df : frame) : bool :=
  existsb (fun nc => String.eqb (fst nc) name) df.

(** [df[name]]. *)
Definition get_column (name : string) (df : frame) : option (list C) :=
  option_map snd (find (fun nc => String.eqb (fst nc) name) df).

(** [df[name] = col]: the column is replaced where it stands, or added
    as the last one. *)
Definition set_column (name : string) (col : list C) (df : frame) : frame :=
  if has_column name df
  then map (fun nc => if String.eqb (fst nc) name then (name, col) else nc) df
  else (df ++ [(name, col)])%list.

(** [del df[name]]. *)
Definition del_column (name : string) (df : frame) : frame :=
  filter (fun nc => negb (String.eqb (fst nc) name)) df.

(** [df.rename(columns={old: new}, inplace=True)]. *)
Definition rename_column (old new : string) (df : frame) : frame :=
  map (fun nc => if String.eqb (fst nc) old then (new, snd nc) else nc) df.

Inductive prepare_error : Type :=
| MissingDate
| MissingStockAndValue.

(** [pd.to_datetime(col).dt.strftime('%Y-%m')] on a whole column. *)
Variable to_period : list C -> list C.

(** [prepare_data] works on the caller's frame in place.  The first
    component is the state of that frame when the call ends, the second
    the error raised, if any; without error the frame is also the value
    returned. *)
Definition prepare_data (stock : frame) : frame * option prepare_error :=
  match get_column "Date" stock with
  | None => (stock, Some MissingDate)
  | Some dates =>
      let stock1 := del_column "Date" (set_column "Period" (to_period dates) stock) in
      if has_column "Stock" stock1
      then (rename_column "Stock" "Value" stock1, None)
      else if negb (has_column "Value" stock1)
           then (stock1, Some MissingStockAndValue)
           else (stock1, None)
  end.

(** The column check at the entry of [assign_xyz_groups]: the required
    columns that the frame lacks. *)
Definition missing_columns (df : frame) : list string :=
  filter (fun name => negb (has_column name df)) ["SKU"; "Period"; "Value"].

End Columns.

End Prepare.

(* ================================================================== *)
(** * Facts about the table primitives *)
(* ================================================================== *)

Section SortFacts.
Context {A : Type}.
Variable leb : A -> A -> bool.

Lemma insert_sorted_perm x l : Permutation (insert_sorted leb x l) (x :: l).
Proof.
  induction l as [|y t IH]; simpl.
  - apply Permutation_refl.
  - destruct (leb x y).
    + apply Permutation_refl.
    + eapply perm_trans; [apply perm_skip, IH | apply perm_swap].
Qed.

Lemma sort_by_perm l : Permutation (sort_by leb l) l.
Proof.
  induction l as [|x t IH]; simpl.
  - constructor.
  - eapply perm_trans; [apply insert_sorted_perm | now apply perm_skip].
Qed.

Lemma sort_by_In x l : In x (sort_by leb l) <-> In x l.
Proof.
  split; apply Permutation_in;
    [apply sort_by_perm | apply Permutation_sym, sort_by_perm].
Qed.

Lemma sort_by_length l : List.length (sort_by leb l) = List.length l.
Proof. apply Permutation_length, sort_by_perm. Qed.
End SortFacts.

Lemma filter_perm {A : Type} (f : A -> bool) (l l' : list A) :
  Permutation l l' -> Permutation (filter f l) (filter f l').
Proof.
  induction 1 as [|x l l' _ IH|x y l|l l' l'' _ IH1 _ IH2]; simpl.
  - constructor.
  - destruct (f x); [now apply perm_skip | exact IH].
  - destruct (f x), (f y); try apply Permutation_refl. apply perm_swap.
  - eapply perm_trans; eassumption.
Qed.

Lemma Qsum_perm (l l' : list Q) : Permutation l l' -> Qsum l == Qsum l'.
Proof.
  induction 1 as [|x l l' _ IH|x y l|l l' l'' _ IH1 _ IH2]; simpl.
  - reflexivity.
  - rewrite IH. reflexivity.
  - ring.
  - rewrite IH1. exact IH2.
Qed.

Lemma Qsum_nonneg (l : list Q) : Forall (fun v => 0 <= v) l -> 0 <= Qsum l.
Proof.
  induction 1 as [|x l Hx _ IH].
  - apply Qle_refl.
  - change (0 <= x + Qsum l). cbv beta in Hx. lra.
Qed.

Section GroupFacts.
Context {A K : Type}.
Variable eqb : K -> K -> bool.
Hypothesis eqb_spec : forall x y, eqb x y = true <-> x = y.
Variable key : A -> K.

Lemma eqb_same x : eqb x x = true.
Proof. now apply eqb_spec. Qed.

Lemma add_to_group_keys k (a : A) (gs : list (K * list A)) :
  forall k', In k' (map fst (add_to_group eqb k a gs)) <->
             k' = k \/ In k' (map fst gs).
Proof.
  induction gs as [|[k0 g] rest IH]; intros k'; simpl.
  - intuition.
  - destruct (eqb k k0) eqn:E; simpl.
    + apply eqb_spec in E. subst k0. intuition.
    + rewrite IH. intuition.
Qed.

Lemma add_to_group_NoDup k (a : A) (gs : list (K * list A)) :
  NoDup (map fst gs) -> NoDup (map fst (add_to_group eqb k a gs)).
Proof.
  induction gs as [|[k0 g] rest IH]; simpl; intros Hnd.
  - constructor; [intros [] | constructor].
  - inversion Hnd as [|? ? Hnotin Hrest]; subst.
    destruct (eqb k k0) eqn:E; simpl.
    + constructor; assumption.
    + constructor; [|now apply IH].
      rewrite add_to_group_keys. intros [->|Hin]; [|contradiction].
      rewrite eqb_same in E. discriminate.
Qed.

Lemma group_of_add k' k (a : A) (gs : list (K * list A)) :
  group_of eqb k' (add_to_group eqb k a gs) =
  if eqb k' k then a :: group_of eqb k' gs else group_of eqb k' gs.
Proof.
  induction gs as [|[k0 g] rest IH]; simpl.
  - destruct (eqb k' k); reflexivity.
  - destruct (eqb k k0) eqn:E; simpl.
    + apply eqb_spec in E. subst k0.
      destruct (eqb k' k); reflexivity.
    + destruct (eqb k' k0) eqn:E0.
      * destruct (eqb k' k) eqn:E1; [|reflexivity].
        apply eqb_spec in E0, E1. subst. rewrite eqb_same in E. discriminate.
      * exact IH.
Qed.

Lemma group_rows_keys (rows : list A) :
  forall k, In k (map fst (group_rows eqb key rows)) <->
            exists a, In a rows /\ key a = k.
Proof.
  induction rows as [|a rest IH]; intros k; simpl.
  - split; [intros [] | intros [? [[] _]]].
  - rewrite add_to_group_keys, IH. split.
    + intros [->|[b [Hb Hk]]]; [exists a | exists b]; auto.
    + intros [b [[->|Hb] Hk]]; [left | right; exists b]; auto.
Qed.

Lemma group_rows_NoDup (rows : list A) : NoDup (map fst (group_rows eqb key rows)).
Proof.
  induction rows as [|a rest IH]; simpl.
  - constructor.
  - now apply add_to_group_NoDup.
Qed.

Lemma group_of_group_rows k (rows : list A) :
  group_of eqb k (group_rows eqb key rows) =
  filter (fun a => eqb k (key a)) rows.
Proof.
  induction rows as [|a rest IH]; simpl.
  - reflexivity.
  - rewrite group_of_add, IH. reflexivity.
Qed.

Lemma group_of_In k g (gs : list (K * list A)) :
  NoDup (map fst gs) -> In (k, g) gs -> group_of eqb k gs = g.
Proof.
  induction gs as [|[k0 g0] rest IH]; simpl; intros Hnd Hin.
  - contradiction.
  - inversion Hnd as [|? ? Hnotin Hrest]; subst.
    destruct Hin as [Heq|Hin].
    + inversion Heq; subst. now rewrite eqb_same.
    + destruct (eqb k k0) eqn:E.
      * apply eqb_spec in E. subst k0. exfalso. apply Hnotin.
        apply in_map_iff. exists (k, g). auto.
      * now apply IH.
Qed.

(** Every group holds exactly the rows of its key, in table order. *)
Lemma group_rows_spec k g (rows : list A) :
  In (k, g) (group_rows eqb key rows) ->
  g = filter (fun a => eqb k (key a)) rows.
Proof.
  intros Hin. rewrite <- group_of_group_rows.
  symmetry. apply group_of_In; [apply group_rows_NoDup | exact Hin].
Qed.

Lemma unique_In (l : list K) x : In x (unique eqb l) <-> In x l.
Proof.
  induction l as [|y t IH]; simpl.
  - reflexivity.
  - rewrite filter_In, IH. split.
    + intros [->|[Hin _]]; auto.
    + intros [->|Hin]; auto.
      destruct (eqb x y) eqn:E.
      * apply eqb_spec in E. auto.
      * right. auto.
Qed.

Lemma unique_NoDup (l : list K) : NoDup (unique eqb l).
Proof.
  induction l as [|y t IH]; simpl.
  - constructor.
  - constructor.
    + rewrite filter_In. intros [_ H]. rewrite eqb_same in H. discriminate.
    + now apply NoDup_filter.
Qed.
End GroupFacts.

Lemma filter_map_comm {A B : Type} (f : B -> bool) (g : A -> B) (l : list A) :
  filter f (map g l) = map g (filter (fun a => f (g a)) l).
Proof.
  induction l as [|a l IH]; simpl.
  - reflexivity.
  - destruct (f (g a)); simpl; now rewrite IH.
Qed.

Section GroupSums.
Context {A K : Type}.
Variable eqb : K -> K -> bool.
Hypothesis eqb_spec : forall x y, eqb x y = true <-> x = y.
Variable key : A -> K.
Variable val : A -> Q.
Variable sel : K -> bool.

Lemma group_sum_add k (a : A) (gs : list (K * list A)) :
  Qsum (map (fun kg => Qsum (map val (snd kg)))
            (filter (fun kg => sel (fst kg)) (add_to_group eqb k a gs)))
  == Qsum (map (fun kg => Qsum (map val (snd kg)))
               (filter (fun kg => sel (fst kg)) gs))
     + (if sel k then val a else 0).
Proof.
  induction gs as [|[k0 g] rest IH]; simpl.
  - destruct (sel k); simpl; ring.
  - destruct (eqb k k0) eqn:E; simpl.
    + apply eqb_spec in E. subst k0.
      destruct (sel k); simpl; ring.
    + destruct (sel k0); simpl; rewrite IH; ring.
Qed.

(** Summing the groups selected by their key is summing the rows
    selected by their key. *)
Lemma group_sum_rows (rows : list A) :
  Qsum (map (fun kg => Qsum (map val (snd kg)))
            (filter (fun kg => sel (fst kg)) (group_rows eqb key rows)))
  == Qsum (map val (filter (fun a => sel (key a)) rows)).
Proof.
  induction rows as [|a rest IH]; simpl.
  - reflexivity.
  - rewrite group_sum_add, IH.
    destruct (sel (key a)); simpl; ring.
Qed.

Lemma sorted_group_sum_rows (leb : K * list A -> K * list A -> bool)
      (rows : list A) :
  Qsum (map (fun kg => Qsum (map val (snd kg)))
            (filter (fun kg => sel (fst kg))
                    (sort_by leb (group_rows eqb key rows))))
  == Qsum (map val (filter (fun a => sel (key a)) rows)).
Proof.
  rewrite <- group_sum_rows.
  apply Qsum_perm, Permutation_map, filter_perm, sort_by_perm.
Qed.
End GroupSums.

Lemma key2_eqb_spec (x y : key2) : key2_eqb x y = true <-> x = y.
Proof.
  destruct x as [x1 x2], y as [y1 y2]. unfold key2_eqb. simpl.
  rewrite andb_true_iff, !String.eqb_eq. split.
  - intros [-> ->]. reflexivity.
  - intros H. inversion H. auto.
Qed.

(* ================================================================== *)
(** * Aggregation *)
(* ================================================================== *)

Lemma abc_aggregate_conserves (df : list InventoryRecord) (p : string) :
  ABC.period_total (ABC.aggregate df) p == period_value_sum p df.
Proof.
  unfold ABC.period_total, ABC.aggregate, period_value_sum.
  rewrite filter_map_comm, map_map. simpl.
  apply (sorted_group_sum_rows key2_eqb key2_eqb_spec
           (fun r => (Period r, SKU r)) Value
           (fun k => String.eqb (fst k) p)).
Qed.

Lemma xyz_period_sum_conserves (df : list InventoryRecord) (p : string) :
  period_value_sum p (XYZ.period_sum df) == period_value_sum p df.
Proof.
  unfold XYZ.period_sum, period_value_sum.
  rewrite filter_map_comm, map_map. simpl.
  apply (sorted_group_sum_rows key2_eqb key2_eqb_spec
           (fun r => (SKU r, Period r)) Value
           (fun k => String.eqb (snd k) p)).
Qed.

(** C8. For every period, the group-by-sum step of either classifier
    keeps the period's total: the sum of [Value] over the aggregated
    (Period, SKU) rows equals the sum of [Value] over the input rows of
    that period. *)
Theorem aggregation_conserves_period_totals :
  forall (df : list RawRecord) (p : string),
    ABC.period_total (ABC.aggregate (fill_values df)) p
    == period_value_sum p (fill_values df)
    /\ period_value_sum p (XYZ.period_sum (fill_values df))
       == period_value_sum p (fill_values df).
Proof.
  intros df p. split.
  - apply abc_aggregate_conserves.
  - apply xyz_period_sum_conserves.
Qed.

(* ================================================================== *)
(** * The ABC table *)
(* ================================================================== *)

Lemma last_cons {A : Type} (x d : A) (l : list A) : last (x :: l) d = last l x.
Proof.
  revert x d. induction l as [|y l IH]; intros x d.
  - reflexivity.
  - change (last (y :: l) d = last (y :: l) x). rewrite !IH. reflexivity.
Qed.

Lemma last_map {A B : Type} (f : A -> B) (l : list A) (d : A) :
  last (map f l) (f d) = f (last l d).
Proof.
  revert d. induction l as [|x l IH]; intros d.
  - reflexivity.
  - simpl map. rewrite !last_cons. apply IH.
Qed.

Lemma StronglySorted_map_Qle (f : Q -> Q) (l : list Q) :
  (forall x y, x <= y -> f x <= f y) ->
  StronglySorted Qle l -> StronglySorted Qle (map f l).
Proof.
  intros Hmono. induction 1 as [|x l _ IH Hall]; simpl.
  - constructor.
  - constructor; [exact IH|].
    rewrite Forall_map. revert Hall. apply Forall_impl. intros y. apply Hmono.
Qed.

Section Annotate.
Variables a_threshold b_threshold : Q.
Variable total : string -> Q.

(** Each derived column of a row is computed from that row alone, once
    the running sum is known. *)
Lemma annotate_rowwise running t :
  Forall (fun x =>
            ABC.Total_Period_Value x = total (ABC.agg_Period (ABC.agg x))
            /\ ABC.Cumulative_Percent x =
               ABC.cumulative_percent (ABC.Cumulative_Value x)
                                      (ABC.Total_Period_Value x)
            /\ ABC.ABC_Group x =
               ABC.classify_abc a_threshold b_threshold
                                (ABC.Cumulative_Percent x)
                                (ABC.Total_Period_Value x))
         (ABC.annotate a_threshold b_threshold total running t).
Proof.
  revert running. induction t as [|r rest IH]; intros running; simpl.
  - constructor.
  - constructor; [simpl; auto | apply IH].
Qed.

Lemma annotate_agg running t :
  map ABC.agg (ABC.annotate a_threshold b_threshold total running t) = t.
Proof.
  revert running. induction t as [|r rest IH]; intros running; simpl.
  - reflexivity.
  - now rewrite IH.
Qed.

(** Inside one period the cumulative values grow from the running sum
    and end at the running sum plus the period's values. *)
Lemma annotate_cumulative p t :
  Forall (fun r => 0 <= ABC.agg_Value r) t ->
  forall running,
    let cs := map ABC.Cumulative_Value
                  (filter (fun x => String.eqb (ABC.agg_Period (ABC.agg x)) p)
                          (ABC.annotate a_threshold b_threshold total running t)) in
    StronglySorted Qle cs
    /\ Forall (fun c => running p <= c) cs
    /\ last cs (running p)
       == running p
          + Qsum (map ABC.agg_Value
                      (filter (fun r => String.eqb (ABC.agg_Period r) p) t)).
Proof.
  induction 1 as [|r rest Hr _ IH]; intros running; simpl.
  - repeat split; try constructor. ring.
  - destruct (String.eqb (ABC.agg_Period r) p) eqn:E.
    + apply String.eqb_eq in E.
      specialize (IH (ABC.bump running (ABC.agg_Period r)
                               (running (ABC.agg_Period r) + ABC.agg_Value r))).
      cbv zeta in IH. destruct IH as [Hs [Hall Hlast]].
      unfold ABC.bump in Hall, Hlast. subst p.
      rewrite String.eqb_refl in Hall, Hlast.
      simpl map. repeat split.
      * constructor; assumption.
      * constructor; [lra|].
        revert Hall. apply Forall_impl. intros c Hc. lra.
      * rewrite last_cons, Hlast. simpl. ring.
    + specialize (IH (ABC.bump running (ABC.agg_Period r)
                               (running (ABC.agg_Period r) + ABC.agg_Value r))).
      cbv zeta in IH. unfold ABC.bump in IH.
      assert (E' : String.eqb p (ABC.agg_Period r) = false).
      { rewrite String.eqb_sym. exact E. }
      rewrite E' in IH. exact IH.
Qed.
End Annotate.

Lemma aggregate_nonneg (df : list InventoryRecord) :
  Forall (fun r => 0 <= Value r) df ->
  Forall (fun r => 0 <= ABC.agg_Value r) (ABC.aggregate df).
Proof.
  intros Hdf. apply Forall_forall. intros r Hin.
  unfold ABC.aggregate in Hin. apply in_map_iff in Hin.
  destruct Hin as [[k g] [<- Hin]]. simpl.
  apply sort_by_In in Hin.
  apply (group_rows_spec key2_eqb key2_eqb_spec) in Hin. subst g.
  apply Qsum_nonneg. rewrite Forall_map.
  apply Forall_forall. intros x Hx. apply filter_In in Hx.
  rewrite Forall_forall in Hdf. apply Hdf. tauto.
Qed.

Lemma sort_values_total (t : list ABC.PeriodAggregate) (p : string) :
  ABC.period_total (ABC.sort_values t) p == ABC.period_total t p.
Proof.
  unfold ABC.period_total, ABC.sort_values.
  apply Qsum_perm, Permutation_map, filter_perm, sort_by_perm.
Qed.

(** The total column is the sum over the input rows of the period. *)
Lemma abc_table_total a b (df : list InventoryRecord) x :
  In x (ABC.abc_table a b df) ->
  ABC.Total_Period_Value x
  == period_value_sum (ABC.agg_Period (ABC.agg x)) df.
Proof.
  intros Hin. unfold ABC.abc_table in Hin. cbv zeta in Hin.
  pose proof (annotate_rowwise a b
                (ABC.period_total (ABC.sort_values (ABC.aggregate df)))
                (fun _ => 0) (ABC.sort_values (ABC.aggregate df))) as Hrow.
  rewrite Forall_forall in Hrow. destruct (Hrow x Hin) as [-> _].
  rewrite sort_values_total. apply abc_aggregate_conserves.
Qed.

Lemma abc_table_rowwise a b (df : list InventoryRecord) x :
  In x (ABC.abc_table a b df) ->
  ABC.Cumulative_Percent x =
  ABC.cumulative_percent (ABC.Cumulative_Value x) (ABC.Total_Period_Value x)
  /\ ABC.ABC_Group x =
     ABC.classify_abc a b (ABC.Cumulative_Percent x) (ABC.Total_Period_Value x).
Proof.
  intros Hin. unfold ABC.abc_table in Hin. cbv zeta in Hin.
  pose proof (annotate_rowwise a b
                (ABC.period_total (ABC.sort_values (ABC.aggregate df)))
                (fun _ => 0) (ABC.sort_values (ABC.aggregate df))) as Hrow.
  rewrite Forall_forall in Hrow. destruct (Hrow x Hin) as [_ H]. exact H.
Qed.

Lemma cumulative_percent_mono (tot : Q) :
  0 <= tot ->
  forall x y, x <= y ->
              ABC.cumulative_percent x tot <= ABC.cumulative_percent y tot.
Proof.
  intros Htot x y Hxy. unfold ABC.cumulative_percent.
  destruct (Qeq_bool tot 0) eqn:E.
  - apply Qle_refl.
  - unfold Qdiv. apply Qmult_le_compat_r; [exact Hxy|].
    apply Qinv_le_0_compat. exact Htot.
Qed.

Lemma cumulative_percent_full (c tot : Q) :
  c == tot -> ABC.cumulative_percent c tot == 1.
Proof.
  intros Hc. unfold ABC.cumulative_percent.
  destruct (Qeq_bool tot 0) eqn:E.
  - reflexivity.
  - apply Qeq_bool_neq in E. rewrite Hc. field. exact E.
Qed.

Lemma cumulative_percent_zero_total (c tot : Q) :
  tot == 0 -> ABC.cumulative_percent c tot = 1.
Proof.
  intros Ht. unfold ABC.cumulative_percent.
  apply Qeq_bool_iff in Ht. rewrite Ht. reflexivity.
Qed.

(** The percent column of one period, as a function of its cumulative
    column. *)
Lemma abc_table_period_percents a b (df : list InventoryRecord) p :
  let t := ABC.sort_values (ABC.aggregate df) in
  map ABC.Cumulative_Percent
      (filter (fun x => String.eqb (ABC.agg_Period (ABC.agg x)) p)
              (ABC.abc_table a b df))
  = map (fun c => ABC.cumulative_percent c (ABC.period_total t p))
        (map ABC.Cumulative_Value
             (filter (fun x => String.eqb (ABC.agg_Period (ABC.agg x)) p)
                     (ABC.abc_table a b df))).
Proof.
  intros t. rewrite map_map. apply map_ext_in. intros x Hx.
  apply filter_In in Hx. destruct Hx as [Hin Hp].
  apply String.eqb_eq in Hp.
  unfold ABC.abc_table in Hin. cbv zeta in Hin. fold t in Hin.
  pose proof (annotate_rowwise a b (ABC.period_total t) (fun _ => 0) t) as Hrow.
  rewrite Forall_forall in Hrow. destruct (Hrow x Hin) as [Htot [Hpct _]].
  rewrite Hpct, Htot, Hp. reflexivity.
Qed.

Lemma sorted_total_is_input_total (df : list InventoryRecord) p :
  ABC.period_total (ABC.sort_values (ABC.aggregate df)) p
  == period_value_sum p df.
Proof. rewrite sort_values_total. apply abc_aggregate_conserves. Qed.

Lemma period_value_sum_nonneg (df : list InventoryRecord) p :
  Forall (fun r => 0 <= Value r) df -> 0 <= period_value_sum p df.
Proof.
  intros Hdf. unfold period_value_sum. apply Qsum_nonneg.
  rewrite Forall_map. apply Forall_forall. intros x Hx.
  apply filter_In in Hx. rewrite Forall_forall in Hdf. apply Hdf. tauto.
Qed.

(* ================================================================== *)
(** * The label join and its check *)
(* ================================================================== *)

Lemma filter_unique_key {B K : Type} (eqb : K -> K -> bool) (kf : B -> K)
      (t : list B) (k : K) :
  (forall x y, eqb x y = true <-> x = y) ->
  NoDup (map kf t) -> In k (map kf t) ->
  exists x, filter (fun y => eqb k (kf y)) t = [x] /\ In x t /\ kf x = k.
Proof.
  intros Hspec. induction t as [|y t IH]; simpl; intros Hnd Hin.
  - contradiction.
  - inversion Hnd as [|? ? Hnotin Hrest]; subst.
    destruct (eqb k (kf y)) eqn:E.
    + apply Hspec in E. subst k. exists y. split; [|auto].
      f_equal.
      assert (Hnone : forall l, ~ In (kf y) (map kf l) ->
                                filter (fun z => eqb (kf y) (kf z)) l = []).
      { induction l as [|z l IHl]; simpl; intros Hn; [reflexivity|].
        destruct (eqb (kf y) (kf z)) eqn:Ez.
        - apply Hspec in Ez. exfalso. apply Hn. left. now symmetry.
        - apply IHl. intros H. apply Hn. now right. }
      now apply Hnone.
    + destruct Hin as [Heq|Hin].
      * subst k. rewrite (proj2 (Hspec _ _) eq_refl) in E. discriminate.
      * destruct (IH Hrest Hin) as [x [Hf [Hx Hk]]].
        exists x. auto.
Qed.

Lemma merge_left_single {A B : Type} (matches : A -> B -> bool)
      (left : list A) (right : list B) :
  (forall a, In a left -> exists b, filter (matches a) right = [b]) ->
  map fst (merge_left matches left right) = left
  /\ Forall (fun x => exists b, snd x = Some b /\ In b right
                                /\ matches (fst x) b = true)
            (merge_left matches left right).
Proof.
  unfold merge_left. induction left as [|a left IH]; simpl; intros Hall.
  - split; constructor.
  - destruct (Hall a (or_introl eq_refl)) as [b Hb].
    destruct IH as [IH1 IH2]; [intros a' Ha'; apply Hall; now right|].
    rewrite Hb. simpl. split.
    + f_equal. exact IH1.
    + constructor; [|exact IH2].
      exists b. simpl. split; [reflexivity|].
      assert (Hin : In b (filter (matches a) right)) by (rewrite Hb; now left).
      apply filter_In in Hin. exact Hin.
Qed.

Lemma abc_table_agg a b (df : list InventoryRecord) :
  map ABC.agg (ABC.abc_table a b df) = ABC.sort_values (ABC.aggregate df).
Proof. unfold ABC.abc_table. cbv zeta. apply annotate_agg. Qed.

Lemma abc_table_keys a b (df : list InventoryRecord) :
  Permutation
    (map (fun x => (ABC.agg_Period (ABC.agg x), ABC.agg_SKU (ABC.agg x)))
         (ABC.abc_table a b df))
    (map fst (group_rows key2_eqb (fun r => (Period r, SKU r)) df)).
Proof.
  rewrite <- (map_map ABC.agg
                      (fun r => (ABC.agg_Period r, ABC.agg_SKU r))).
  rewrite abc_table_agg. unfold ABC.sort_values.
  eapply perm_trans; [apply Permutation_map, sort_by_perm|].
  unfold ABC.aggregate. rewrite map_map. simpl.
  eapply perm_trans; [|apply Permutation_map, sort_by_perm].
  apply Permutation_refl' , map_ext. intros [[k1 k2] g]. reflexivity.
Qed.

(** Every input row meets exactly one row of the ABC table. *)
Lemma abc_table_single_match a b (df : list InventoryRecord) r :
  In r df ->
  exists x, filter (ABC.same_key r) (ABC.abc_table a b df) = [x].
Proof.
  intros Hr.
  destruct (filter_unique_key key2_eqb
              (fun x => (ABC.agg_Period (ABC.agg x), ABC.agg_SKU (ABC.agg x)))
              (ABC.abc_table a b df) (Period r, SKU r) key2_eqb_spec)
    as [x [Hf _]].
  - eapply Permutation_NoDup;
      [apply Permutation_sym, abc_table_keys
      | apply (group_rows_NoDup key2_eqb key2_eqb_spec)].
  - eapply Permutation_in; [apply Permutation_sym, abc_table_keys|].
    apply (group_rows_keys key2_eqb key2_eqb_spec). exists r. auto.
  - exists x. exact Hf.
Qed.

Lemma check_assigned_spec {A : Type} (res : list (A * option string)) :
  let missing := List.length (filter (fun x => isna (snd x)) res) in
  (missing = 0%nat -> ABC.check_assigned res = Ok res)
  /\ (missing <> 0%nat ->
      ABC.check_assigned res = Raise (RuntimeError missing)).
Proof.
  cbv zeta. unfold ABC.check_assigned.
  destruct (existsb (fun x => isna (snd x)) res) eqn:E.
  - split; [|reflexivity]. intros H0.
    apply existsb_exists in E. destruct E as [x [Hin Hx]].
    apply length_zero_iff_nil in H0.
    assert (Hf : In x (filter (fun x => isna (snd x)) res))
      by (apply filter_In; auto).
    rewrite H0 in Hf. contradiction.
  - split; [reflexivity|]. intros Hne. exfalso. apply Hne.
    apply length_zero_iff_nil.
    destruct (filter (fun x => isna (snd x)) res) as [|x l] eqn:Ef;
      [reflexivity|].
    assert (Hin : In x (filter (fun x => isna (snd x)) res))
      by (rewrite Ef; now left).
    apply filter_In in Hin. destruct Hin as [Hin Hx].
    assert (Ht : existsb (fun x => isna (snd x)) res = true)
      by (apply existsb_exists; eauto).
    rewrite Ht in E. discriminate.
Qed.

(** The classifier always returns: each input row, in order, with the
    label of the one table row that has its (Period, SKU) key. *)
Lemma assign_abc_groups_returns (df : list RawRecord) (a b : Q) :
  exists out,
    ABC.assign_abc_groups df a b = Ok out
    /\ map fst out = fill_values df
    /\ Forall (fun x => exists row,
                   In row (ABC.abc_table a b (fill_values df))
                   /\ ABC.same_key (fst x) row = true
                   /\ snd x = Some (ABC.ABC_Group row))
              out.
Proof.
  unfold ABC.assign_abc_groups. cbv zeta.
  set (df' := fill_values df). set (t := ABC.abc_table a b df').
  destruct (merge_left_single ABC.same_key df' t) as [Hfst Hall].
  { intros r Hr. now apply abc_table_single_match. }
  assert (Hlab : Forall (fun x => exists row,
                             In row t /\ ABC.same_key (fst x) row = true
                             /\ snd x = Some (ABC.ABC_Group row))
                        (ABC.join_labels df' t)).
  { unfold ABC.join_labels. rewrite Forall_map.
    revert Hall. apply Forall_impl. intros [r o] [row [Ho [Hin Hm]]].
    simpl in *. subst o. exists row. auto. }
  exists (ABC.join_labels df' t). split; [|split].
  - apply (proj1 (check_assigned_spec _)).
    apply length_zero_iff_nil.
    destruct (filter (fun x => isna (snd x)) (ABC.join_labels df' t))
      as [|x l] eqn:Ef; [reflexivity|].
    assert (Hin : In x (filter (fun x => isna (snd x)) (ABC.join_labels df' t)))
      by (rewrite Ef; now left).
    apply filter_In in Hin. destruct Hin as [Hin Hx].
    rewrite Forall_forall in Hlab. destruct (Hlab x Hin) as [row [_ [_ Hs]]].
    rewrite Hs in Hx. discriminate.
  - unfold ABC.join_labels. rewrite map_map. simpl. exact Hfst.
  - exact Hlab.
Qed.

(* ================================================================== *)
(** * ABC labels *)
(* ================================================================== *)

Lemma classify_abc_zero_total a b pct tot :
  tot == 0 -> ABC.classify_abc a b pct tot = "C".
Proof.
  intros Ht. unfold ABC.classify_abc.
  apply Qeq_bool_iff in Ht. now rewrite Ht.
Qed.

Lemma classify_abc_cases a b pct tot :
  ~ tot == 0 ->
  (pct <= a -> ABC.classify_abc a b pct tot = "A")
  /\ (a < pct -> pct <= b -> ABC.classify_abc a b pct tot = "B")
  /\ (a < pct -> b < pct -> ABC.classify_abc a b pct tot = "C").
Proof.
  intros Ht. unfold ABC.classify_abc.
  destruct (Qeq_bool tot 0) eqn:E.
  { apply Qeq_bool_iff in E. contradiction. }
  destruct (Qle_bool pct a) eqn:Ea, (Qle_bool pct b) eqn:Eb;
    try apply Qle_bool_iff in Ea; try apply Qle_bool_iff in Eb;
    repeat split; intros; try reflexivity; try lra;
    exfalso.
  all: try (assert (Ha : Qle_bool pct a = true) by (apply Qle_bool_iff; lra);
            rewrite Ha in Ea; discriminate).
  all: try (assert (Hb : Qle_bool pct b = true) by (apply Qle_bool_iff; lra);
            rewrite Hb in Eb; discriminate).
Qed.

(** The boundary case with the default thresholds. *)
Example abc_boundary_default_thresholds :
  ABC.classify_abc ABC.default_a ABC.default_b (80 # 100) 10 = "A"
  /\ ABC.classify_abc ABC.default_a ABC.default_b (80000001 # 100000000) 10 = "B"
  /\ ABC.classify_abc ABC.default_a ABC.default_b (95 # 100) 10 = "B"
  /\ ABC.classify_abc ABC.default_a ABC.default_b (95000001 # 100000000) 10 = "C".
Proof. repeat split. Qed.

(** Two SKUs of equal value in one period: the tie keeps the SKU order of
    the aggregation, the first one gets A and the second one C. *)
Example abc_two_equal_skus :
  ABC.assign_abc_groups
    [ mkRaw "A" "2024-01" (Some 100); mkRaw "B" "2024-01" (Some 100) ]
    ABC.default_a ABC.default_b
  = Ok [ (mkRecord "A" "2024-01" 100, Some "A");
         (mkRecord "B" "2024-01" 100, Some "C") ].
Proof. reflexivity. Qed.

(** C1, as the code has it. In a period with nonzero total, a cumulative
    share equal to [a_threshold] is labelled A and one above [a_threshold]
    and at most [b_threshold] is labelled B, whatever the two thresholds;
    one above [b_threshold] is labelled C provided
    [a_threshold <= b_threshold] (as with the defaults 0.80 and 0.95). *)
Theorem abc_thresholds_inclusive_when_ordered :
  forall (df : list RawRecord) (a_threshold b_threshold : Q) (x : ABC.AbcRow),
    In x (ABC.abc_table a_threshold b_threshold (fill_values df)) ->
    ~ period_value_sum (ABC.agg_Period (ABC.agg x)) (fill_values df) == 0 ->
    (ABC.Cumulative_Percent x == a_threshold -> ABC.ABC_Group x = "A")
    /\ (a_threshold < ABC.Cumulative_Percent x ->
        ABC.Cumulative_Percent x <= b_threshold -> ABC.ABC_Group x = "B")
    /\ (a_threshold <= b_threshold ->
        b_threshold < ABC.Cumulative_Percent x -> ABC.ABC_Group x = "C").
Proof.
  intros df a b x Hin Htot.
  destruct (abc_table_rowwise a b _ x Hin) as [_ ->].
  assert (Hnz : ~ ABC.Total_Period_Value x == 0).
  { rewrite (abc_table_total a b _ x Hin). exact Htot. }
  destruct (classify_abc_cases a b (ABC.Cumulative_Percent x)
                               (ABC.Total_Period_Value x) Hnz)
    as [HA [HB HC]].
  repeat split.
  - intros Heq. apply HA. lra.
  - exact HB.
  - intros Hab Hb. apply HC; lra.
Qed.

(** The row of share exactly 0.80 under the default thresholds. *)
Lemma abc_thresholds_inclusive_when_ordered_witness :
  let df := [ mkRaw "S1" "2024-01" (Some 8); mkRaw "S2" "2024-01" (Some 2) ] in
  let x := ABC.mkAbcRow (ABC.mkAgg "2024-01" "S1" 8) 10 8 (8 # 10) "A" in
  (ABC.Cumulative_Percent x == ABC.default_a -> ABC.ABC_Group x = "A")
  /\ (ABC.default_a < ABC.Cumulative_Percent x ->
      ABC.Cumulative_Percent x <= ABC.default_b -> ABC.ABC_Group x = "B")
  /\ (ABC.default_a <= ABC.default_b ->
      ABC.default_b < ABC.Cumulative_Percent x -> ABC.ABC_Group x = "C").
Proof.
  intros df x.
  apply (abc_thresholds_inclusive_when_ordered
           df ABC.default_a ABC.default_b x).
  - vm_compute. left. reflexivity.
  - vm_compute. discriminate.
Defined.

(** With the thresholds passed in the wrong order (0.95 and 0.80) the
    first two rules still hold as written: a share equal to
    [a_threshold] is labelled A. *)
Example abc_share_at_a_threshold_swapped :
  let df := [ mkRaw "S1" "2024-01" (Some 95); mkRaw "S2" "2024-01" (Some 5) ] in
  let x := ABC.mkAbcRow (ABC.mkAgg "2024-01" "S1" 95) 100 95 (95 # 100) "A" in
  In x (ABC.abc_table (95 # 100) (80 # 100) (fill_values df))
  /\ ABC.Cumulative_Percent x == 95 # 100
  /\ ABC.ABC_Group x = "A".
Proof.
  intros df x. repeat split. vm_compute. left. reflexivity.
Qed.

(** C1, as stated, fails when the thresholds are passed in the wrong
    order: with a_threshold = 0.95 and b_threshold = 0.80 a share of 0.9,
    strictly above b_threshold in a period of total 10, is labelled A. *)
Lemma abc_above_b_threshold_labelled_A :
  let df := [ mkRaw "S1" "2024-01" (Some 9); mkRaw "S2" "2024-01" (Some 1) ] in
  let x := ABC.mkAbcRow (ABC.mkAgg "2024-01" "S1" 9) 10 9 (9 # 10) "A" in
  In x (ABC.abc_table (95 # 100) (80 # 100) (fill_values df))
  /\ ~ period_value_sum (ABC.agg_Period (ABC.agg x)) (fill_values df) == 0
  /\ (80 # 100) < ABC.Cumulative_Percent x
  /\ ABC.ABC_Group x <> "C".
Proof.
  intros df x. repeat split.
  - vm_compute. left. reflexivity.
  - vm_compute. discriminate.
  - discriminate.
Qed.

(** C6. In a period whose total value is 0 nothing fails: the classifier
    returns, every row of the period has cumulative share 1 and label C,
    and so has every output record of the period. *)
Theorem zero_total_period_all_C :
  forall (df : list RawRecord) (a_threshold b_threshold : Q) (p : string),
    period_value_sum p (fill_values df) == 0 ->
    (forall x,
        In x (ABC.abc_table a_threshold b_threshold (fill_values df)) ->
        ABC.agg_Period (ABC.agg x) = p ->
        ABC.Cumulative_Percent x = 1 /\ ABC.ABC_Group x = "C")
    /\ exists out,
        ABC.assign_abc_groups df a_threshold b_threshold = Ok out
        /\ forall r, In r out -> Period (fst r) = p -> snd r = Some "C".
Proof.
  intros df a b p Hzero.
  assert (Hrows : forall x,
             In x (ABC.abc_table a b (fill_values df)) ->
             ABC.agg_Period (ABC.agg x) = p ->
             ABC.Cumulative_Percent x = 1 /\ ABC.ABC_Group x = "C").
  { intros x Hin Hp.
    assert (Ht : ABC.Total_Period_Value x == 0).
    { rewrite (abc_table_total a b _ x Hin), Hp. exact Hzero. }
    destruct (abc_table_rowwise a b _ x Hin) as [Hpct Hgrp].
    split.
    - rewrite Hpct. now apply cumulative_percent_zero_total.
    - rewrite Hgrp. now apply classify_abc_zero_total. }
  split; [exact Hrows|].
  destruct (assign_abc_groups_returns df a b) as [out [Hok [_ Hall]]].
  exists out. split; [exact Hok|].
  intros r Hr Hp. rewrite Forall_forall in Hall.
  destruct (Hall r Hr) as [row [Hin [Hkey ->]]].
  unfold ABC.same_key in Hkey. apply andb_true_iff in Hkey.
  destruct Hkey as [Hk _]. apply String.eqb_eq in Hk.
  destruct (Hrows row Hin) as [_ ->]; [congruence | reflexivity].
Qed.

Lemma zero_total_period_all_C_witness :
  let df := [ mkRaw "S1" "2024-02" (Some 0); mkRaw "S2" "2024-02" None;
              mkRaw "S1" "2024-01" (Some 4) ] in
  (forall x,
      In x (ABC.abc_table ABC.default_a ABC.default_b (fill_values df)) ->
      ABC.agg_Period (ABC.agg x) = "2024-02" ->
      ABC.Cumulative_Percent x = 1 /\ ABC.ABC_Group x = "C")
  /\ exists out,
      ABC.assign_abc_groups df ABC.default_a ABC.default_b = Ok out
      /\ forall r, In r out -> Period (fst r) = "2024-02" -> snd r = Some "C".
Proof.
  intros df.
  apply (zero_total_period_all_C df ABC.default_a ABC.default_b "2024-02").
  vm_compute. reflexivity.
Defined.

(** C5, as the code has it. The ABC classifier does not look at the range
    or the order of its thresholds: for every [a_threshold] and
    [b_threshold] it returns, and each record carries the label that
    [classify_abc] gives with the thresholds as passed. *)
Theorem abc_thresholds_not_validated :
  forall (df : list RawRecord) (a_threshold b_threshold : Q),
  exists out,
    ABC.assign_abc_groups df a_threshold b_threshold = Ok out
    /\ Forall (fun r => exists row,
                   In row (ABC.abc_table a_threshold b_threshold
                                         (fill_values df))
                   /\ ABC.same_key (fst r) row = true
                   /\ snd r = Some (ABC.classify_abc
                                      a_threshold b_threshold
                                      (ABC.Cumulative_Percent row)
                                      (ABC.Total_Period_Value row)))
              out.
Proof.
  intros df a b.
  destruct (assign_abc_groups_returns df a b) as [out [Hok [_ Hall]]].
  exists out. split; [exact Hok|].
  revert Hall. apply Forall_impl. intros r [row [Hin [Hkey Hs]]].
  exists row. repeat split; try assumption.
  rewrite Hs. f_equal. apply (abc_table_rowwise a b _ row Hin).
Qed.

(** C5, as stated, fails: thresholds outside (0,1] and in the wrong order
    (a_threshold = 2, b_threshold = 1/2) raise nothing, the classifier
    returns a labelled table. *)
Lemma abc_invalid_thresholds_accepted :
  ~ (2 <= 1) /\ (1 # 2) <= 2
  /\ ABC.assign_abc_groups
       [ mkRaw "S1" "2024-01" (Some 9); mkRaw "S2" "2024-01" (Some 1) ]
       2 (1 # 2)
     = Ok [ (mkRecord "S1" "2024-01" 9, Some "A");
            (mkRecord "S2" "2024-01" 1, Some "A") ].
Proof.
  repeat split.
  - intros H. vm_compute in H. apply H. reflexivity.
  - vm_compute. discriminate.
Qed.

(* ================================================================== *)
(** * XYZ labels *)
(* ================================================================== *)

Lemma Rleb_true (x y : R) : XYZ.Rleb x y = true <-> (x <= y)%R.
Proof.
  unfold XYZ.Rleb. destruct (Rle_dec x y); split; auto; discriminate.
Qed.

Lemma Rleb_false (x y : R) : XYZ.Rleb x y = false <-> (y < x)%R.
Proof.
  unfold XYZ.Rleb. destruct (Rle_dec x y); split; intros H;
    try discriminate; try reflexivity; lra.
Qed.

Lemma Qeq_bool_false (x y : Q) : Qeq_bool x y = false <-> ~ x == y.
Proof.
  split.
  - apply Qeq_bool_neq.
  - intros H. destruct (Qeq_bool x y) eqn:E; [|reflexivity].
    apply Qeq_bool_iff in E. contradiction.
Qed.

(** The label is the choice of the first rule that applies. *)
Lemma xyz_label_cases :
  forall (x_threshold y_threshold : R) (st : XYZ.SkuStat),
    let label := XYZ.xyz_label x_threshold y_threshold st in
    let enough := (2 <= XYZ.n_periods st)%nat in
    let active := ~ XYZ.mean_value st == 0 in
    ((XYZ.n_periods st < 2)%nat -> label = "")
    /\ (enough -> XYZ.mean_value st == 0 -> label = "")
    /\ (enough -> active -> XYZ.cv st = None -> label = "")
    /\ (forall c, enough -> active -> XYZ.cv st = Some c ->
                  (c <= x_threshold)%R -> label = "X")
    /\ (forall c, enough -> active -> XYZ.cv st = Some c ->
                  (x_threshold < c)%R -> (c <= y_threshold)%R -> label = "Y")
    /\ (forall c, enough -> active -> XYZ.cv st = Some c ->
                  (x_threshold < c)%R -> (y_threshold < c)%R -> label = "Z")
    /\ ((XYZ.n_periods st < 2)%nat \/ XYZ.mean_value st == 0 -> label <> "Z").
Proof.
  intros x y st label enough active. subst label enough active.
  unfold XYZ.xyz_label, XYZ.MIN_PERIODS. simpl.
  destruct (XYZ.n_periods st <? 2)%nat eqn:En.
  { apply Nat.ltb_lt in En. repeat split; intros; try reflexivity; try lia.
    discriminate. }
  apply Nat.ltb_ge in En.
  destruct (Qeq_bool (XYZ.mean_value st) 0) eqn:Em.
  { apply Qeq_bool_iff in Em.
    repeat split; intros; try reflexivity; try lia; try contradiction.
    discriminate. }
  apply Qeq_bool_false in Em.
  destruct (XYZ.cv st) as [c|] eqn:Ec; simpl.
  - destruct (XYZ.Rleb c x) eqn:Ex, (XYZ.Rleb c y) eqn:Ey;
      try apply Rleb_true in Ex; try apply Rleb_false in Ex;
      try apply Rleb_true in Ey; try apply Rleb_false in Ey;
      repeat split; intros;
      try match goal with H : Some _ = Some _ |- _ => inversion H; subst end;
      try reflexivity; try discriminate; try lia; try lra;
      try (exfalso; tauto);
      match goal with H : _ \/ _ |- _ => destruct H; [lia | contradiction] end.
  - repeat split; intros; try reflexivity; try discriminate; try lia;
      try (exfalso; tauto).
Qed.

(* ================================================================== *)
(** * Standard deviation *)
(* ================================================================== *)

Lemma Q2R_two : Q2R 2 = 2%R.
Proof. unfold Q2R. simpl. lra. Qed.

Lemma var_two_values (v1 v2 : Q) :
  XYZ.sum_sq_dev [v1; v2] / inject_Z (Z.of_nat (XYZ.count [v1; v2] - 1))
  == (v1 - v2) * (v1 - v2) / 2.
Proof.
  unfold XYZ.sum_sq_dev, XYZ.mean, XYZ.count, Qsum. simpl. field.
Qed.

Lemma sum_sq_dev_nonneg (vs : list Q) : 0 <= XYZ.sum_sq_dev vs.
Proof.
  unfold XYZ.sum_sq_dev. apply Qsum_nonneg. rewrite Forall_map.
  apply Forall_forall. intros v _. cbv beta.
  generalize (v - XYZ.mean vs). intros d. nra.
Qed.

Lemma Q2R_of_nat (n : nat) : Q2R (inject_Z (Z.of_nat n)) = INR n.
Proof.
  unfold Q2R, inject_Z. simpl. rewrite INR_IZR_INZ. lra.
Qed.

(** C10. [std_value] is the sample standard deviation (divisor n - 1):
    over two values it is |v1 - v2| / sqrt 2; over a single value the
    deviation is NaN and the column holds 0; over n >= 2 values its square
    times (n - 1) is the sum of squared deviations from the mean. *)
Theorem std_value_is_sample_std :
  (forall (s : string) (v1 v2 : Q),
      XYZ.std_value (XYZ.sku_stat (s, [v1; v2]))
      = (Rabs (Q2R v1 - Q2R v2) / sqrt 2)%R)
  /\ (forall (s : string) (v : Q),
         XYZ.std [v] = None
         /\ XYZ.std_value (XYZ.sku_stat (s, [v])) = 0%R)
  /\ (forall vs : list Q,
         (2 <= List.length vs)%nat ->
         exists sigma,
           XYZ.std vs = Some sigma
           /\ (0 <= sigma)%R
           /\ (sigma * sigma * INR (List.length vs - 1)
               = Q2R (XYZ.sum_sq_dev vs))%R).
Proof.
  split; [|split].
  - intros s v1 v2. unfold XYZ.sku_stat, XYZ.std, XYZ.var. simpl.
    change (sqrt (Q2R (XYZ.sum_sq_dev [v1; v2]
                       / inject_Z (Z.of_nat (XYZ.count [v1; v2] - 1))))
            = (Rabs (Q2R v1 - Q2R v2) / sqrt 2)%R).
    rewrite (Qeq_eqR _ _ (var_two_values v1 v2)).
    rewrite Q2R_div by discriminate.
    rewrite Q2R_mult, Q2R_minus, Q2R_two.
    rewrite sqrt_div_alt by lra.
    f_equal. apply sqrt_Rsqr_abs.
  - intros s v. split; reflexivity.
  - intros vs Hlen. unfold XYZ.std, XYZ.var, XYZ.count.
    destruct (List.length vs <? 2)%nat eqn:E.
    { apply Nat.ltb_lt in E. lia. }
    simpl. eexists. split; [reflexivity|]. split; [apply sqrt_pos|].
    assert (Hn : (0 < INR (List.length vs - 1))%R).
    { apply lt_0_INR. lia. }
    assert (Hq : ~ inject_Z (Z.of_nat (List.length vs - 1)) == 0).
    { intros H. apply Qeq_eqR in H. rewrite Q2R_of_nat in H.
      unfold Q2R in H. simpl in H. lra. }
    rewrite sqrt_sqrt.
    + rewrite Q2R_div by exact Hq. rewrite Q2R_of_nat. field. lra.
    + rewrite Q2R_div by exact Hq. rewrite Q2R_of_nat.
      apply Rle_mult_inv_pos; [|exact Hn].
      replace 0%R with (Q2R 0) by (unfold Q2R; simpl; lra).
      apply Qle_Rle, sum_sq_dev_nonneg.
Qed.

(* ================================================================== *)
(** * XYZ thresholds *)
(* ================================================================== *)

Section SortSorted.
Context {A : Type}.
Variable leb : A -> A -> bool.
Variable le : A -> A -> Prop.
Hypothesis leb_le : forall x y, leb x y = true -> le x y.
Hypothesis leb_total : forall x y, leb x y = false -> le y x.
Hypothesis le_trans : forall x y z, le x y -> le y z -> le x z.

Lemma insert_sorted_sorted x l :
  StronglySorted le l -> StronglySorted le (insert_sorted leb x l).
Proof.
  induction 1 as [|y t Ht IH Hall]; simpl.
  - repeat constructor.
  - destruct (leb x y) eqn:E.
    + constructor; [now constructor|].
      constructor; [now apply leb_le|].
      revert Hall. apply Forall_impl. intros z Hz.
      eapply le_trans; [apply leb_le, E | exact Hz].
    + constructor; [exact IH|].
      apply Forall_forall. intros z Hz.
      apply (Permutation_in _ (insert_sorted_perm leb x t)) in Hz.
      destruct Hz as [<-|Hz].
      * now apply leb_total.
      * rewrite Forall_forall in Hall. now apply Hall.
Qed.

Lemma sort_by_sorted l : StronglySorted le (sort_by leb l).
Proof.
  induction l as [|x t IH]; simpl.
  - constructor.
  - now apply insert_sorted_sorted.
Qed.
End SortSorted.

Lemma sort_by_Rleb_sorted (l : list R) :
  StronglySorted Rle (sort_by XYZ.Rleb l).
Proof.
  apply sort_by_sorted.
  - intros x y H. now apply Rleb_true.
  - intros x y H. apply Rleb_false in H. lra.
  - intros x y z. apply Rle_trans.
Qed.

Lemma Q2R_inject_Z (z : Z) : Q2R (inject_Z z) = IZR z.
Proof. unfold Q2R, inject_Z. simpl. lra. Qed.

(** The model of [Series.quantile] meets the spec's wording of a
    percentile. *)
Lemma quantile_meets_spec (q : Q) (l : list R) :
  0 <= q -> XYZ.percentile_linear_spec q l (XYZ.quantile q l).
Proof.
  intros Hq. unfold XYZ.percentile_linear_spec, XYZ.quantile. cbv zeta.
  exists (sort_by XYZ.Rleb l). split; [apply sort_by_perm|].
  split; [apply sort_by_Rleb_sorted|].
  rewrite sort_by_length.
  set (n1 := (List.length l - 1)%nat).
  set (h := inject_Z (Z.of_nat n1) * q).
  assert (Hh : 0 <= h).
  { unfold h. apply Qmult_le_0_compat; [|exact Hq].
    change 0 with (inject_Z 0). rewrite <- Zle_Qle. lia. }
  assert (Hfl : (0 <= Qfloor h)%Z).
  { rewrite <- (Qfloor_Z 0). apply Qfloor_resp_le. exact Hh. }
  assert (Hi : INR (Z.to_nat (Qfloor h)) = IZR (Qfloor h)).
  { rewrite INR_IZR_INZ, Z2Nat.id by exact Hfl. reflexivity. }
  assert (HhR : Q2R h = (INR n1 * Q2R q)%R).
  { unfold h. rewrite Q2R_mult, Q2R_inject_Z, <- INR_IZR_INZ. reflexivity. }
  exists (Z.to_nat (Qfloor h)), (Q2R (h - inject_Z (Qfloor h))).
  rewrite Hi, <- HhR. split; [split|split].
  - rewrite <- Q2R_inject_Z. apply Qle_Rle, Qfloor_le.
  - replace (IZR (Qfloor h) + 1)%R with (Q2R (inject_Z (Qfloor h + 1))).
    + apply Qlt_Rlt, Qlt_floor.
    + rewrite Q2R_inject_Z, plus_IZR. reflexivity.
  - rewrite Q2R_minus, Q2R_inject_Z. reflexivity.
  - ring.
Qed.

Lemma is_eligible_iff (st : XYZ.SkuStat) :
  XYZ.is_eligible st = true
  <-> (2 <= XYZ.n_periods st)%nat /\ ~ XYZ.mean_value st == 0.
Proof.
  unfold XYZ.is_eligible, XYZ.MIN_PERIODS.
  rewrite andb_true_iff, Nat.leb_le, negb_true_iff, Qeq_bool_false.
  reflexivity.
Qed.

Lemma dropna_In (l : list (option R)) (c : R) :
  In c (XYZ.dropna l) <-> In (Some c) l.
Proof.
  unfold XYZ.dropna. rewrite in_flat_map. split.
  - intros [[x|] [Hin Hc]]; simpl in Hc; [|contradiction].
    destruct Hc as [->|[]]. exact Hin.
  - intros Hin. exists (Some c). split; [exact Hin | now left].
Qed.

Lemma dropna_Some (l : list (option R)) :
  map Some (XYZ.dropna l) = filter (fun v => negb (isna v)) l.
Proof.
  induction l as [|[x|] l IH]; simpl.
  - reflexivity.
  - f_equal. exact IH.
  - exact IH.
Qed.

Lemma sorted_perm_unique (s s' : list R) :
  StronglySorted Rle s -> StronglySorted Rle s' -> Permutation s s' -> s = s'.
Proof.
  revert s'. induction s as [|x t IH]; intros s' Hs Hs' Hp.
  - apply Permutation_nil in Hp. now subst.
  - destruct s' as [|y t'].
    { apply Permutation_sym, Permutation_nil in Hp. discriminate. }
    inversion Hs as [|? ? Ht Hx]; subst. inversion Hs' as [|? ? Ht' Hy]; subst.
    assert (Hxy : x = y).
    { apply Rle_antisym.
      - assert (Hin : In y (x :: t))
          by (apply (Permutation_in _ (Permutation_sym Hp)); now left).
        destruct Hin as [->|Hin]; [apply Rle_refl|].
        rewrite Forall_forall in Hx. now apply Hx.
      - assert (Hin : In x (y :: t')) by (apply (Permutation_in _ Hp); now left).
        destruct Hin as [->|Hin]; [apply Rle_refl|].
        rewrite Forall_forall in Hy. now apply Hy. }
    subst y. f_equal. apply IH; try assumption.
    now apply Permutation_cons_inv in Hp.
Qed.

Lemma floor_index_unique (h : R) (i j : nat) :
  (INR i <= h < INR i + 1)%R -> (INR j <= h < INR j + 1)%R -> i = j.
Proof.
  intros [Hi1 Hi2] [Hj1 Hj2].
  assert (H1 : (i < S j)%nat) by (apply INR_lt; rewrite S_INR; lra).
  assert (H2 : (j < S i)%nat) by (apply INR_lt; rewrite S_INR; lra).
  lia.
Qed.

Lemma percentile_linear_spec_unique (q : Q) (l : list R) (v v' : R) :
  XYZ.percentile_linear_spec q l v -> XYZ.percentile_linear_spec q l v' ->
  v = v'.
Proof.
  intros [s [Hp [Hs [i [g [Hi [Hg Hv]]]]]]] [s' [Hp' [Hs' [j [g' [Hj [Hg' Hv']]]]]]].
  cbv zeta in *.
  assert (s = s').
  { apply sorted_perm_unique; try assumption.
    eapply perm_trans; [exact Hp | now apply Permutation_sym]. }
  assert (i = j) by (eapply floor_index_unique; eassumption).
  subst. reflexivity.
Qed.

Example quantile_three_values :
  XYZ.quantile (33 # 100) [(1/2)%R; (1/10)%R; (9/10)%R] = (364/1000)%R.
Proof.
  unfold XYZ.quantile. cbn [sort_by insert_sorted].
  repeat (first [ rewrite (proj2 (Rleb_true _ _)) by lra
                | rewrite (proj2 (Rleb_false _ _)) by lra ];
          cbn [insert_sorted]).
  cbn [List.length Nat.sub].
  change (Qfloor (inject_Z (Z.of_nat 2) * (33 # 100))) with 0%Z.
  cbn [Z.to_nat Nat.add Nat.min nth].
  rewrite Q2R_minus, Q2R_mult, !Q2R_inject_Z.
  unfold Q2R. simpl. lra.
Qed.

(** C4. The thresholds depend on the eligible SKUs only, those with at
    least 2 periods and a nonzero mean, and on their defined cv values:
    they are the 33rd and the 66th percentile of these values under
    linear interpolation, and both are 0 when there is no such value. *)
Theorem thresholds_from_eligible_cvs :
  forall stats : list XYZ.SkuStat,
    let cvs := XYZ.eligible_cvs stats in
    map Some cvs
    = filter (fun v => negb (isna v)) (map XYZ.cv (filter XYZ.is_eligible stats))
    /\ (forall st, XYZ.is_eligible st = true
                   <-> (2 <= XYZ.n_periods st)%nat /\ ~ XYZ.mean_value st == 0)
    /\ (forall c, In c cvs
                  <-> exists st, In st stats
                                 /\ (2 <= XYZ.n_periods st)%nat
                                 /\ ~ XYZ.mean_value st == 0
                                 /\ XYZ.cv st = Some c)
    /\ (cvs = [] -> XYZ.thresholds stats = (0%R, 0%R))
    /\ (cvs <> [] ->
        (forall v, XYZ.percentile_linear_spec (33 # 100) cvs v
                   <-> v = fst (XYZ.thresholds stats))
        /\ (forall v, XYZ.percentile_linear_spec (66 # 100) cvs v
                      <-> v = snd (XYZ.thresholds stats))).
Proof.
  intros stats cvs. subst cvs. split; [|split; [|split; [|split]]].
  - apply dropna_Some.
  - apply is_eligible_iff.
  - intros c. unfold XYZ.eligible_cvs. rewrite dropna_In, in_map_iff. split.
    + intros [st [Hc Hin]]. apply filter_In in Hin. destruct Hin as [Hin He].
      apply is_eligible_iff in He. exists st. tauto.
    + intros [st [Hin [Hn [Hm Hc]]]]. exists st. split; [exact Hc|].
      apply filter_In. split; [exact Hin|]. apply is_eligible_iff. tauto.
  - intros Hnil. unfold XYZ.thresholds. now rewrite Hnil.
  - intros Hne. unfold XYZ.thresholds.
    destruct (XYZ.eligible_cvs stats) as [|c cs]; [now elim Hne|].
    simpl fst. simpl snd.
    split; intros v; split.
    + intros Hv. eapply percentile_linear_spec_unique; [exact Hv|].
      apply quantile_meets_spec. discriminate.
    + intros ->. apply quantile_meets_spec. discriminate.
    + intros Hv. eapply percentile_linear_spec_unique; [exact Hv|].
      apply quantile_meets_spec. discriminate.
    + intros ->. apply quantile_meets_spec. discriminate.
Qed.

(* ================================================================== *)
(** * Dense and sparse statistics *)
(* ================================================================== *)

Lemma merge_left_cons {A B : Type} (matches : A -> B -> bool)
      (a : A) (left : list A) (right : list B) :
  merge_left matches (a :: left) right
  = (match filter (matches a) right with
     | [] => [(a, None)]
     | ms => map (fun b => (a, Some b)) ms
     end ++ merge_left matches left right)%list.
Proof. reflexivity. Qed.

Lemma merge_left_at_most_one {A B : Type} (matches : A -> B -> bool)
      (left : list A) (right : list B) :
  (forall a, In a left -> (List.length (filter (matches a) right) <= 1)%nat) ->
  merge_left matches left right
  = map (fun a => (a, hd_error (filter (matches a) right))) left.
Proof.
  induction left as [|a left IH]; intros Hall.
  - reflexivity.
  - rewrite merge_left_cons, IH by (intros a' Ha'; apply Hall; now right).
    specialize (Hall a (or_introl eq_refl)).
    destruct (filter (matches a) right) as [|b [|b' l]] eqn:E; simpl in *.
    + rewrite E. reflexivity.
    + rewrite E. reflexivity.
    + lia.
Qed.

Lemma filter_key_at_most_one {B K : Type} (eqb : K -> K -> bool) (kf : B -> K)
      (t : list B) (k : K) :
  (forall x y, eqb x y = true <-> x = y) ->
  NoDup (map kf t) ->
  (List.length (filter (fun y => eqb k (kf y)) t) <= 1)%nat.
Proof.
  intros Hspec Hnd.
  destruct (in_dec (fun x y => match Bool.bool_dec (eqb x y) true with
                               | left e => left (proj1 (Hspec x y) e)
                               | right n => right (fun e => n (proj2 (Hspec x y) e))
                               end) k (map kf t)) as [Hin|Hout].
  - destruct (filter_unique_key eqb kf t k Hspec Hnd Hin) as [x [-> _]].
    simpl. lia.
  - assert (Hnil : filter (fun y => eqb k (kf y)) t = []).
    { destruct (filter (fun y => eqb k (kf y)) t) as [|y l] eqn:Ef;
        [reflexivity|].
      assert (Hy : In y (filter (fun y => eqb k (kf y)) t))
        by (rewrite Ef; now left).
      apply filter_In in Hy. destruct Hy as [Hy Hk]. apply Hspec in Hk.
      exfalso. apply Hout. subst k. now apply in_map. }
    rewrite Hnil. simpl. lia.
Qed.

Lemma period_sum_keys (df : list InventoryRecord) :
  Permutation (map (fun r => (SKU r, Period r)) (XYZ.period_sum df))
              (map fst (group_rows key2_eqb (fun r => (SKU r, Period r)) df)).
Proof.
  unfold XYZ.period_sum. rewrite map_map. simpl.
  eapply perm_trans; [|apply Permutation_map, sort_by_perm].
  apply Permutation_refl', map_ext. intros [[k1 k2] g]. reflexivity.
Qed.

Lemma period_sum_NoDup (df : list InventoryRecord) :
  NoDup (map (fun r => (SKU r, Period r)) (XYZ.period_sum df)).
Proof.
  eapply Permutation_NoDup;
    [apply Permutation_sym, period_sum_keys
    | apply (group_rows_NoDup key2_eqb key2_eqb_spec)].
Qed.

Lemma period_sum_observed (df : list InventoryRecord) (s p : string) :
  In (s, p) (map (fun r => (SKU r, Period r)) (XYZ.period_sum df))
  <-> exists a, In a df /\ SKU a = s /\ Period a = p.
Proof.
  split.
  - intros Hin. apply (Permutation_in _ (period_sum_keys df)) in Hin.
    apply (group_rows_keys key2_eqb key2_eqb_spec) in Hin.
    destruct Hin as [a [Ha Hk]]. inversion Hk. exists a. auto.
  - intros [a [Ha [Hs Hp]]].
    apply (Permutation_in _ (Permutation_sym (period_sum_keys df))).
    apply (group_rows_keys key2_eqb key2_eqb_spec). exists a.
    split; [exact Ha | congruence].
Qed.

(** The value of an aggregated row is the sum over the input rows that
    have its (SKU, Period) key. *)
Lemma period_sum_value (df : list InventoryRecord) r :
  In r (XYZ.period_sum df) ->
  Value r
  = Qsum (map Value
              (filter (fun a => (String.eqb (SKU r) (SKU a)
                                 && String.eqb (Period r) (Period a))%bool) df)).
Proof.
  unfold XYZ.period_sum. intros Hin. apply in_map_iff in Hin.
  destruct Hin as [[[s p] g] [<- Hin]]. simpl.
  apply sort_by_In in Hin.
  apply (group_rows_spec key2_eqb key2_eqb_spec) in Hin. subst g.
  reflexivity.
Qed.

(** Dense mode: one row per cell of the SKU x Period grid, holding the
    aggregated value of the cell when there is one and 0 otherwise. *)
Lemma densify_grid (df : list InventoryRecord) :
  XYZ.densify df (XYZ.period_sum df)
  = map (fun k =>
           mkRecord (fst k) (snd k)
                    (fillna 0
                       (option_map Value
                          (hd_error
                             (filter (fun r => key2_eqb k (SKU r, Period r))
                                     (XYZ.period_sum df))))))
        (list_prod (unique String.eqb (map SKU df))
                   (unique String.eqb (map Period df))).
Proof.
  unfold XYZ.densify. cbv zeta.
  rewrite merge_left_at_most_one.
  - rewrite map_map. reflexivity.
  - intros k _.
    apply (filter_key_at_most_one key2_eqb (fun r => (SKU r, Period r))
                                  (XYZ.period_sum df) k key2_eqb_spec).
    apply period_sum_NoDup.
Qed.

Lemma filter_fst_row_other {B : Type} (s s' : string) (ps : list B) :
  s <> s' ->
  filter (fun k : string * B => String.eqb s (fst k))
         (map (fun y => (s', y)) ps) = [].
Proof.
  intros Hne. apply String.eqb_neq in Hne.
  induction ps as [|p ps IH]; cbn [map filter fst]; [reflexivity|].
  rewrite Hne. exact IH.
Qed.

Lemma filter_fst_row_same {B : Type} (s : string) (ps : list B) :
  filter (fun k : string * B => String.eqb s (fst k))
         (map (fun y => (s, y)) ps) = map (fun y => (s, y)) ps.
Proof.
  induction ps as [|p ps IH]; cbn [map filter fst]; [reflexivity|].
  rewrite String.eqb_refl. f_equal. exact IH.
Qed.

Lemma filter_fst_list_prod_absent {B : Type} (s : string) (ss : list string)
      (ps : list B) :
  ~ In s ss ->
  filter (fun k : string * B => String.eqb s (fst k)) (list_prod ss ps) = [].
Proof.
  induction ss as [|s0 ss IH]; intros Hout; cbn [list_prod]; [reflexivity|].
  rewrite filter_app, filter_fst_row_other, IH; [reflexivity| |].
  - intros H. apply Hout. now right.
  - intros ->. apply Hout. now left.
Qed.

Lemma filter_fst_list_prod {B : Type} (s : string) (ss : list string)
      (ps : list B) :
  NoDup ss -> In s ss ->
  filter (fun k => String.eqb s (fst k)) (list_prod ss ps)
  = map (fun y => (s, y)) ps.
Proof.
  induction ss as [|s0 ss IH]; intros Hnd Hin; cbn [list_prod].
  - contradiction.
  - inversion Hnd as [|? ? Hnotin Hrest]; subst.
    rewrite filter_app. destruct Hin as [->|Hin].
    + rewrite filter_fst_row_same, filter_fst_list_prod_absent by exact Hnotin.
      apply app_nil_r.
    + rewrite filter_fst_row_other by (intros ->; contradiction).
      now apply IH.
Qed.

(** One statistics row per SKU of the input table, computed from the
    values of the rows of that SKU, in table order. *)
Lemma sku_stats_In (rows : list InventoryRecord) (st : XYZ.SkuStat) :
  In st (XYZ.sku_stats rows)
  <-> exists s,
      In s (map SKU rows)
      /\ st = XYZ.sku_stat
                (s, map Value (filter (fun a => String.eqb s (SKU a)) rows)).
Proof.
  unfold XYZ.sku_stats, XYZ.sku_groups. rewrite map_map. rewrite in_map_iff.
  split.
  - intros [[s g] [<- Hin]]. simpl. apply sort_by_In in Hin.
    exists s. split.
    + apply in_map_iff.
      assert (Hk : In s (map fst (group_rows String.eqb SKU rows)))
        by (apply in_map_iff; exists (s, g); auto).
      apply (group_rows_keys String.eqb String.eqb_eq) in Hk.
      destruct Hk as [a [Ha Hs]]. exists a. auto.
    + apply (group_rows_spec String.eqb String.eqb_eq) in Hin. now subst g.
  - intros [s [Hs ->]].
    apply in_map_iff in Hs. destruct Hs as [a [Hs Ha]].
    assert (Hk : In s (map fst (group_rows String.eqb SKU rows))).
    { apply (group_rows_keys String.eqb String.eqb_eq). exists a. auto. }
    apply in_map_iff in Hk. destruct Hk as [[s' g] [Hs' Hin]].
    simpl in Hs'. subst s'.
    exists (s, g). simpl. split.
    + apply (group_rows_spec String.eqb String.eqb_eq) in Hin. now subst g.
    + now apply sort_by_In.
Qed.

Lemma NoDup_periods_of_sku (s : string) (l : list InventoryRecord) :
  NoDup (map (fun r => (SKU r, Period r)) l) ->
  NoDup (map Period (filter (fun a => String.eqb s (SKU a)) l)).
Proof.
  induction l as [|a l IH]; simpl; intros Hnd.
  - constructor.
  - inversion Hnd as [|? ? Hnotin Hrest]; subst.
    destruct (String.eqb s (SKU a)) eqn:E; [|now apply IH].
    apply String.eqb_eq in E. simpl. constructor; [|now apply IH].
    intros Hin. apply in_map_iff in Hin. destruct Hin as [b [Hp Hb]].
    apply filter_In in Hb. destruct Hb as [Hb Hs].
    apply String.eqb_eq in Hs. apply Hnotin.
    apply in_map_iff. exists b. split; [congruence | exact Hb].
Qed.

Lemma dense_n_periods (df : list InventoryRecord) (st : XYZ.SkuStat) :
  In st (XYZ.sku_stats (XYZ.stats_input_df "dense" df)) ->
  XYZ.n_periods st = List.length (unique String.eqb (map Period df)).
Proof.
  unfold XYZ.stats_input_df. simpl String.eqb. cbv iota.
  rewrite densify_grid. intros Hin.
  apply sku_stats_In in Hin. destruct Hin as [s [Hs ->]].
  unfold XYZ.sku_stat, XYZ.count. simpl XYZ.n_periods.
  rewrite length_map, filter_map_comm, length_map. simpl.
  rewrite map_map in Hs. simpl in Hs. apply in_map_iff in Hs.
  destruct Hs as [[s' p] [Hs' Hk]]. simpl in Hs'. subst s'.
  apply in_prod_iff in Hk. destruct Hk as [Hk _].
  rewrite filter_fst_list_prod.
  - apply length_map.
  - apply unique_NoDup. apply String.eqb_eq.
  - exact Hk.
Qed.

Lemma sparse_n_periods (df : list InventoryRecord) (st : XYZ.SkuStat) :
  In st (XYZ.sku_stats (XYZ.stats_input_df "sparse" df)) ->
  XYZ.n_periods st
  = List.length
      (unique String.eqb
              (map Period
                   (filter (fun a => String.eqb (XYZ.stat_SKU st) (SKU a)) df))).
Proof.
  unfold XYZ.stats_input_df. simpl String.eqb. cbv iota.
  intros Hin. apply sku_stats_In in Hin. destruct Hin as [s [_ ->]].
  unfold XYZ.sku_stat, XYZ.count. simpl XYZ.n_periods. simpl XYZ.stat_SKU.
  rewrite length_map.
  rewrite <- (length_map Period).
  apply Permutation_length, NoDup_Permutation.
  - apply NoDup_periods_of_sku, period_sum_NoDup.
  - apply unique_NoDup. apply String.eqb_eq.
  - intros p. rewrite (unique_In String.eqb String.eqb_eq).
    rewrite !in_map_iff. split.
    + intros [r [Hp Hr]]. apply filter_In in Hr. destruct Hr as [Hr Hs].
      apply String.eqb_eq in Hs.
      assert (Hk : In (s, p) (map (fun r => (SKU r, Period r))
                                  (XYZ.period_sum df))).
      { apply in_map_iff. exists r. split; [congruence | exact Hr]. }
      apply period_sum_observed in Hk. destruct Hk as [a [Ha [Hsa Hpa]]].
      exists a. split; [exact Hpa|]. apply filter_In. split; [exact Ha|].
      apply String.eqb_eq. now symmetry.
    + intros [a [Hp Ha]]. apply filter_In in Ha. destruct Ha as [Ha Hs].
      apply String.eqb_eq in Hs.
      assert (Hk : In (s, p) (map (fun r => (SKU r, Period r))
                                  (XYZ.period_sum df))).
      { apply period_sum_observed. exists a. auto. }
      apply in_map_iff in Hk. destruct Hk as [r [Hk Hr]]. inversion Hk.
      exists r. split; [reflexivity|]. apply filter_In. split; [exact Hr|].
      apply String.eqb_eq. congruence.
Qed.

(** A cell of the dense grid holds the sum of the input rows of its
    (SKU, Period) key, which is 0 when the input has no such row. *)
Lemma dense_value (df : list InventoryRecord) r :
  In r (XYZ.stats_input_df "dense" df) ->
  Value r
  = Qsum (map Value
              (filter (fun a => (String.eqb (SKU r) (SKU a)
                                 && String.eqb (Period r) (Period a))%bool) df))
  /\ ((forall a, In a df -> ~ (SKU a = SKU r /\ Period a = Period r)) ->
      Value r = 0).
Proof.
  unfold XYZ.stats_input_df. simpl String.eqb. cbv iota.
  rewrite densify_grid. intros Hin. apply in_map_iff in Hin.
  destruct Hin as [[s p] [<- _]]. simpl.
  destruct (filter (fun r => key2_eqb (s, p) (SKU r, Period r))
                   (XYZ.period_sum df)) as [|b l] eqn:Ef; simpl.
  - assert (Hnone : forall a, In a df -> ~ (SKU a = s /\ Period a = p)).
    { intros a Ha [Hs Hp].
      assert (Hk : In (s, p) (map (fun r => (SKU r, Period r))
                                  (XYZ.period_sum df)))
        by (apply period_sum_observed; exists a; auto).
      apply in_map_iff in Hk. destruct Hk as [r [Hk Hr]].
      assert (Hr' : In r (filter (fun r => key2_eqb (s, p) (SKU r, Period r))
                                 (XYZ.period_sum df))).
      { apply filter_In. split; [exact Hr|].
        apply key2_eqb_spec. now symmetry. }
      rewrite Ef in Hr'. contradiction. }
    split; [|reflexivity].
    assert (Hnil : filter (fun a => (String.eqb s (SKU a)
                                     && String.eqb p (Period a))%bool) df = []).
    { destruct (filter (fun a => (String.eqb s (SKU a)
                                  && String.eqb p (Period a))%bool) df)
        as [|a l] eqn:Ea; [reflexivity|].
      assert (Ha : In a (filter (fun a => (String.eqb s (SKU a)
                                  && String.eqb p (Period a))%bool) df))
        by (rewrite Ea; now left).
      apply filter_In in Ha. destruct Ha as [Ha Hk].
      apply andb_true_iff in Hk. destruct Hk as [Hs Hp].
      apply String.eqb_eq in Hs, Hp. exfalso. apply (Hnone a Ha). auto. }
    rewrite Hnil. reflexivity.
  - assert (Hb : In b (filter (fun r => key2_eqb (s, p) (SKU r, Period r))
                              (XYZ.period_sum df)))
      by (rewrite Ef; now left).
    apply filter_In in Hb. destruct Hb as [Hb Hk].
    apply key2_eqb_spec in Hk. inversion Hk as [[Hs Hp]].
    rewrite (period_sum_value df b Hb). split; [reflexivity|].
    intros Hnone. exfalso.
    assert (Hobs : In (SKU b, Period b)
                      (map (fun r => (SKU r, Period r)) (XYZ.period_sum df)))
      by (apply in_map_iff; exists b; auto).
    apply period_sum_observed in Hobs. destruct Hobs as [a [Ha [Hsa Hpa]]].
    apply (Hnone a Ha). split; congruence.
Qed.

Lemma dense_keys (df : list InventoryRecord) :
  map (fun r => (SKU r, Period r)) (XYZ.stats_input_df "dense" df)
  = list_prod (unique String.eqb (map SKU df))
              (unique String.eqb (map Period df)).
Proof.
  unfold XYZ.stats_input_df. simpl String.eqb. cbv iota.
  rewrite densify_grid, map_map. simpl.
  rewrite <- (map_id (list_prod _ _)) at 2.
  apply map_ext. intros [s p]. reflexivity.
Qed.

Lemma Q2R_zero : Q2R 0 = 0%R.
Proof. unfold Q2R. simpl. lra. Qed.

Lemma Q2R_Qabs_pos (m : Q) : ~ m == 0 -> (0 < Q2R (Qabs m))%R.
Proof.
  intros Hm. rewrite <- Q2R_zero. apply Qlt_Rlt.
  destruct (Qlt_le_dec 0 (Qabs m)) as [H|H]; [exact H|].
  exfalso. apply Hm. apply Qabs_Qle_condition in H. lra.
Qed.

(** With two periods or more and a nonzero mean the cv is a number:
    the sample standard deviation over the absolute mean. *)
Lemma cv_defined (s : string) (vs : list Q) :
  (2 <= List.length vs)%nat -> ~ XYZ.mean vs == 0 ->
  XYZ.cv (XYZ.sku_stat (s, vs))
  = Some (sqrt (Q2R (XYZ.sum_sq_dev vs
                     / inject_Z (Z.of_nat (XYZ.count vs - 1))))
          / Q2R (Qabs (XYZ.mean vs)))%R.
Proof.
  intros Hlen Hm.
  assert (E : (XYZ.count vs <? 2)%nat = false).
  { apply Nat.ltb_ge. exact Hlen. }
  unfold XYZ.sku_stat. cbn [XYZ.cv snd].
  unfold XYZ.coefficient_of_variation.
  rewrite (proj2 (Qeq_bool_false _ _) Hm).
  unfold XYZ.std, XYZ.var. rewrite E. cbn [option_map fillna].
  unfold XYZ.fdiv.
  destruct (Req_EM_T (Q2R (Qabs (XYZ.mean vs))) 0) as [Hz|Hnz].
  - pose proof (Q2R_Qabs_pos _ Hm). lra.
  - reflexivity.
Qed.

Lemma cv_zero_when_constant (s : string) (vs : list Q) :
  (2 <= List.length vs)%nat -> ~ XYZ.mean vs == 0 ->
  XYZ.sum_sq_dev vs == 0 ->
  XYZ.cv (XYZ.sku_stat (s, vs)) = Some 0%R.
Proof.
  intros Hlen Hm Hz. rewrite cv_defined by assumption. f_equal.
  assert (Hv : XYZ.sum_sq_dev vs / inject_Z (Z.of_nat (XYZ.count vs - 1)) == 0).
  { rewrite Hz. unfold Qdiv. ring. }
  rewrite (Qeq_eqR _ _ Hv), Q2R_zero, sqrt_0.
  unfold Rdiv. ring.
Qed.

Lemma cv_positive_when_varying (s : string) (vs : list Q) :
  (2 <= List.length vs)%nat -> ~ XYZ.mean vs == 0 ->
  0 < XYZ.sum_sq_dev vs / inject_Z (Z.of_nat (XYZ.count vs - 1)) ->
  exists c, XYZ.cv (XYZ.sku_stat (s, vs)) = Some c /\ (0 < c)%R.
Proof.
  intros Hlen Hm Hv. rewrite cv_defined by assumption.
  eexists. split; [reflexivity|].
  apply Rdiv_lt_0_compat.
  - apply sqrt_lt_R0. rewrite <- Q2R_zero. now apply Qlt_Rlt.
  - now apply Q2R_Qabs_pos.
Qed.

(** The worked case: X1 is seen in 2024-01 and 2024-03, and 2024-02 is a
    period of the input through another SKU. *)
Lemma dense_sparse_example :
  let df := fill_values [ mkRaw "X1" "2024-01" (Some 10);
                          mkRaw "X2" "2024-02" (Some 5);
                          mkRaw "X1" "2024-03" (Some 10) ] in
  exists d s,
    In d (XYZ.sku_stats (XYZ.stats_input_df "dense" df))
    /\ In s (XYZ.sku_stats (XYZ.stats_input_df "sparse" df))
    /\ XYZ.stat_SKU d = "X1" /\ XYZ.stat_SKU s = "X1"
    /\ XYZ.n_periods d = 3%nat /\ XYZ.n_periods s = 2%nat
    /\ XYZ.cv s = Some 0%R
    /\ (exists c, XYZ.cv d = Some c /\ (0 < c)%R)
    /\ XYZ.cv d <> XYZ.cv s.
Proof.
  intros df.
  assert (Hd : XYZ.sku_groups (XYZ.stats_input_df "dense" df)
               = [("X1", [10; 0; 10]); ("X2", [0; 5; 0])])
    by (vm_compute; reflexivity).
  assert (Hs : XYZ.sku_groups (XYZ.stats_input_df "sparse" df)
               = [("X1", [10; 10]); ("X2", [5])])
    by (vm_compute; reflexivity).
  assert (Hcs : XYZ.cv (XYZ.sku_stat ("X1", [10; 10])) = Some 0%R).
  { apply cv_zero_when_constant.
    - simpl. lia.
    - intros H. vm_compute in H. discriminate.
    - vm_compute. reflexivity. }
  assert (Hcd : exists c, XYZ.cv (XYZ.sku_stat ("X1", [10; 0; 10])) = Some c
                          /\ (0 < c)%R).
  { apply cv_positive_when_varying.
    - simpl. lia.
    - intros H. vm_compute in H. discriminate.
    - vm_compute. reflexivity. }
  exists (XYZ.sku_stat ("X1", [10; 0; 10])), (XYZ.sku_stat ("X1", [10; 10])).
  unfold XYZ.sku_stats. rewrite Hd, Hs.
  split; [left; reflexivity|]. split; [left; reflexivity|].
  split; [reflexivity|]. split; [reflexivity|].
  split; [reflexivity|]. split; [reflexivity|].
  split; [exact Hcs|]. split; [exact Hcd|].
  destruct Hcd as [c [Hc Hpos]]. rewrite Hc, Hcs.
  intros H. inversion H. lra.
Qed.

(** C2. Dense mode computes the statistics over the full grid of the
    distinct SKUs and the distinct periods of the input, a cell without
    input row holding 0; sparse mode over the observed (SKU, Period)
    pairs only.  So the period count of a SKU is the number of distinct
    periods of the whole input in dense mode and the number of distinct
    periods of that SKU in sparse mode: a SKU seen with value 10 in two of
    three input periods has n_periods 3 and a positive cv in dense mode,
    n_periods 2 and cv 0 in sparse mode. *)
Theorem dense_grid_sparse_observed :
  forall df : list RawRecord,
    let df_out := fill_values df in
    let key := fun r => (SKU r, Period r) in
    let all_skus := unique String.eqb (map SKU df_out) in
    let all_periods := unique String.eqb (map Period df_out) in
    map key (XYZ.stats_input_df "dense" df_out) = list_prod all_skus all_periods
    /\ (forall r,
           In r (XYZ.stats_input_df "dense" df_out) ->
           Value r
           = Qsum (map Value
                       (filter (fun a => (String.eqb (SKU r) (SKU a)
                                          && String.eqb (Period r) (Period a))%bool)
                               df_out))
           /\ ((forall a, In a df_out ->
                          ~ (SKU a = SKU r /\ Period a = Period r)) ->
               Value r = 0))
    /\ NoDup (map key (XYZ.stats_input_df "sparse" df_out))
    /\ (forall s p,
           In (s, p) (map key (XYZ.stats_input_df "sparse" df_out))
           <-> exists a, In a df_out /\ SKU a = s /\ Period a = p)
    /\ (forall st,
           In st (XYZ.sku_stats (XYZ.stats_input_df "dense" df_out)) ->
           XYZ.n_periods st = List.length all_periods)
    /\ (forall st,
           In st (XYZ.sku_stats (XYZ.stats_input_df "sparse" df_out)) ->
           XYZ.n_periods st
           = List.length
               (unique String.eqb
                       (map Period
                            (filter (fun a => String.eqb (XYZ.stat_SKU st) (SKU a))
                                    df_out))))
    /\ (let ex := fill_values [ mkRaw "X1" "2024-01" (Some 10);
                                mkRaw "X2" "2024-02" (Some 5);
                                mkRaw "X1" "2024-03" (Some 10) ] in
        exists d s,
          In d (XYZ.sku_stats (XYZ.stats_input_df "dense" ex))
          /\ In s (XYZ.sku_stats (XYZ.stats_input_df "sparse" ex))
          /\ XYZ.stat_SKU d = "X1" /\ XYZ.stat_SKU s = "X1"
          /\ XYZ.n_periods d = 3%nat /\ XYZ.n_periods s = 2%nat
          /\ XYZ.cv s = Some 0%R
          /\ (exists c, XYZ.cv d = Some c /\ (0 < c)%R)
          /\ XYZ.cv d <> XYZ.cv s).
Proof.
  intros df df_out key all_skus all_periods.
  split; [apply dense_keys|].
  split; [intros r; apply dense_value|].
  split; [apply period_sum_NoDup|].
  split; [intros s p; apply period_sum_observed|].
  split; [intros st; apply dense_n_periods|].
  split; [intros st; apply sparse_n_periods|].
  apply dense_sparse_example.
Qed.

(* ================================================================== *)
(** * The XYZ broadcast *)
(* ================================================================== *)

Lemma sku_stats_keys (rows : list InventoryRecord) :
  Permutation (map XYZ.stat_SKU (XYZ.sku_stats rows))
              (map fst (group_rows String.eqb SKU rows)).
Proof.
  unfold XYZ.sku_stats, XYZ.sku_groups. rewrite !map_map. simpl.
  apply Permutation_map, sort_by_perm.
Qed.

Lemma stats_input_covers (data_mode : string) (df : list InventoryRecord) r :
  In r df -> In (SKU r) (map SKU (XYZ.stats_input_df data_mode df)).
Proof.
  intros Hr. unfold XYZ.stats_input_df.
  assert (Hsparse : In (SKU r) (map SKU (XYZ.period_sum df))).
  { assert (Hk : In (SKU r, Period r)
                    (map (fun r => (SKU r, Period r)) (XYZ.period_sum df)))
      by (apply period_sum_observed; exists r; auto).
    apply in_map_iff in Hk. destruct Hk as [b [Hk Hb]]. inversion Hk.
    apply in_map_iff. exists b. auto. }
  destruct (String.eqb data_mode "dense"); [|exact Hsparse].
  rewrite densify_grid, map_map. simpl.
  apply in_map_iff. exists (SKU r, Period r). split; [reflexivity|].
  apply in_prod; apply (unique_In String.eqb String.eqb_eq);
    apply in_map; exact Hr.
Qed.

(** Every input row meets exactly one row of the statistics table. *)
Lemma sku_stats_single_match (data_mode : string)
      (df : list InventoryRecord) r :
  In r df ->
  exists st,
    filter (fun st => String.eqb (SKU r) (XYZ.stat_SKU st))
           (XYZ.sku_stats (XYZ.stats_input_df data_mode df)) = [st].
Proof.
  intros Hr.
  destruct (filter_unique_key String.eqb XYZ.stat_SKU
              (XYZ.sku_stats (XYZ.stats_input_df data_mode df)) (SKU r)
              String.eqb_eq) as [st [Hf _]].
  - eapply Permutation_NoDup;
      [apply Permutation_sym, sku_stats_keys
      | apply (group_rows_NoDup String.eqb String.eqb_eq)].
  - eapply Permutation_in; [apply Permutation_sym, sku_stats_keys|].
    apply (group_rows_keys String.eqb String.eqb_eq).
    pose proof (stats_input_covers data_mode df r Hr) as Hc.
    apply in_map_iff in Hc. destruct Hc as [b [Hb Hin]]. exists b. auto.
  - exists st. exact Hf.
Qed.

Lemma broadcast_spec (data_mode : string) (df : list InventoryRecord)
      (x y : R) :
  let stats := XYZ.sku_stats (XYZ.stats_input_df data_mode df) in
  map XYZ.rec (XYZ.broadcast df stats x y) = df
  /\ Forall (fun row => exists st,
                 In st stats
                 /\ XYZ.stat_SKU st = SKU (XYZ.rec row)
                 /\ XYZ.XYZ row = XYZ.xyz_label x y st
                 /\ XYZ.CV row = XYZ.cv st
                 /\ XYZ.x_threshold_33 row = x
                 /\ XYZ.y_threshold_66 row = y)
            (XYZ.broadcast df stats x y).
Proof.
  intros stats. unfold XYZ.broadcast.
  destruct (merge_left_single
              (fun r st => String.eqb (SKU r) (XYZ.stat_SKU st)) df stats)
    as [Hfst Hall].
  { intros r Hr. now apply sku_stats_single_match. }
  split.
  - rewrite map_map. simpl. exact Hfst.
  - rewrite Forall_map. revert Hall. apply Forall_impl.
    intros [r o] [st [Ho [Hin Hm]]]. simpl in *. subst o.
    apply String.eqb_eq in Hm. exists st. simpl.
    repeat split; try reflexivity; auto.
Qed.

(** C3. The XYZ label of a SKU is the choice of the first rule that
    applies: fewer than 2 periods, then zero mean, then NaN cv (all three
    give the empty string), then cv <= x_threshold (X), then
    cv <= y_threshold (Y), otherwise Z; a SKU with fewer than 2 periods or
    zero mean is never labelled Z.  The classifier returns in either mode,
    and each returned record carries this label for the statistics of its
    SKU and the derived thresholds. *)
Theorem xyz_label_first_match :
  (forall (x_threshold y_threshold : R) (st : XYZ.SkuStat),
      let label := XYZ.xyz_label x_threshold y_threshold st in
      let enough := (2 <= XYZ.n_periods st)%nat in
      let active := ~ XYZ.mean_value st == 0 in
      ((XYZ.n_periods st < 2)%nat -> label = "")
      /\ (enough -> XYZ.mean_value st == 0 -> label = "")
      /\ (enough -> active -> XYZ.cv st = None -> label = "")
      /\ (forall c, enough -> active -> XYZ.cv st = Some c ->
                    (c <= x_threshold)%R -> label = "X")
      /\ (forall c, enough -> active -> XYZ.cv st = Some c ->
                    (x_threshold < c)%R -> (c <= y_threshold)%R -> label = "Y")
      /\ (forall c, enough -> active -> XYZ.cv st = Some c ->
                    (x_threshold < c)%R -> (y_threshold < c)%R -> label = "Z")
      /\ ((XYZ.n_periods st < 2)%nat \/ XYZ.mean_value st == 0 ->
          label <> "Z"))
  /\ (forall (df : list RawRecord) (data_mode : string),
         data_mode = "dense" \/ data_mode = "sparse" ->
         let stats := XYZ.sku_stats
                        (XYZ.stats_input_df data_mode (fill_values df)) in
         exists out,
           XYZ.assign_xyz_groups df data_mode = Ok out
           /\ map XYZ.rec out = fill_values df
           /\ Forall (fun row => exists st,
                          In st stats
                          /\ XYZ.stat_SKU st = SKU (XYZ.rec row)
                          /\ XYZ.XYZ row
                             = XYZ.xyz_label (fst (XYZ.thresholds stats))
                                             (snd (XYZ.thresholds stats)) st)
                     out).
Proof.
  split; [apply xyz_label_cases|].
  intros df data_mode Hmode stats. unfold XYZ.assign_xyz_groups.
  assert (Hvalid : negb (String.eqb data_mode "dense"
                         || String.eqb data_mode "sparse") = false).
  { destruct Hmode as [-> | ->]; reflexivity. }
  rewrite Hvalid. cbv zeta. fold stats.
  destruct (XYZ.thresholds stats) as [x y] eqn:Et.
  destruct (broadcast_spec data_mode (fill_values df) x y) as [Hrec Hall].
  fold stats in Hrec, Hall.
  exists (XYZ.broadcast (fill_values df) stats x y).
  split; [reflexivity|]. split; [exact Hrec|].
  revert Hall. apply Forall_impl.
  intros row [st [Hin [Hs [Hl _]]]]. exists st. simpl. auto.
Qed.

(* ================================================================== *)
(** * Order of the ABC table *)
(* ================================================================== *)

Lemma compare_refl (s : string) : String.compare s s = Eq.
Proof. now apply OrderedTypeEx.String_as_OT.cmp_eq. Qed.

Lemma compare_lt_trans (a b c : string) :
  String.compare a b = Lt -> String.compare b c = Lt ->
  String.compare a c = Lt.
Proof.
  intros H1 H2.
  apply OrderedTypeEx.String_as_OT.cmp_lt in H1, H2.
  apply OrderedTypeEx.String_as_OT.cmp_lt.
  eapply OrderedTypeEx.String_as_OT.lt_trans; eassumption.
Qed.

Lemma compare_gt_lt (a b : string) :
  String.compare a b = Gt -> String.compare b a = Lt.
Proof.
  intros H. rewrite String.compare_antisym, H. reflexivity.
Qed.

Lemma period_value_leb_total (x y : ABC.PeriodAggregate) :
  ABC.period_value_leb x y = false -> ABC.period_value_leb y x = true.
Proof.
  unfold ABC.period_value_leb.
  destruct (String.compare (ABC.agg_Period x) (ABC.agg_Period y)) eqn:E;
    intros H; try discriminate.
  - apply String.compare_eq_iff in E. rewrite E, compare_refl.
    apply Qle_bool_iff.
    destruct (Qlt_le_dec (ABC.agg_Value y) (ABC.agg_Value x)) as [Hlt|Hle].
    + assert (Ht : Qle_bool (ABC.agg_Value y) (ABC.agg_Value x) = true)
        by (apply Qle_bool_iff; lra).
      rewrite Ht in H. discriminate.
    + exact Hle.
  - now rewrite (compare_gt_lt _ _ E).
Qed.

Lemma period_value_leb_trans (x y z : ABC.PeriodAggregate) :
  ABC.period_value_leb x y = true -> ABC.period_value_leb y z = true ->
  ABC.period_value_leb x z = true.
Proof.
  unfold ABC.period_value_leb.
  destruct (String.compare (ABC.agg_Period x) (ABC.agg_Period y)) eqn:Exy;
    destruct (String.compare (ABC.agg_Period y) (ABC.agg_Period z)) eqn:Eyz;
    intros H1 H2; try discriminate.
  - apply String.compare_eq_iff in Exy, Eyz. rewrite Exy, Eyz, compare_refl.
    apply Qle_bool_iff in H1, H2. apply Qle_bool_iff. lra.
  - apply String.compare_eq_iff in Exy. now rewrite Exy, Eyz.
  - apply String.compare_eq_iff in Eyz. now rewrite <- Eyz, Exy.
  - now rewrite (compare_lt_trans _ _ _ Exy Eyz).
Qed.

Lemma StronglySorted_weaken {A : Type} (R R' : A -> A -> Prop) (l : list A) :
  (forall x y, R x y -> R' x y) -> StronglySorted R l -> StronglySorted R' l.
Proof.
  intros Himp. induction 1 as [|x l _ IH Hall].
  - constructor.
  - constructor; [exact IH|]. revert Hall. apply Forall_impl. apply Himp.
Qed.

Lemma StronglySorted_filter {A : Type} (R : A -> A -> Prop) (f : A -> bool)
      (l : list A) :
  StronglySorted R l -> StronglySorted R (filter f l).
Proof.
  induction 1 as [|x l _ IH Hall]; simpl.
  - constructor.
  - destruct (f x); [|exact IH]. constructor; [exact IH|].
    apply Forall_forall. intros y Hy. apply filter_In in Hy.
    rewrite Forall_forall in Hall. apply Hall. tauto.
Qed.

Lemma StronglySorted_of_map {A B : Type} (R : B -> B -> Prop) (f : A -> B)
      (l : list A) :
  StronglySorted R (map f l) -> StronglySorted (fun x y => R (f x) (f y)) l.
Proof.
  induction l as [|x l IH]; simpl; intros H.
  - constructor.
  - inversion H as [|? ? Hs Hall]; subst. constructor; [now apply IH|].
    rewrite Forall_map in Hall. exact Hall.
Qed.

Lemma StronglySorted_split {A : Type} (R : A -> A -> Prop)
      (l1 l2 : list A) (x : A) :
  StronglySorted R (l1 ++ x :: l2) -> Forall (R x) l2.
Proof.
  induction l1 as [|y l1 IH]; simpl; intros H;
    inversion H as [|? ? Hs Hall]; subst.
  - exact Hall.
  - now apply IH.
Qed.

(** The rows of the ABC table come by ascending period and, inside a
    period, by descending value. *)
Lemma abc_table_sorted a b (df : list InventoryRecord) :
  StronglySorted
    (fun x y => ABC.period_value_leb (ABC.agg x) (ABC.agg y) = true)
    (ABC.abc_table a b df).
Proof.
  apply (StronglySorted_of_map
           (fun r1 r2 => ABC.period_value_leb r1 r2 = true) ABC.agg).
  rewrite abc_table_agg. unfold ABC.sort_values.
  apply sort_by_sorted.
  - auto.
  - apply period_value_leb_total.
  - apply period_value_leb_trans.
Qed.

Lemma abc_table_period_sorted a b (df : list InventoryRecord) p :
  StronglySorted
    (fun x y => ABC.agg_Value (ABC.agg y) <= ABC.agg_Value (ABC.agg x))
    (filter (fun x => String.eqb (ABC.agg_Period (ABC.agg x)) p)
            (ABC.abc_table a b df)).
Proof.
  pose proof (StronglySorted_filter _
                (fun x => String.eqb (ABC.agg_Period (ABC.agg x)) p) _
                (abc_table_sorted a b df)) as Hs.
  set (l := filter (fun x => String.eqb (ABC.agg_Period (ABC.agg x)) p)
                   (ABC.abc_table a b df)) in *.
  assert (Hp : Forall (fun x => ABC.agg_Period (ABC.agg x) = p) l).
  { apply Forall_forall. intros x Hx. apply filter_In in Hx.
    now apply String.eqb_eq. }
  clearbody l. induction Hs as [|x l Hs IH Hall].
  - constructor.
  - inversion Hp as [|? ? Hx Hl]; subst. constructor; [now apply IH|].
    rewrite Forall_forall in *. intros y Hy.
    specialize (Hall y Hy). specialize (Hl y Hy).
    unfold ABC.period_value_leb in Hall. rewrite Hl, compare_refl in Hall.
    now apply Qle_bool_iff.
Qed.

(** The cumulative value of a row is the sum of the values of the rows
    of its period up to and including it. *)
Lemma annotate_prefix a b total p t :
  forall running l1 x l2,
    filter (fun x => String.eqb (ABC.agg_Period (ABC.agg x)) p)
           (ABC.annotate a b total running t) = (l1 ++ x :: l2)%list ->
    ABC.Cumulative_Value x
    == running p
       + Qsum (map (fun y => ABC.agg_Value (ABC.agg y)) l1)
       + ABC.agg_Value (ABC.agg x).
Proof.
  induction t as [|r rest IH]; intros running l1 x l2; simpl.
  - intros H. destruct l1; discriminate.
  - destruct (String.eqb (ABC.agg_Period r) p) eqn:E.
    + apply String.eqb_eq in E. intros H.
      destruct l1 as [|y l1]; simpl in H; inversion H as [[Hx Hrest]].
      * simpl. subst p. ring.
      * apply IH in Hrest. rewrite Hrest. unfold ABC.bump. subst p.
        rewrite String.eqb_refl. simpl. ring.
    + intros H. apply IH in H. rewrite H. unfold ABC.bump.
      rewrite String.eqb_sym, E. reflexivity.
Qed.

Lemma in_two_split {A : Type} (l : list A) (x y : A) :
  In x l -> In y l ->
  x = y
  \/ (exists l1 l2 l3, l = l1 ++ x :: l2 ++ y :: l3)%list
  \/ (exists l1 l2 l3, l = l1 ++ y :: l2 ++ x :: l3)%list.
Proof.
  induction l as [|z l IH]; simpl; intros Hx Hy.
  - contradiction.
  - destruct Hx as [->|Hx], Hy as [->|Hy].
    + now left.
    + right. left. apply in_split in Hy. destruct Hy as [l2 [l3 ->]].
      exists [], l2, l3. reflexivity.
    + right. right. apply in_split in Hx. destruct Hx as [l2 [l3 ->]].
      exists [], l2, l3. reflexivity.
    + destruct (IH Hx Hy) as [->|[[l1 [l2 [l3 ->]]]|[l1 [l2 [l3 ->]]]]].
      * now left.
      * right. left. exists (z :: l1), l2, l3. reflexivity.
      * right. right. exists (z :: l1), l2, l3. reflexivity.
Qed.

Lemma Qsum_app (l l' : list Q) : Qsum (l ++ l') == Qsum l + Qsum l'.
Proof.
  induction l as [|x l IH]; simpl.
  - ring.
  - rewrite IH. ring.
Qed.

Lemma Qsum_nonpos (l : list Q) : Forall (fun v => v <= 0) l -> Qsum l <= 0.
Proof.
  induction 1 as [|x l Hx _ IH].
  - apply Qle_refl.
  - change (x + Qsum l <= 0). cbv beta in Hx. lra.
Qed.

Lemma abc_table_nonneg a b (df : list InventoryRecord) :
  Forall (fun r => 0 <= Value r) df ->
  Forall (fun x => 0 <= ABC.agg_Value (ABC.agg x)) (ABC.abc_table a b df).
Proof.
  intros Hdf.
  apply (proj1 (Forall_map ABC.agg (fun r => 0 <= ABC.agg_Value r) _)).
  rewrite abc_table_agg. unfold ABC.sort_values. apply Forall_forall. intros r Hr.
  apply sort_by_In in Hr. revert r Hr. apply Forall_forall.
  now apply aggregate_nonneg.
Qed.

(** The total column of a period is the sum of the values of its rows. *)
Lemma abc_table_total_split a b (df : list InventoryRecord) x l1 l2 :
  filter (fun y => String.eqb (ABC.agg_Period (ABC.agg y))
                              (ABC.agg_Period (ABC.agg x)))
         (ABC.abc_table a b df) = (l1 ++ x :: l2)%list ->
  ABC.Total_Period_Value x
  == Qsum (map (fun y => ABC.agg_Value (ABC.agg y)) l1)
     + ABC.agg_Value (ABC.agg x)
     + Qsum (map (fun y => ABC.agg_Value (ABC.agg y)) l2)
  /\ ABC.Cumulative_Value x
     == Qsum (map (fun y => ABC.agg_Value (ABC.agg y)) l1)
        + ABC.agg_Value (ABC.agg x).
Proof.
  intros Hsplit.
  assert (Hin : In x (ABC.abc_table a b df)).
  { assert (H : In x (l1 ++ x :: l2)) by (apply in_elt).
    rewrite <- Hsplit in H. apply filter_In in H. tauto. }
  split.
  - unfold ABC.abc_table in Hin. cbv zeta in Hin.
    pose proof (annotate_rowwise a b
                  (ABC.period_total (ABC.sort_values (ABC.aggregate df)))
                  (fun _ => 0) (ABC.sort_values (ABC.aggregate df))) as Hrow.
    rewrite Forall_forall in Hrow. destruct (Hrow x Hin) as [-> _].
    unfold ABC.period_total. rewrite <- (abc_table_agg a b df).
    rewrite filter_map_comm, map_map, Hsplit, map_app, Qsum_app.
    simpl. ring.
  - unfold ABC.abc_table in Hsplit. cbv zeta in Hsplit.
    rewrite (annotate_prefix _ _ _ _ _ _ _ _ _ Hsplit). ring.
Qed.

(** A row after which the period holds no more value has share 1. *)
Lemma abc_share_one_is_C a b (df : list InventoryRecord) x l1 l2 :
  a < 1 -> b < 1 ->
  filter (fun y => String.eqb (ABC.agg_Period (ABC.agg y))
                              (ABC.agg_Period (ABC.agg x)))
         (ABC.abc_table a b df) = (l1 ++ x :: l2)%list ->
  Qsum (map (fun y => ABC.agg_Value (ABC.agg y)) l2) == 0 ->
  ABC.Cumulative_Percent x == 1 /\ ABC.ABC_Group x = "C".
Proof.
  intros Ha Hb Hsplit Hrest.
  destruct (abc_table_total_split a b df x l1 l2 Hsplit) as [Htot Hcum].
  assert (Hin : In x (ABC.abc_table a b df)).
  { assert (H : In x (l1 ++ x :: l2)) by (apply in_elt).
    rewrite <- Hsplit in H. apply filter_In in H. tauto. }
  destruct (abc_table_rowwise a b df x Hin) as [Hpct Hgrp].
  assert (Hone : ABC.Cumulative_Percent x == 1).
  { rewrite Hpct. apply cumulative_percent_full. rewrite Hcum, Htot, Hrest.
    ring. }
  split; [exact Hone|].
  rewrite Hgrp. unfold ABC.classify_abc.
  destruct (Qeq_bool (ABC.Total_Period_Value x) 0); [reflexivity|].
  destruct (Qle_bool (ABC.Cumulative_Percent x) a) eqn:Ea.
  { apply Qle_bool_iff in Ea. lra. }
  destruct (Qle_bool (ABC.Cumulative_Percent x) b) eqn:Eb.
  { apply Qle_bool_iff in Eb. lra. }
  reflexivity.
Qed.

Lemma abc_cumulative_order a b (df : list InventoryRecord) x y :
  Forall (fun r => 0 <= Value r) df ->
  In x (ABC.abc_table a b df) -> In y (ABC.abc_table a b df) ->
  ABC.agg_Period (ABC.agg x) = ABC.agg_Period (ABC.agg y) ->
  ABC.agg_Value (ABC.agg y) < ABC.agg_Value (ABC.agg x) ->
  ABC.Cumulative_Value x <= ABC.Cumulative_Value y.
Proof.
  intros Hnn Hx Hy Hp Hlt.
  set (p := ABC.agg_Period (ABC.agg x)) in *.
  set (l := filter (fun z => String.eqb (ABC.agg_Period (ABC.agg z)) p)
                   (ABC.abc_table a b df)).
  assert (Hxl : In x l) by (apply filter_In; split; [exact Hx | apply String.eqb_refl]).
  assert (Hyl : In y l).
  { apply filter_In. split; [exact Hy|]. rewrite <- Hp. apply String.eqb_refl. }
  assert (Hpos : Forall (fun z => 0 <= ABC.agg_Value (ABC.agg z)) l).
  { apply Forall_forall. intros z Hz. apply filter_In in Hz.
    pose proof (abc_table_nonneg a b df Hnn) as H.
    rewrite Forall_forall in H. apply H. tauto. }
  pose proof (abc_table_period_sorted a b df p) as Hs. fold l in Hs.
  destruct (in_two_split l x y Hxl Hyl)
    as [->|[[l1 [l2 [l3 Hl]]]|[l1 [l2 [l3 Hl]]]]].
  - lra.
  - unfold l, ABC.abc_table in Hl. cbv zeta in Hl.
    pose proof (annotate_prefix _ _ _ _ _ _ _ _ _ Hl) as Hcx.
    rewrite app_comm_cons, app_assoc in Hl.
    pose proof (annotate_prefix _ _ _ _ _ _ _ _ _ Hl) as Hcy.
    rewrite Hcx, Hcy, map_app, Qsum_app. simpl.
    assert (Hl2 : 0 <= Qsum (map (fun z => ABC.agg_Value (ABC.agg z)) l2)).
    { apply Qsum_nonneg. rewrite Forall_map.
      apply Forall_forall. intros z Hz. rewrite Forall_forall in Hpos.
      apply Hpos. unfold l, ABC.abc_table. cbv zeta. rewrite Hl.
      apply in_or_app. left. apply in_or_app. right. now right. }
    assert (Hvy : 0 <= ABC.agg_Value (ABC.agg y)).
    { rewrite Forall_forall in Hpos. now apply Hpos. }
    lra.
  - rewrite Hl in Hs. apply StronglySorted_split in Hs.
    rewrite Forall_forall in Hs.
    assert (Hle : ABC.agg_Value (ABC.agg x) <= ABC.agg_Value (ABC.agg y)).
    { apply Hs. apply in_or_app. right. now left. }
    lra.
Qed.

Lemma abc_table_key_observed a b (df : list InventoryRecord) x :
  In x (ABC.abc_table a b df) ->
  exists r, In r df /\ Period r = ABC.agg_Period (ABC.agg x)
            /\ SKU r = ABC.agg_SKU (ABC.agg x).
Proof.
  intros Hx.
  assert (Hk : In (ABC.agg_Period (ABC.agg x), ABC.agg_SKU (ABC.agg x))
                  (map (fun x => (ABC.agg_Period (ABC.agg x),
                                  ABC.agg_SKU (ABC.agg x)))
                       (ABC.abc_table a b df))).
  { apply in_map_iff. exists x. auto. }
  apply (Permutation_in _ (abc_table_keys a b df)) in Hk.
  apply (group_rows_keys key2_eqb key2_eqb_spec) in Hk.
  destruct Hk as [r [Hr Hk]]. inversion Hk. exists r. auto.
Qed.

(** The rows of the table that belong to period [p] are one row per SKU
    seen in that period. *)
Lemma abc_table_period_skus a b (df : list InventoryRecord) (p s : string) :
  In s (map (fun x => ABC.agg_SKU (ABC.agg x))
            (filter (fun x => String.eqb (ABC.agg_Period (ABC.agg x)) p)
                    (ABC.abc_table a b df)))
  <-> exists r, In r df /\ Period r = p /\ SKU r = s.
Proof.
  split.
  - intros Hin. apply in_map_iff in Hin. destruct Hin as [x [Hs Hx]].
    apply filter_In in Hx. destruct Hx as [Hx Hp]. apply String.eqb_eq in Hp.
    destruct (abc_table_key_observed a b df x Hx) as [r [Hr [Hrp Hrs]]].
    exists r. repeat split; congruence.
  - intros [r [Hr [Hp Hs]]].
    assert (Hk : In (p, s)
                    (map (fun x => (ABC.agg_Period (ABC.agg x),
                                    ABC.agg_SKU (ABC.agg x)))
                         (ABC.abc_table a b df))).
    { apply (Permutation_in _ (Permutation_sym (abc_table_keys a b df))).
      apply (group_rows_keys key2_eqb key2_eqb_spec). exists r.
      split; [exact Hr | congruence]. }
    apply in_map_iff in Hk. destruct Hk as [x [Hk Hx]]. inversion Hk.
    apply in_map_iff. exists x. split; [reflexivity|].
    apply filter_In. split; [exact Hx|]. apply String.eqb_refl.
Qed.

(** C9. With non-negative input values, the rows of a period in the ABC
    table are one row per SKU seen in that period (so a period of the
    input has at least one share), they come by descending value, and the
    cumulative share of a row is the sum of the values down to that row
    over the period total.  Read in that order the shares never decrease
    and the last one is 1; when the period total is 0 every share is 1. *)
Theorem cumulative_share_nondecreasing_ends_at_one :
  forall (df : list RawRecord) (a_threshold b_threshold : Q) (p : string),
    Forall (fun r => 0 <= Value r) (fill_values df) ->
    let rows :=
        filter (fun x => String.eqb (ABC.agg_Period (ABC.agg x)) p)
               (ABC.abc_table a_threshold b_threshold (fill_values df)) in
    let value := fun x => ABC.agg_Value (ABC.agg x) in
    let shares := map ABC.Cumulative_Percent rows in
    (forall s, In s (map (fun x => ABC.agg_SKU (ABC.agg x)) rows)
               <-> exists r, In r (fill_values df) /\ Period r = p /\ SKU r = s)
    /\ ((exists r, In r (fill_values df) /\ Period r = p) -> shares <> [])
    /\ StronglySorted (fun x y => value y <= value x) rows
    /\ (forall l1 x l2,
           rows = (l1 ++ x :: l2)%list ->
           ~ period_value_sum p (fill_values df) == 0 ->
           ABC.Cumulative_Percent x
           == (Qsum (map value l1) + value x)
              / period_value_sum p (fill_values df))
    /\ StronglySorted Qle shares
    /\ (forall d, shares <> [] -> last shares d == 1)
    /\ (period_value_sum p (fill_values df) == 0 ->
        Forall (fun c => c = 1) shares).
Proof.
  intros df a b p Hnn rows value shares.
  split; [|split; [|split; [|split]]].
  - intros s. apply abc_table_period_skus.
  - intros [r [Hr Hp]] Hnil.
    assert (Hs : In (SKU r) (map (fun x => ABC.agg_SKU (ABC.agg x)) rows)).
    { apply abc_table_period_skus. exists r. auto. }
    apply in_map_iff in Hs. destruct Hs as [x [_ Hx]].
    apply (in_map ABC.Cumulative_Percent) in Hx. fold shares in Hx.
    rewrite Hnil in Hx. contradiction.
  - apply abc_table_period_sorted.
  - intros l1 x l2 Hsplit Htot.
    assert (Hxr : In x rows) by (rewrite Hsplit; apply in_elt).
    apply filter_In in Hxr. destruct Hxr as [Hx Hp].
    apply String.eqb_eq in Hp.
    assert (Hsplit' : filter (fun y => String.eqb (ABC.agg_Period (ABC.agg y))
                                                  (ABC.agg_Period (ABC.agg x)))
                             (ABC.abc_table a b (fill_values df))
                      = (l1 ++ x :: l2)%list).
    { rewrite Hp. exact Hsplit. }
    destruct (abc_table_total_split a b _ x l1 l2 Hsplit') as [_ Hcum].
    pose proof (abc_table_total a b _ x Hx) as Htotal. rewrite Hp in Htotal.
    destruct (abc_table_rowwise a b _ x Hx) as [Hpct _].
    rewrite Hpct. unfold ABC.cumulative_percent.
    destruct (Qeq_bool (ABC.Total_Period_Value x) 0) eqn:E.
    + apply Qeq_bool_iff in E. rewrite Htotal in E. contradiction.
    + unfold value. rewrite Hcum, Htotal. reflexivity.
  - subst shares rows. rewrite abc_table_period_percents. cbv zeta.
    set (t := ABC.sort_values (ABC.aggregate (fill_values df))).
    set (tot := ABC.period_total t p).
    assert (Htot : tot == period_value_sum p (fill_values df))
      by apply sorted_total_is_input_total.
    assert (Hpos : 0 <= tot).
    { rewrite Htot. now apply period_value_sum_nonneg. }
    assert (Ht : Forall (fun r => 0 <= ABC.agg_Value r) t).
    { unfold t, ABC.sort_values. apply Forall_forall. intros r Hr.
      apply sort_by_In in Hr. revert r Hr. apply Forall_forall.
      now apply aggregate_nonneg. }
    destruct (annotate_cumulative a b (ABC.period_total t) p t Ht (fun _ => 0))
      as [Hs [_ Hlast]].
    unfold ABC.abc_table. cbv zeta. fold t.
    set (cs := map ABC.Cumulative_Value
                   (filter (fun x => String.eqb (ABC.agg_Period (ABC.agg x)) p)
                           (ABC.annotate a b (ABC.period_total t) (fun _ => 0) t)))
      in *.
    repeat split.
    + apply StronglySorted_map_Qle; [|exact Hs].
      now apply cumulative_percent_mono.
    + intros d Hne. destruct cs as [|c cs']; [now elim Hne|].
      change (last ((fun c0 => ABC.cumulative_percent c0 tot) c
                    :: map (fun c0 => ABC.cumulative_percent c0 tot) cs') d == 1).
      rewrite last_cons.
      rewrite (last_map (fun c0 => ABC.cumulative_percent c0 tot) cs' c).
      apply cumulative_percent_full.
      rewrite last_cons in Hlast. rewrite Hlast. unfold tot, ABC.period_total.
      ring.
    + intros Hzero. rewrite Forall_map. apply Forall_forall. intros c _.
      apply cumulative_percent_zero_total. rewrite Htot. exact Hzero.
Qed.

(** Period 2024-01 of a two-period input: the rows come as S2 (9), S1 (1),
    S3 (0) and their shares are 9/10, 10/10, 10/10. *)
Lemma cumulative_share_nondecreasing_ends_at_one_witness :
  let df := [ mkRaw "S1" "2024-01" (Some 1); mkRaw "S2" "2024-01" (Some 9);
              mkRaw "S3" "2024-01" None; mkRaw "S1" "2024-02" (Some 5) ] in
  let rows :=
      filter (fun x => String.eqb (ABC.agg_Period (ABC.agg x)) "2024-01")
             (ABC.abc_table ABC.default_a ABC.default_b (fill_values df)) in
  let shares := map ABC.Cumulative_Percent rows in
  (map (fun x => (ABC.agg_SKU (ABC.agg x), ABC.agg_Value (ABC.agg x))) rows
   = [ ("S2", 9); ("S1", 1); ("S3", 0) ]
   /\ shares = [ 9 # 10; 10 # 10; 10 # 10 ])
  /\ shares <> []
  /\ StronglySorted (fun x y => ABC.agg_Value (ABC.agg y)
                                <= ABC.agg_Value (ABC.agg x)) rows
  /\ StronglySorted Qle shares
  /\ last shares 0 == 1.
Proof.
  intros df rows shares.
  split; [split; vm_compute; reflexivity|].
  destruct (cumulative_share_nondecreasing_ends_at_one
              df ABC.default_a ABC.default_b "2024-01")
    as (_ & Hne & Hdesc & _ & Hs & Hlast & _).
  { repeat constructor; vm_compute; discriminate. }
  assert (Hshares : shares <> []).
  { apply Hne. exists (mkRecord "S1" "2024-01" 1). split; [|reflexivity].
    left. reflexivity. }
  split; [exact Hshares|]. split; [exact Hdesc|]. split; [exact Hs|].
  apply Hlast. exact Hshares.
Defined.

(* ================================================================== *)
(** * The label check on a sheet with blank key cells *)
(* ================================================================== *)

Lemma filter_none {A : Type} (l : list A) : filter (fun _ => false) l = [].
Proof. induction l as [|x l IH]; [reflexivity | exact IH]. Qed.

Lemma count_filter_map {A B : Type} (f : A -> bool) (g : B -> bool)
      (h : A -> B) (l : list A) :
  Forall (fun x => f x = g (h x)) l ->
  List.length (filter f l) = List.length (filter g (map h l)).
Proof.
  induction 1 as [|x l Hx _ IH]; [reflexivity|].
  simpl. rewrite Hx. destruct (g (h x)); simpl; now rewrite IH.
Qed.

Lemma groupby_dropna_In (df : list NullKeys.FilledRecord) r s p :
  In r df ->
  NullKeys.filled_SKU r = Some s -> NullKeys.filled_Period r = Some p ->
  In (mkRecord s p (NullKeys.filled_Value r)) (NullKeys.groupby_dropna df).
Proof.
  intros Hr Hs Hp. unfold NullKeys.groupby_dropna. apply in_flat_map.
  exists r. split; [exact Hr|]. rewrite Hp, Hs. now left.
Qed.

(** A row with a null key meets no row of [agg_df]; a row with both keys
    meets exactly one. *)
Lemma null_key_matches a b (df : list NullKeys.FilledRecord) r :
  In r df ->
  let t := ABC.abc_table a b (NullKeys.groupby_dropna df) in
  if NullKeys.has_null_key r
  then filter (NullKeys.same_key r) t = []
  else exists x, filter (NullKeys.same_key r) t = [x].
Proof.
  intros Hr t. unfold NullKeys.has_null_key.
  destruct (NullKeys.filled_Period r) as [p|] eqn:Ep;
    destruct (NullKeys.filled_SKU r) as [s|] eqn:Es; simpl.
  - destruct (abc_table_single_match
                a b (NullKeys.groupby_dropna df)
                (mkRecord s p (NullKeys.filled_Value r))) as [x Hx].
    { now apply groupby_dropna_In. }
    exists x. rewrite <- Hx. apply filter_ext. intros y.
    unfold NullKeys.same_key, ABC.same_key. rewrite Ep, Es. reflexivity.
  - unfold NullKeys.same_key. rewrite Ep, Es. apply filter_none.
  - unfold NullKeys.same_key. rewrite Ep. apply filter_none.
  - unfold NullKeys.same_key. rewrite Ep. apply filter_none.
Qed.

(** The joined frame: the rows of the sheet in order, a row without label
    exactly where a key is null. *)
Lemma null_key_join a b (df left : list NullKeys.FilledRecord) :
  incl left df ->
  let t := ABC.abc_table a b (NullKeys.groupby_dropna df) in
  let joined := NullKeys.join_labels left t in
  map fst joined = left
  /\ Forall (fun x =>
               isna (snd x) = NullKeys.has_null_key (fst x)
               /\ (NullKeys.has_null_key (fst x) = false ->
                   exists row, In row t
                               /\ NullKeys.same_key (fst x) row = true
                               /\ snd x = Some (ABC.ABC_Group row)))
            joined.
Proof.
  intros Hincl t. cbv zeta. induction left as [|r left IH].
  - split; constructor.
  - destruct IH as [IH1 IH2]. { intros x Hx. apply Hincl. now right. }
    pose proof (null_key_matches a b df r (Hincl r (or_introl eq_refl))) as Hm.
    cbv zeta in Hm. fold t in Hm.
    unfold NullKeys.join_labels in *. rewrite merge_left_cons, map_app.
    destruct (NullKeys.has_null_key r) eqn:Hk.
    + rewrite Hm. simpl. split; [f_equal; exact IH1|].
      constructor; [|exact IH2]. simpl. split; [now rewrite Hk|].
      intros Hf. rewrite Hk in Hf. discriminate.
    + destruct Hm as [x Hx]. rewrite Hx. simpl. split; [f_equal; exact IH1|].
      constructor; [|exact IH2]. simpl. split; [now rewrite Hk|].
      intros _. exists x.
      assert (Hin : In x (filter (NullKeys.same_key r) t))
        by (rewrite Hx; now left).
      apply filter_In in Hin. tauto.
Qed.

(** C7. What [assign_abc_groups] returns is fully labelled: every output
    record carries the label of the row of [agg_df] that has its
    (Period, SKU) pair.  The records that the join leaves without label
    are those with a blank SKU or Period; as soon as there is one, the
    classifier raises the RuntimeError that carries their number, and
    returns no table; when there is none, it returns. *)
Theorem every_record_labelled_or_fatal :
  forall (df : list NullKeys.SheetRecord) (a_threshold b_threshold : Q),
    let df' := NullKeys.fill_sheet df in
    let agg_df :=
        ABC.abc_table a_threshold b_threshold (NullKeys.groupby_dropna df') in
    let missing := List.length (filter NullKeys.has_null_key df') in
    (forall out,
        NullKeys.assign_abc_groups df a_threshold b_threshold = Ok out ->
        map fst out = df'
        /\ Forall (fun x => exists row,
                       In row agg_df
                       /\ NullKeys.same_key (fst x) row = true
                       /\ snd x = Some (ABC.ABC_Group row))
                  out)
    /\ List.length (filter (fun x => isna (snd x))
                           (NullKeys.join_labels df' agg_df)) = missing
    /\ (missing = 0%nat ->
        exists out,
          NullKeys.assign_abc_groups df a_threshold b_threshold = Ok out)
    /\ (missing <> 0%nat ->
        NullKeys.assign_abc_groups df a_threshold b_threshold
        = Raise (RuntimeError missing)).
Proof.
  intros df a b df' agg_df missing.
  destruct (null_key_join a b df' df' (incl_refl _)) as [Hfst Hall].
  fold agg_df in Hfst, Hall.
  set (joined := NullKeys.join_labels df' agg_df) in *.
  assert (Hcount : List.length (filter (fun x => isna (snd x)) joined)
                   = missing).
  { unfold missing. rewrite <- Hfst. apply count_filter_map.
    revert Hall. apply Forall_impl. intros x [H _]. exact H. }
  assert (Hrun : NullKeys.assign_abc_groups df a b = ABC.check_assigned joined)
    by reflexivity.
  destruct (check_assigned_spec joined) as [Hok Hraise].
  rewrite Hcount in Hok, Hraise.
  split; [|split; [exact Hcount | split]].
  - intros out Hout. rewrite Hrun in Hout.
    destruct (Nat.eq_dec missing 0) as [H0|Hn].
    + rewrite (Hok H0) in Hout. inversion Hout. subst out.
      split; [exact Hfst|].
      apply Forall_forall. intros x Hx. rewrite Forall_forall in Hall.
      destruct (Hall x Hx) as [Hna Hrow]. apply Hrow.
      destruct (NullKeys.has_null_key (fst x)) eqn:E; [|reflexivity].
      exfalso.
      assert (Hin : In x (filter (fun x => isna (snd x)) joined))
        by (apply filter_In; split; [exact Hx | rewrite Hna; reflexivity]).
      rewrite <- Hcount in H0. apply length_zero_iff_nil in H0.
      rewrite H0 in Hin. contradiction.
    + rewrite (Hraise Hn) in Hout. discriminate.
  - intros H0. exists joined. rewrite Hrun. now apply Hok.
  - intros Hn. rewrite Hrun. now apply Hraise.
Qed.

(** A sheet with a blank SKU and a blank Period among its rows: two
    records have no label, the classifier raises RuntimeError 2. *)
Lemma every_record_labelled_or_fatal_witness :
  NullKeys.assign_abc_groups
    [ NullKeys.mkSheet (Some "S1") (Some "2024-01") (Some 9);
      NullKeys.mkSheet None (Some "2024-01") (Some 1);
      NullKeys.mkSheet (Some "S2") None None;
      NullKeys.mkSheet (Some "S2") (Some "2024-01") (Some 1) ]
    ABC.default_a ABC.default_b
  = Raise (RuntimeError 2).
Proof.
  destruct (every_record_labelled_or_fatal
              [ NullKeys.mkSheet (Some "S1") (Some "2024-01") (Some 9);
                NullKeys.mkSheet None (Some "2024-01") (Some 1);
                NullKeys.mkSheet (Some "S2") None None;
                NullKeys.mkSheet (Some "S2") (Some "2024-01") (Some 1) ]
              ABC.default_a ABC.default_b) as (_ & _ & _ & Hraise).
  apply Hraise. vm_compute. discriminate.
Defined.

(** The same sheet without the two blank rows is returned labelled. *)
Example abc_sheet_without_blank_keys :
  NullKeys.assign_abc_groups
    [ NullKeys.mkSheet (Some "S1") (Some "2024-01") (Some 9);
      NullKeys.mkSheet (Some "S2") (Some "2024-01") (Some 1) ]
    ABC.default_a ABC.default_b
  = Ok [ (NullKeys.mkFilled (Some "S1") (Some "2024-01") 9, Some "B");
         (NullKeys.mkFilled (Some "S2") (Some "2024-01") 1, Some "C") ].
Proof. reflexivity. Qed.

Lemma merge_left_map_left {A A' B : Type} (matches : A' -> B -> bool)
      (f : A -> A') (left : list A) (right : list B) :
  merge_left matches (map f left) right
  = map (fun x => (f (fst x), snd x))
        (merge_left (fun a => matches (f a)) left right).
Proof.
  induction left as [|a left IH]; [reflexivity|].
  simpl map. rewrite !merge_left_cons, map_app, IH. f_equal.
  destruct (filter (matches (f a)) right) as [|b l]; [reflexivity|].
  simpl. rewrite map_map. reflexivity.
Qed.

Lemma check_assigned_map {A A' : Type} (f : A -> A')
      (res : list (A * option string)) :
  ABC.check_assigned (map (fun x => (f (fst x), snd x)) res)
  = match ABC.check_assigned res with
    | Ok out => Ok (map (fun x => (f (fst x), snd x)) out)
    | Raise e => Raise e
    end.
Proof.
  unfold ABC.check_assigned.
  assert (He : existsb (fun x => isna (snd x))
                       (map (fun x => (f (fst x), snd x)) res)
               = existsb (fun x => isna (snd x)) res).
  { induction res as [|x res IH]; [reflexivity|]. simpl. now rewrite IH. }
  rewrite He. destruct (existsb (fun x => isna (snd x)) res); [|reflexivity].
  f_equal. f_equal. symmetry.
  apply (count_filter_map (fun x => isna (snd x)) (fun x => isna (snd x))
                          (fun x => (f (fst x), snd x))).
  apply Forall_forall. reflexivity.
Qed.

Lemma groupby_dropna_of_record (df : list InventoryRecord) :
  NullKeys.groupby_dropna (map NullKeys.of_record df) = df.
Proof.
  induction df as [|[s p v] df IH]; [reflexivity|].
  simpl. f_equal. exact IH.
Qed.

(** On a sheet without blank keys the classifier is the classifier of the
    data model: same labels, same rows, and it returns. *)
Lemma null_keys_agree (df : list RawRecord) (a b : Q) :
  NullKeys.assign_abc_groups (map NullKeys.of_raw df) a b
  = match ABC.assign_abc_groups df a b with
    | Ok out => Ok (map (fun o => (NullKeys.of_record (fst o), snd o)) out)
    | Raise e => Raise e
    end.
Proof.
  unfold NullKeys.assign_abc_groups, ABC.assign_abc_groups. cbv zeta.
  assert (Hfill : NullKeys.fill_sheet (map NullKeys.of_raw df)
                  = map NullKeys.of_record (fill_values df)).
  { unfold NullKeys.fill_sheet, fill_values. rewrite !map_map. reflexivity. }
  rewrite Hfill, groupby_dropna_of_record.
  rewrite <- check_assigned_map. f_equal.
  unfold NullKeys.join_labels, ABC.join_labels.
  rewrite merge_left_map_left, !map_map. reflexivity.
Qed.

(* ================================================================== *)
(** * More on the ABC classifier *)
(* ================================================================== *)

Lemma NoDup_map_eq {A B : Type} (f : A -> B) (l : list A) (x y : A) :
  NoDup (map f l) -> In x l -> In y l -> f x = f y -> x = y.
Proof.
  induction l as [|z l IH]; simpl; intros Hnd Hx Hy Hf.
  - contradiction.
  - inversion Hnd as [|? ? Hnotin Hrest]; subst.
    destruct Hx as [->|Hx], Hy as [->|Hy].
    + reflexivity.
    + exfalso. apply Hnotin. rewrite Hf. now apply in_map.
    + exfalso. apply Hnotin. rewrite <- Hf. now apply in_map.
    + now apply IH.
Qed.

Lemma aggregate_keys (df : list InventoryRecord) :
  Permutation (map (fun r => (ABC.agg_Period r, ABC.agg_SKU r))
                   (ABC.aggregate df))
              (map fst (group_rows key2_eqb (fun r => (Period r, SKU r)) df)).
Proof.
  unfold ABC.aggregate. rewrite map_map. simpl.
  eapply perm_trans; [|apply Permutation_map, sort_by_perm].
  apply Permutation_refl', map_ext. intros [[k1 k2] g]. reflexivity.
Qed.

Lemma aggregate_value (df : list InventoryRecord) r :
  In r (ABC.aggregate df) ->
  ABC.agg_Value r
  = Qsum (map Value
              (filter (fun a => (String.eqb (ABC.agg_Period r) (Period a)
                                 && String.eqb (ABC.agg_SKU r) (SKU a))%bool)
                      df)).
Proof.
  unfold ABC.aggregate. intros Hin. apply in_map_iff in Hin.
  destruct Hin as [[[p s] g] [<- Hin]]. simpl.
  apply sort_by_In in Hin.
  apply (group_rows_spec key2_eqb key2_eqb_spec) in Hin. subst g.
  reflexivity.
Qed.

(** X1. The group-by-sum step of the ABC classifier collapses the input
    to one row per (Period, SKU) pair seen in the input, and the value of
    that row is the sum of the values of the input rows of the pair. *)
Theorem abc_aggregate_one_row_per_pair :
  forall df : list RawRecord,
    let rows := ABC.aggregate (fill_values df) in
    NoDup (map (fun r => (ABC.agg_Period r, ABC.agg_SKU r)) rows)
    /\ (forall p s,
           In (p, s) (map (fun r => (ABC.agg_Period r, ABC.agg_SKU r)) rows)
           <-> exists a, In a (fill_values df) /\ Period a = p /\ SKU a = s)
    /\ (forall r,
           In r rows ->
           ABC.agg_Value r
           = Qsum (map Value
                       (filter (fun a =>
                                  (String.eqb (ABC.agg_Period r) (Period a)
                                   && String.eqb (ABC.agg_SKU r) (SKU a))%bool)
                               (fill_values df)))).
Proof.
  intros df rows. subst rows. split; [|split].
  - eapply Permutation_NoDup;
      [apply Permutation_sym, aggregate_keys
      | apply (group_rows_NoDup key2_eqb key2_eqb_spec)].
  - intros p s. split.
    + intros Hin. apply (Permutation_in _ (aggregate_keys _)) in Hin.
      apply (group_rows_keys key2_eqb key2_eqb_spec) in Hin.
      destruct Hin as [a [Ha Hk]]. inversion Hk. exists a. auto.
    + intros [a [Ha [Hp Hs]]].
      apply (Permutation_in _ (Permutation_sym (aggregate_keys _))).
      apply (group_rows_keys key2_eqb key2_eqb_spec). exists a.
      split; [exact Ha | congruence].
  - intros r. apply aggregate_value.
Qed.

Lemma abc_table_keys_NoDup a b (df : list InventoryRecord) :
  NoDup (map (fun x => (ABC.agg_Period (ABC.agg x), ABC.agg_SKU (ABC.agg x)))
             (ABC.abc_table a b df)).
Proof.
  eapply Permutation_NoDup;
    [apply Permutation_sym, abc_table_keys
    | apply (group_rows_NoDup key2_eqb key2_eqb_spec)].
Qed.

Lemma same_key_unique a b (df : list InventoryRecord) r1 r2 x y :
  In x (ABC.abc_table a b df) -> In y (ABC.abc_table a b df) ->
  ABC.same_key r1 x = true -> ABC.same_key r2 y = true ->
  Period r1 = Period r2 -> SKU r1 = SKU r2 -> x = y.
Proof.
  intros Hx Hy H1 H2 Hp Hs.
  unfold ABC.same_key in H1, H2. apply andb_true_iff in H1, H2.
  destruct H1 as [H1p H1s], H2 as [H2p H2s].
  apply String.eqb_eq in H1p, H1s, H2p, H2s.
  apply (NoDup_map_eq
           (fun x => (ABC.agg_Period (ABC.agg x), ABC.agg_SKU (ABC.agg x)))
           (ABC.abc_table a b df)); try assumption.
  - apply abc_table_keys_NoDup.
  - congruence.
Qed.

Lemma classify_abc_range a b pct tot :
  ABC.classify_abc a b pct tot = "A"
  \/ ABC.classify_abc a b pct tot = "B"
  \/ ABC.classify_abc a b pct tot = "C".
Proof.
  unfold ABC.classify_abc.
  destruct (Qeq_bool tot 0); [auto|].
  destruct (Qle_bool pct a); [auto|].
  destruct (Qle_bool pct b); auto.
Qed.

(** X2. Every returned record carries one of the labels A, B, C, and two
    records with the same SKU and Period (duplicate input rows) carry the
    same label. *)
Theorem abc_labels_per_pair :
  forall (df : list RawRecord) (a_threshold b_threshold : Q) out,
    ABC.assign_abc_groups df a_threshold b_threshold = Ok out ->
    (forall o, In o out ->
               snd o = Some "A" \/ snd o = Some "B" \/ snd o = Some "C")
    /\ (forall o1 o2,
           In o1 out -> In o2 out ->
           SKU (fst o1) = SKU (fst o2) -> Period (fst o1) = Period (fst o2) ->
           snd o1 = snd o2).
Proof.
  intros df a b out Hok.
  destruct (assign_abc_groups_returns df a b) as [out' [Hok' [_ Hall]]].
  rewrite Hok in Hok'. inversion Hok'. subst out'. clear Hok'.
  rewrite Forall_forall in Hall. split.
  - intros o Ho. destruct (Hall o Ho) as [row [Hin [_ ->]]].
    destruct (abc_table_rowwise a b _ row Hin) as [_ ->].
    destruct (classify_abc_range a b (ABC.Cumulative_Percent row)
                                 (ABC.Total_Period_Value row))
      as [->|[->| ->]]; auto.
  - intros o1 o2 H1 H2 Hs Hp.
    destruct (Hall o1 H1) as [x [Hx [Kx ->]]].
    destruct (Hall o2 H2) as [y [Hy [Ky ->]]].
    now rewrite (same_key_unique a b _ _ _ x y Hx Hy Kx Ky Hp Hs).
Qed.

Lemma abc_labels_per_pair_witness :
  let df := [ mkRaw "S1" "2024-01" (Some 9); mkRaw "S1" "2024-01" None;
              mkRaw "S2" "2024-01" (Some 1) ] in
  let out := [ (mkRecord "S1" "2024-01" 9, Some "B");
               (mkRecord "S1" "2024-01" 0, Some "B");
               (mkRecord "S2" "2024-01" 1, Some "C") ] in
  (forall o, In o out ->
             snd o = Some "A" \/ snd o = Some "B" \/ snd o = Some "C")
  /\ (forall o1 o2,
         In o1 out -> In o2 out ->
         SKU (fst o1) = SKU (fst o2) -> Period (fst o1) = Period (fst o2) ->
         snd o1 = snd o2).
Proof.
  intros df out.
  apply (abc_labels_per_pair df ABC.default_a ABC.default_b out).
  reflexivity.
Defined.

Lemma abc_table_value a b (df : list InventoryRecord) x :
  In x (ABC.abc_table a b df) ->
  ABC.agg_Value (ABC.agg x)
  = Qsum (map Value
              (filter (fun r =>
                         (String.eqb (ABC.agg_Period (ABC.agg x)) (Period r)
                          && String.eqb (ABC.agg_SKU (ABC.agg x)) (SKU r))%bool)
                      df)).
Proof.
  intros Hin. apply aggregate_value.
  apply (sort_by_In ABC.period_value_leb).
  change (In (ABC.agg x) (ABC.sort_values (ABC.aggregate df))).
  rewrite <- (abc_table_agg a b df). now apply in_map.
Qed.

Lemma abc_table_total_eq a b (df : list InventoryRecord) x y :
  In x (ABC.abc_table a b df) -> In y (ABC.abc_table a b df) ->
  ABC.agg_Period (ABC.agg x) = ABC.agg_Period (ABC.agg y) ->
  ABC.Total_Period_Value x = ABC.Total_Period_Value y.
Proof.
  intros Hx Hy Hp. unfold ABC.abc_table in Hx, Hy. cbv zeta in Hx, Hy.
  pose proof (annotate_rowwise a b
                (ABC.period_total (ABC.sort_values (ABC.aggregate df)))
                (fun _ => 0) (ABC.sort_values (ABC.aggregate df))) as Hrow.
  rewrite Forall_forall in Hrow.
  destruct (Hrow x Hx) as [-> _]. destruct (Hrow y Hy) as [-> _].
  now rewrite Hp.
Qed.

Lemma classify_abc_mono a b p1 p2 tot :
  p1 <= p2 ->
  (ABC.classify_abc a b p2 tot = "A" -> ABC.classify_abc a b p1 tot = "A")
  /\ (ABC.classify_abc a b p1 tot = "C" -> ABC.classify_abc a b p2 tot = "C").
Proof.
  intros Hle. unfold ABC.classify_abc.
  destruct (Qeq_bool tot 0); [split; auto|].
  destruct (Qle_bool p1 a) eqn:E1a, (Qle_bool p2 a) eqn:E2a,
           (Qle_bool p1 b) eqn:E1b, (Qle_bool p2 b) eqn:E2b;
    split; intros H; try reflexivity; try discriminate; exfalso;
    repeat match goal with
           | H : Qle_bool _ _ = true |- _ => apply Qle_bool_iff in H
           end.
  all: try (assert (Hc : Qle_bool p1 a = true) by (apply Qle_bool_iff; lra);
            rewrite Hc in E1a; discriminate).
  all: try (assert (Hc : Qle_bool p1 b = true) by (apply Qle_bool_iff; lra);
            rewrite Hc in E1b; discriminate).
Qed.

Lemma same_key_fields r x :
  ABC.same_key r x = true ->
  Period r = ABC.agg_Period (ABC.agg x) /\ SKU r = ABC.agg_SKU (ABC.agg x).
Proof.
  unfold ABC.same_key. rewrite andb_true_iff, !String.eqb_eq. tauto.
Qed.

(** The rows of the table behind the returned records. *)
Lemma assign_abc_groups_rows (df : list RawRecord) (a b : Q) out :
  ABC.assign_abc_groups df a b = Ok out ->
  map fst out = fill_values df
  /\ forall o, In o out ->
               exists x, In x (ABC.abc_table a b (fill_values df))
                         /\ Period (fst o) = ABC.agg_Period (ABC.agg x)
                         /\ SKU (fst o) = ABC.agg_SKU (ABC.agg x)
                         /\ snd o = Some (ABC.ABC_Group x).
Proof.
  intros Hok.
  destruct (assign_abc_groups_returns df a b) as [out' [Hok' [Hfst Hall]]].
  rewrite Hok in Hok'. inversion Hok'. subst out'. split; [exact Hfst|].
  rewrite Forall_forall in Hall. intros o Ho.
  destruct (Hall o Ho) as [x [Hx [Hk Hs]]].
  apply same_key_fields in Hk. exists x. tauto.
Qed.

(** X3. With non-negative values, inside one period a (SKU, Period) pair
    of strictly greater total value never gets a worse label than one of
    smaller total value: if the smaller is A so is the greater, if the
    greater is C so is the smaller. *)
Theorem abc_greater_value_no_worse_label :
  forall (df : list RawRecord) (a_threshold b_threshold : Q) out o1 o2,
    let pair_total := fun o : InventoryRecord * option string =>
      Qsum (map Value
                (filter (fun r => (String.eqb (Period (fst o)) (Period r)
                                   && String.eqb (SKU (fst o)) (SKU r))%bool)
                        (fill_values df))) in
    Forall (fun r => 0 <= Value r) (fill_values df) ->
    ABC.assign_abc_groups df a_threshold b_threshold = Ok out ->
    In o1 out -> In o2 out ->
    Period (fst o1) = Period (fst o2) ->
    pair_total o2 < pair_total o1 ->
    (snd o2 = Some "A" -> snd o1 = Some "A")
    /\ (snd o1 = Some "C" -> snd o2 = Some "C").
Proof.
  intros df a b out o1 o2 pair_total Hnn Hok H1 H2 Hp Hlt.
  destruct (assign_abc_groups_rows df a b out Hok) as [_ Hrows].
  destruct (Hrows o1 H1) as [x [Hx [Hpx [Hsx Hlx]]]].
  destruct (Hrows o2 H2) as [y [Hy [Hpy [Hsy Hly]]]].
  assert (Hxy : ABC.agg_Period (ABC.agg x) = ABC.agg_Period (ABC.agg y))
    by congruence.
  assert (Hval : ABC.agg_Value (ABC.agg y) < ABC.agg_Value (ABC.agg x)).
  { rewrite (abc_table_value a b _ x Hx), (abc_table_value a b _ y Hy).
    rewrite <- Hpx, <- Hsx, <- Hpy, <- Hsy. exact Hlt. }
  pose proof (abc_cumulative_order a b _ x y Hnn Hx Hy Hxy Hval) as Hcum.
  destruct (abc_table_rowwise a b _ x Hx) as [Hpctx Hgx].
  destruct (abc_table_rowwise a b _ y Hy) as [Hpcty Hgy].
  pose proof (abc_table_total_eq a b _ x y Hx Hy Hxy) as Htot.
  assert (Hpos : 0 <= ABC.Total_Period_Value x).
  { rewrite (abc_table_total a b _ x Hx). now apply period_value_sum_nonneg. }
  assert (Hpct : ABC.Cumulative_Percent x <= ABC.Cumulative_Percent y).
  { rewrite Hpctx, Hpcty, <- Htot. now apply cumulative_percent_mono. }
  rewrite Hlx, Hly, Hgx, Hgy, <- Htot.
  destruct (classify_abc_mono a b _ _ (ABC.Total_Period_Value x) Hpct)
    as [HA HC].
  split; intros H; inversion H as [H'].
  - now rewrite (HA H').
  - now rewrite (HC H').
Qed.

Lemma abc_greater_value_no_worse_label_witness :
  let o1 := (mkRecord "S1" "2024-01" 9, Some "B") in
  let o2 := (mkRecord "S2" "2024-01" 1, Some "C") in
  (snd o2 = Some "A" -> snd o1 = Some "A")
  /\ (snd o1 = Some "C" -> snd o2 = Some "C").
Proof.
  intros o1 o2.
  apply (abc_greater_value_no_worse_label
           [ mkRaw "S1" "2024-01" (Some 9); mkRaw "S2" "2024-01" (Some 1) ]
           ABC.default_a ABC.default_b [o1; o2] o1 o2).
  - repeat constructor; vm_compute; discriminate.
  - reflexivity.
  - left. reflexivity.
  - right. left. reflexivity.
  - reflexivity.
  - vm_compute. reflexivity.
Defined.




(** A row of value 0 has share 1: what follows it in its period is worth
    nothing. *)
Lemma abc_zero_row_is_C a b (df : list InventoryRecord) x :
  Forall (fun r => 0 <= Value r) df ->
  a < 1 -> b < 1 ->
  In x (ABC.abc_table a b df) ->
  ABC.agg_Value (ABC.agg x) == 0 ->
  ABC.ABC_Group x = "C".
Proof.
  intros Hnn Ha Hb Hx Hval.
  set (p := ABC.agg_Period (ABC.agg x)).
  set (l := filter (fun z => String.eqb (ABC.agg_Period (ABC.agg z)) p)
                   (ABC.abc_table a b df)).
  assert (Hxl : In x l)
    by (apply filter_In; split; [exact Hx | apply String.eqb_refl]).
  destruct (in_split x l Hxl) as [l1 [l2 Hl]].
  pose proof (abc_table_period_sorted a b df p) as Hs.
  fold l in Hs. rewrite Hl in Hs. apply StronglySorted_split in Hs.
  assert (Hpos : Forall (fun z => 0 <= ABC.agg_Value (ABC.agg z)) l2).
  { apply Forall_forall. intros z Hz.
    pose proof (abc_table_nonneg a b _ Hnn) as H.
    rewrite Forall_forall in H. apply H.
    assert (Hzl : In z l)
      by (rewrite Hl; apply in_or_app; right; now right).
    apply filter_In in Hzl. tauto. }
  assert (Hrest : Qsum (map (fun y => ABC.agg_Value (ABC.agg y)) l2) == 0).
  { apply Qle_antisym.
    - apply Qsum_nonpos. rewrite Forall_map. revert Hs. apply Forall_impl.
      intros z Hz. lra.
    - apply Qsum_nonneg. rewrite Forall_map. exact Hpos. }
  now apply (abc_share_one_is_C a b df x l1 l2 Ha Hb Hl Hrest).
Qed.

(** X5. With non-negative values and both thresholds below 1, a
    (SKU, Period) pair whose total value is 0 is labelled C. *)
Theorem abc_zero_value_is_C :
  forall (df : list RawRecord) (a_threshold b_threshold : Q) out o,
    Forall (fun r => 0 <= Value r) (fill_values df) ->
    a_threshold < 1 -> b_threshold < 1 ->
    ABC.assign_abc_groups df a_threshold b_threshold = Ok out ->
    In o out ->
    Qsum (map Value
              (filter (fun r => (String.eqb (Period (fst o)) (Period r)
                                 && String.eqb (SKU (fst o)) (SKU r))%bool)
                      (fill_values df))) == 0 ->
    snd o = Some "C".
Proof.
  intros df a b out o Hnn Ha Hb Hok Ho Hzero.
  destruct (assign_abc_groups_rows df a b out Hok) as [_ Hrows].
  destruct (Hrows o Ho) as [x [Hx [Hpx [Hsx ->]]]].
  f_equal. apply (abc_zero_row_is_C a b (fill_values df) x Hnn Ha Hb Hx).
  rewrite (abc_table_value a b _ x Hx), <- Hpx, <- Hsx. exact Hzero.
Qed.

Lemma abc_zero_value_is_C_witness :
  snd (mkRecord "S2" "2024-01" 0, Some "C") = Some "C".
Proof.
  apply (abc_zero_value_is_C
           [ mkRaw "S1" "2024-01" (Some 9); mkRaw "S2" "2024-01" None ]
           ABC.default_a ABC.default_b
           [ (mkRecord "S1" "2024-01" 9, Some "C");
             (mkRecord "S2" "2024-01" 0, Some "C") ]
           (mkRecord "S2" "2024-01" 0, Some "C")).
  - repeat constructor; vm_compute; discriminate.
  - reflexivity.
  - reflexivity.
  - reflexivity.
  - right. left. reflexivity.
  - vm_compute. reflexivity.
Defined.

(* ================================================================== *)
(** * More on the XYZ thresholds *)
(* ================================================================== *)

Lemma sorted_nth_le (s : list R) :
  StronglySorted Rle s ->
  forall i j, (i <= j)%nat -> (j < List.length s)%nat ->
              (nth i s 0 <= nth j s 0)%R.
Proof.
  induction 1 as [|x s Hs IH Hall]; intros i j Hij Hj; simpl in Hj.
  - lia.
  - destruct i as [|i], j as [|j]; simpl; try lia.
    + apply Rle_refl.
    + rewrite Forall_forall in Hall. apply Hall. apply nth_In. lia.
    + apply IH; lia.
Qed.

(** The shape of a quantile: a point between two neighbours of the
    sorted values. *)
Lemma quantile_form (q : Q) (l : list R) :
  0 <= q -> q <= 1 -> l <> [] ->
  let s := sort_by XYZ.Rleb l in
  let n := List.length l in
  exists (i : nat) (g : R),
    XYZ.quantile q l
    = (nth i s 0 + (nth (Nat.min (i + 1) (n - 1)) s 0 - nth i s 0) * g)%R
    /\ (i <= n - 1)%nat
    /\ (0 <= g < 1)%R
    /\ (INR i + g = INR (n - 1) * Q2R q)%R.
Proof.
  intros Hq0 Hq1 Hne s n. unfold XYZ.quantile. cbv zeta.
  rewrite sort_by_length. fold s. fold n.
  set (h := inject_Z (Z.of_nat (n - 1)) * q).
  assert (Hh0 : 0 <= h).
  { unfold h. apply Qmult_le_0_compat; [|exact Hq0].
    change 0 with (inject_Z 0). rewrite <- Zle_Qle. lia. }
  assert (Hh1 : h <= inject_Z (Z.of_nat (n - 1))).
  { unfold h.
    assert (H0 : 0 <= inject_Z (Z.of_nat (n - 1))).
    { change 0 with (inject_Z 0). rewrite <- Zle_Qle. lia. }
    nra. }
  assert (Hfl0 : (0 <= Qfloor h)%Z).
  { rewrite <- (Qfloor_Z 0). now apply Qfloor_resp_le. }
  assert (Hfl1 : (Qfloor h <= Z.of_nat (n - 1))%Z).
  { rewrite <- (Qfloor_Z (Z.of_nat (n - 1))). now apply Qfloor_resp_le. }
  assert (Hi : INR (Z.to_nat (Qfloor h)) = IZR (Qfloor h)).
  { rewrite INR_IZR_INZ, Z2Nat.id by exact Hfl0. reflexivity. }
  exists (Z.to_nat (Qfloor h)), (Q2R (h - inject_Z (Qfloor h))).
  split; [reflexivity|]. split; [lia|].
  rewrite Q2R_minus, Q2R_inject_Z, Hi.
  assert (Hlo : (IZR (Qfloor h) <= Q2R h)%R).
  { rewrite <- Q2R_inject_Z. apply Qle_Rle, Qfloor_le. }
  assert (Hhi : (Q2R h < IZR (Qfloor h) + 1)%R).
  { replace (IZR (Qfloor h) + 1)%R with (Q2R (inject_Z (Qfloor h + 1))).
    - apply Qlt_Rlt, Qlt_floor.
    - rewrite Q2R_inject_Z, plus_IZR. reflexivity. }
  split; [lra|].
  unfold h. rewrite Q2R_mult, Q2R_inject_Z, <- INR_IZR_INZ. lra.
Qed.

Lemma sorted_nth_In (l : list R) (i : nat) :
  (i < List.length l)%nat -> In (nth i (sort_by XYZ.Rleb l) 0%R) l.
Proof.
  intros Hi. apply (Permutation_in _ (sort_by_perm XYZ.Rleb l)).
  apply nth_In. now rewrite sort_by_length.
Qed.

(** A quantile lies between two of the values. *)
Lemma quantile_between (q : Q) (l : list R) :
  0 <= q -> q <= 1 -> l <> [] ->
  exists lo hi, In lo l /\ In hi l
                /\ (lo <= XYZ.quantile q l <= hi)%R.
Proof.
  intros Hq0 Hq1 Hne.
  destruct (quantile_form q l Hq0 Hq1 Hne) as [i [g [Hv [Hi [Hg _]]]]].
  cbv zeta in *.
  assert (Hn : (0 < List.length l)%nat).
  { destruct l; [now elim Hne | simpl; lia]. }
  set (s := sort_by XYZ.Rleb l) in *.
  set (j := Nat.min (i + 1) (List.length l - 1)) in *.
  assert (Hle : (nth i s 0 <= nth j s 0)%R).
  { apply sorted_nth_le.
    - apply sort_by_Rleb_sorted.
    - unfold j. lia.
    - unfold s. rewrite sort_by_length. unfold j. lia. }
  exists (nth i s 0%R), (nth j s 0%R).
  split; [apply sorted_nth_In; lia|].
  split; [apply sorted_nth_In; unfold j; lia|].
  rewrite Hv. nra.
Qed.

(** Quantiles grow with their level. *)
Lemma quantile_mono (q q' : Q) (l : list R) :
  0 <= q -> q <= q' -> q' <= 1 -> l <> [] ->
  (XYZ.quantile q l <= XYZ.quantile q' l)%R.
Proof.
  intros Hq0 Hqq Hq1 Hne.
  assert (Hq1' : q <= 1) by lra. assert (Hq0' : 0 <= q') by lra.
  destruct (quantile_form q l Hq0 Hq1' Hne) as [i [g [Hv [Hi [Hg Hh]]]]].
  destruct (quantile_form q' l Hq0' Hq1 Hne) as [i' [g' [Hv' [Hi' [Hg' Hh']]]]].
  cbv zeta in *.
  assert (Hn : (0 < List.length l)%nat).
  { destruct l; [now elim Hne | simpl; lia]. }
  set (s := sort_by XYZ.Rleb l) in *.
  set (n1 := (List.length l - 1)%nat) in *.
  assert (Hsorted : StronglySorted Rle s) by apply sort_by_Rleb_sorted.
  assert (Hlen : List.length s = List.length l) by apply sort_by_length.
  assert (Hqq' : (Q2R q <= Q2R q')%R) by now apply Qle_Rle.
  assert (Hn1 : (0 <= INR n1)%R) by apply pos_INR.
  assert (Hsum : (INR i + g <= INR i' + g')%R) by nra.
  assert (Hii : (i <= i')%nat).
  { destruct (le_lt_dec i i') as [H|H]; [exact H|]. exfalso.
    assert (Hs : (INR (i' + 1) <= INR i)%R) by (apply le_INR; lia).
    rewrite plus_INR in Hs. simpl in Hs. lra. }
  assert (Hlohi : (nth i s 0 <= nth (Nat.min (i + 1) n1) s 0)%R)
    by (apply sorted_nth_le; [exact Hsorted | lia | unfold n1 in *; lia]).
  assert (Hlohi' : (nth i' s 0 <= nth (Nat.min (i' + 1) n1) s 0)%R)
    by (apply sorted_nth_le; [exact Hsorted | lia | unfold n1 in *; lia]).
  rewrite Hv, Hv'.
  destruct (Nat.eq_dec i i') as [<-|Hneq].
  - assert (Hgg : (g <= g')%R) by lra. nra.
  - assert (Hmid : (nth (Nat.min (i + 1) n1) s 0 <= nth i' s 0)%R)
      by (apply sorted_nth_le; [exact Hsorted | lia | unfold n1 in *; lia]).
    nra.
Qed.

(* ================================================================== *)
(** * More on the XYZ classifier *)
(* ================================================================== *)

Lemma assign_xyz_groups_ok_inv (df : list RawRecord) (data_mode : string) out :
  XYZ.assign_xyz_groups df data_mode = Ok out ->
  let stats := XYZ.sku_stats (XYZ.stats_input_df data_mode (fill_values df)) in
  (data_mode = "dense" \/ data_mode = "sparse")
  /\ out = XYZ.broadcast (fill_values df) stats
                         (fst (XYZ.thresholds stats))
                         (snd (XYZ.thresholds stats)).
Proof.
  unfold XYZ.assign_xyz_groups. cbv zeta.
  destruct (String.eqb data_mode "dense") eqn:Ed;
    [|destruct (String.eqb data_mode "sparse") eqn:Es]; simpl;
    try discriminate.
  - destruct (XYZ.thresholds _) as [x y]. intros H. inversion H.
    apply String.eqb_eq in Ed. auto.
  - destruct (XYZ.thresholds _) as [x y]. intros H. inversion H.
    apply String.eqb_eq in Es. auto.
Qed.

Lemma assign_xyz_groups_returns (df : list RawRecord) (data_mode : string) :
  data_mode = "dense" \/ data_mode = "sparse" ->
  let stats := XYZ.sku_stats (XYZ.stats_input_df data_mode (fill_values df)) in
  XYZ.assign_xyz_groups df data_mode
  = Ok (XYZ.broadcast (fill_values df) stats
                      (fst (XYZ.thresholds stats))
                      (snd (XYZ.thresholds stats))).
Proof.
  intros Hmode stats. unfold XYZ.assign_xyz_groups.
  assert (Hvalid : negb (String.eqb data_mode "dense"
                         || String.eqb data_mode "sparse") = false).
  { destruct Hmode as [-> | ->]; reflexivity. }
  rewrite Hvalid. cbv zeta. fold stats.
  destruct (XYZ.thresholds stats) as [x y]. reflexivity.
Qed.

(** X6. The XYZ classifier raises its ValueError exactly when the mode is
    neither "dense" nor "sparse"; in the two valid modes it returns one
    row per input row, in input order. *)
Theorem xyz_mode_validation :
  forall (df : list RawRecord) (data_mode : string),
    ((data_mode = "dense" \/ data_mode = "sparse") ->
     exists out, XYZ.assign_xyz_groups df data_mode = Ok out
                 /\ map XYZ.rec out = fill_values df)
    /\ (data_mode <> "dense" -> data_mode <> "sparse" ->
        XYZ.assign_xyz_groups df data_mode
        = Raise (ValueError "data_mode must be 'dense' or 'sparse'"))
    /\ (forall out, XYZ.assign_xyz_groups df data_mode = Ok out ->
                    data_mode = "dense" \/ data_mode = "sparse").
Proof.
  intros df data_mode. split; [|split].
  - intros Hmode. eexists. split.
    + now apply assign_xyz_groups_returns.
    + apply (broadcast_spec data_mode (fill_values df)).
  - intros Hd Hs. unfold XYZ.assign_xyz_groups.
    apply String.eqb_neq in Hd, Hs. rewrite Hd, Hs. reflexivity.
  - intros out Hok. apply (assign_xyz_groups_ok_inv df data_mode out Hok).
Qed.

Lemma sku_stats_NoDup (rows : list InventoryRecord) :
  NoDup (map XYZ.stat_SKU (XYZ.sku_stats rows)).
Proof.
  eapply Permutation_NoDup;
    [apply Permutation_sym, sku_stats_keys
    | apply (group_rows_NoDup String.eqb String.eqb_eq)].
Qed.

(** X7. The XYZ label is a property of the SKU: two returned rows with the
    same SKU carry the same label and the same CV, whatever their
    periods, and all rows carry the same pair of thresholds. *)
Theorem xyz_label_per_sku :
  forall (df : list RawRecord) (data_mode : string) out r1 r2,
    XYZ.assign_xyz_groups df data_mode = Ok out ->
    In r1 out -> In r2 out ->
    (XYZ.x_threshold_33 r1 = XYZ.x_threshold_33 r2
     /\ XYZ.y_threshold_66 r1 = XYZ.y_threshold_66 r2)
    /\ (SKU (XYZ.rec r1) = SKU (XYZ.rec r2) ->
        XYZ.XYZ r1 = XYZ.XYZ r2 /\ XYZ.CV r1 = XYZ.CV r2).
Proof.
  intros df data_mode out r1 r2 Hok H1 H2.
  destruct (assign_xyz_groups_ok_inv df data_mode out Hok) as [_ Hout].
  cbv zeta in Hout.
  set (stats := XYZ.sku_stats (XYZ.stats_input_df data_mode (fill_values df)))
    in *.
  destruct (broadcast_spec data_mode (fill_values df)
                           (fst (XYZ.thresholds stats))
                           (snd (XYZ.thresholds stats))) as [_ Hall].
  fold stats in Hall. rewrite <- Hout in Hall. rewrite Forall_forall in Hall.
  destruct (Hall r1 H1) as [s1 [Hs1 [Hk1 [Hl1 [Hc1 [Hx1 Hy1]]]]]].
  destruct (Hall r2 H2) as [s2 [Hs2 [Hk2 [Hl2 [Hc2 [Hx2 Hy2]]]]]].
  split; [split; congruence|].
  intros Hsku.
  assert (Heq : s1 = s2).
  { apply (NoDup_map_eq XYZ.stat_SKU stats); try assumption.
    - apply sku_stats_NoDup.
    - congruence. }
  subst s2. split; congruence.
Qed.

Lemma xyz_label_per_sku_witness :
  exists out r1 r2,
    XYZ.assign_xyz_groups
      [ mkRaw "X1" "2024-01" (Some 10); mkRaw "X1" "2024-02" (Some 10) ]
      "sparse" = Ok out
    /\ In r1 out /\ In r2 out
    /\ (XYZ.x_threshold_33 r1 = XYZ.x_threshold_33 r2
        /\ XYZ.y_threshold_66 r1 = XYZ.y_threshold_66 r2)
    /\ (SKU (XYZ.rec r1) = SKU (XYZ.rec r2) ->
        XYZ.XYZ r1 = XYZ.XYZ r2 /\ XYZ.CV r1 = XYZ.CV r2).
Proof.
  set (df := [ mkRaw "X1" "2024-01" (Some 10);
               mkRaw "X1" "2024-02" (Some 10) ]).
  pose proof (assign_xyz_groups_returns df "sparse" (or_intror eq_refl)) as E.
  cbv zeta in E.
  set (stats := XYZ.sku_stats (XYZ.stats_input_df "sparse" (fill_values df)))
    in E.
  destruct (broadcast_spec "sparse" (fill_values df)
                           (fst (XYZ.thresholds stats))
                           (snd (XYZ.thresholds stats))) as [Hrec _].
  fold stats in Hrec.
  remember (XYZ.broadcast (fill_values df) stats
                          (fst (XYZ.thresholds stats))
                          (snd (XYZ.thresholds stats))) as out eqn:Hout.
  clear Hout.
  destruct out as [|r1 [|r2 out]]; try discriminate.
  exists (r1 :: r2 :: out), r1, r2.
  split; [exact E|]. split; [now left|]. split; [right; now left|].
  apply (xyz_label_per_sku df "sparse" (r1 :: r2 :: out) r1 r2 E).
  - now left.
  - right. now left.
Defined.

Lemma std_nonneg (vs : list Q) : (0 <= fillna 0 (XYZ.std vs))%R.
Proof.
  unfold XYZ.std. destruct (XYZ.var vs); simpl.
  - apply sqrt_pos.
  - apply Rle_refl.
Qed.

(** The cv of a statistics row is a number, and not a negative one. *)
Lemma cv_nonneg (g : string * list Q) :
  exists c, XYZ.cv (XYZ.sku_stat g) = Some c /\ (0 <= c)%R.
Proof.
  unfold XYZ.sku_stat. cbn [XYZ.cv].
  unfold XYZ.coefficient_of_variation.
  destruct (Qeq_bool (XYZ.mean (snd g)) 0) eqn:Em.
  - exists 0%R. split; [reflexivity | apply Rle_refl].
  - apply Qeq_bool_false in Em. unfold XYZ.fdiv.
    pose proof (Q2R_Qabs_pos _ Em) as Hpos.
    destruct (Req_EM_T (Q2R (Qabs (XYZ.mean (snd g)))) 0) as [Hz|Hnz];
      [lra|].
    eexists. split; [reflexivity|].
    apply Rle_mult_inv_pos; [apply std_nonneg | exact Hpos].
Qed.

Lemma sku_stats_cv_nonneg (rows : list InventoryRecord) st :
  In st (XYZ.sku_stats rows) ->
  exists c, XYZ.cv st = Some c /\ (0 <= c)%R.
Proof.
  unfold XYZ.sku_stats. intros Hin. apply in_map_iff in Hin.
  destruct Hin as [g [<- _]]. apply cv_nonneg.
Qed.

(** The rows of the statistics table behind the returned rows. *)
Lemma assign_xyz_groups_rows (df : list RawRecord) (data_mode : string) out :
  XYZ.assign_xyz_groups df data_mode = Ok out ->
  let stats := XYZ.sku_stats (XYZ.stats_input_df data_mode (fill_values df)) in
  forall row, In row out ->
              exists st, In st stats
                         /\ XYZ.stat_SKU st = SKU (XYZ.rec row)
                         /\ XYZ.XYZ row
                            = XYZ.xyz_label (fst (XYZ.thresholds stats))
                                            (snd (XYZ.thresholds stats)) st
                         /\ XYZ.CV row = XYZ.cv st
                         /\ XYZ.x_threshold_33 row = fst (XYZ.thresholds stats)
                         /\ XYZ.y_threshold_66 row = snd (XYZ.thresholds stats).
Proof.
  intros Hok stats.
  destruct (assign_xyz_groups_ok_inv df data_mode out Hok) as [_ Hout].
  cbv zeta in Hout. fold stats in Hout.
  destruct (broadcast_spec data_mode (fill_values df)
                           (fst (XYZ.thresholds stats))
                           (snd (XYZ.thresholds stats))) as [_ Hall].
  fold stats in Hall. rewrite <- Hout in Hall.
  rewrite Forall_forall in Hall. exact Hall.
Qed.

Lemma eligible_cvs_nonneg (rows : list InventoryRecord) c :
  In c (XYZ.eligible_cvs (XYZ.sku_stats rows)) -> (0 <= c)%R.
Proof.
  unfold XYZ.eligible_cvs. rewrite dropna_In, in_map_iff.
  intros [st [Hc Hin]]. apply filter_In in Hin. destruct Hin as [Hin _].
  destruct (sku_stats_cv_nonneg rows st Hin) as [c' [Hc' Hpos]].
  congruence.
Qed.

Lemma thresholds_ordered (rows : list InventoryRecord) :
  let thr := XYZ.thresholds (XYZ.sku_stats rows) in
  (0 <= fst thr)%R /\ (fst thr <= snd thr)%R.
Proof.
  cbv zeta. unfold XYZ.thresholds.
  destruct (XYZ.eligible_cvs (XYZ.sku_stats rows)) as [|c cs] eqn:E.
  - simpl. lra.
  - simpl fst. simpl snd. split.
    + destruct (quantile_between (33 # 100) (c :: cs))
        as [lo [hi [Hlo [_ [Hle _]]]]]; try discriminate.
      rewrite <- E in Hlo. apply eligible_cvs_nonneg in Hlo. lra.
    + apply quantile_mono; discriminate.
Qed.

(** X8. On every returned row the thresholds satisfy
    0 <= x_threshold_33 <= y_threshold_66; when some SKU is eligible they
    lie between the smallest and the largest eligible cv; and a CV that
    is a number is not negative. *)
Theorem xyz_thresholds_ordered_cv_nonneg :
  forall (df : list RawRecord) (data_mode : string) out row,
    XYZ.assign_xyz_groups df data_mode = Ok out ->
    In row out ->
    let cvs :=
        XYZ.eligible_cvs
          (XYZ.sku_stats (XYZ.stats_input_df data_mode (fill_values df))) in
    (0 <= XYZ.x_threshold_33 row)%R
    /\ (XYZ.x_threshold_33 row <= XYZ.y_threshold_66 row)%R
    /\ (cvs <> [] ->
        exists lo hi, In lo cvs /\ In hi cvs
                      /\ (lo <= XYZ.x_threshold_33 row)%R
                      /\ (XYZ.y_threshold_66 row <= hi)%R)
    /\ (forall c, XYZ.CV row = Some c -> (0 <= c)%R).
Proof.
  intros df data_mode out row Hok Hin cvs.
  destruct (assign_xyz_groups_rows df data_mode out Hok row Hin)
    as [st [Hst [_ [_ [Hcv [Hx Hy]]]]]].
  rewrite Hcv, Hx, Hy.
  destruct (thresholds_ordered (XYZ.stats_input_df data_mode (fill_values df)))
    as [H0 Hxy].
  split; [exact H0|]. split; [exact Hxy|]. split.
  - intros Hne. unfold XYZ.thresholds. fold cvs.
    destruct cvs as [|c0 cs] eqn:E; [now elim Hne|].
    destruct (quantile_between (33 # 100) (c0 :: cs))
      as [lo [_ [Hlo [_ [Hle _]]]]]; try discriminate.
    destruct (quantile_between (66 # 100) (c0 :: cs))
      as [_ [hi [_ [Hhi [_ Hge]]]]]; try discriminate.
    exists lo, hi. simpl fst. simpl snd. auto.
  - intros c Hc.
    destruct (sku_stats_cv_nonneg _ st Hst) as [c' [Hc' Hpos]].
    congruence.
Qed.

(** Three SKUs over two periods, all eligible, with cv 0, sqrt 50 / 15
    and sqrt 450 / 25. *)
Lemma xyz_thresholds_ordered_cv_nonneg_witness :
  let df := [ mkRaw "X1" "2024-01" (Some 10); mkRaw "X1" "2024-02" (Some 10);
              mkRaw "X2" "2024-01" (Some 10); mkRaw "X2" "2024-02" (Some 20);
              mkRaw "X3" "2024-01" (Some 10); mkRaw "X3" "2024-02" (Some 40) ] in
  let cvs :=
      XYZ.eligible_cvs
        (XYZ.sku_stats (XYZ.stats_input_df "sparse" (fill_values df))) in
  exists out row,
    XYZ.assign_xyz_groups df "sparse" = Ok out
    /\ In row out
    /\ (0 <= XYZ.x_threshold_33 row)%R
    /\ (XYZ.x_threshold_33 row <= XYZ.y_threshold_66 row)%R
    /\ (cvs <> [] ->
        exists lo hi, In lo cvs /\ In hi cvs
                      /\ (lo <= XYZ.x_threshold_33 row)%R
                      /\ (XYZ.y_threshold_66 row <= hi)%R)
    /\ (forall c, XYZ.CV row = Some c -> (0 <= c)%R).
Proof.
  intros df cvs.
  pose proof (assign_xyz_groups_returns df "sparse" (or_intror eq_refl)) as E.
  cbv zeta in E.
  set (stats := XYZ.sku_stats (XYZ.stats_input_df "sparse" (fill_values df)))
    in *.
  destruct (broadcast_spec "sparse" (fill_values df)
                           (fst (XYZ.thresholds stats))
                           (snd (XYZ.thresholds stats))) as [Hrec _].
  fold stats in Hrec.
  remember (XYZ.broadcast (fill_values df) stats
                          (fst (XYZ.thresholds stats))
                          (snd (XYZ.thresholds stats))) as out eqn:Hout.
  clear Hout.
  destruct out as [|row out]; try discriminate.
  exists (row :: out), row.
  split; [exact E|]. split; [now left|].
  apply (xyz_thresholds_ordered_cv_nonneg df "sparse" (row :: out) row E).
  now left.
Defined.

(** In that example the three SKUs are eligible, so the thresholds are
    the percentiles of three cvs and not the default 0. *)
Example xyz_three_eligible_skus :
  let df := [ mkRaw "X1" "2024-01" (Some 10); mkRaw "X1" "2024-02" (Some 10);
              mkRaw "X2" "2024-01" (Some 10); mkRaw "X2" "2024-02" (Some 20);
              mkRaw "X3" "2024-01" (Some 10); mkRaw "X3" "2024-02" (Some 40) ] in
  let stats := XYZ.sku_stats (XYZ.stats_input_df "sparse" (fill_values df)) in
  map (fun st => (XYZ.stat_SKU st, XYZ.n_periods st, XYZ.is_eligible st)) stats
  = [ ("X1", 2%nat, true); ("X2", 2%nat, true); ("X3", 2%nat, true) ]
  /\ List.length (XYZ.eligible_cvs stats) = 3%nat.
Proof.
  intros df stats.
  assert (Hg : XYZ.sku_groups (XYZ.stats_input_df "sparse" (fill_values df))
               = [ ("X1", [10; 10]); ("X2", [10; 20]); ("X3", [10; 40]) ])
    by (vm_compute; reflexivity).
  split.
  - unfold stats, XYZ.sku_stats. rewrite Hg. vm_compute. reflexivity.
  - unfold stats, XYZ.sku_stats, XYZ.eligible_cvs. rewrite Hg.
    assert (He : filter XYZ.is_eligible
                        (map XYZ.sku_stat
                             [ ("X1", [10; 10]); ("X2", [10; 20]);
                               ("X3", [10; 40]) ])
                 = map XYZ.sku_stat
                       [ ("X1", [10; 10]); ("X2", [10; 20]);
                         ("X3", [10; 40]) ]).
    { cbn [map]. unfold filter.
      replace (XYZ.is_eligible (XYZ.sku_stat ("X1", [10; 10]))) with true
        by (vm_compute; reflexivity).
      replace (XYZ.is_eligible (XYZ.sku_stat ("X2", [10; 20]))) with true
        by (vm_compute; reflexivity).
      replace (XYZ.is_eligible (XYZ.sku_stat ("X3", [10; 40]))) with true
        by (vm_compute; reflexivity).
      reflexivity. }
    rewrite He. cbn [map].
    rewrite !cv_defined;
      try (simpl; lia); try (intros H; vm_compute in H; discriminate).
Qed.

Lemma stats_input_skus (data_mode : string) (df : list InventoryRecord) s :
  In s (map SKU (XYZ.stats_input_df data_mode df)) -> In s (map SKU df).
Proof.
  unfold XYZ.stats_input_df.
  assert (Hsparse : In s (map SKU (XYZ.period_sum df)) -> In s (map SKU df)).
  { intros Hin. apply in_map_iff in Hin. destruct Hin as [b [<- Hb]].
    assert (Hk : In (SKU b, Period b)
                    (map (fun r => (SKU r, Period r)) (XYZ.period_sum df)))
      by (apply in_map_iff; exists b; auto).
    apply period_sum_observed in Hk. destruct Hk as [a [Ha [Hs _]]].
    apply in_map_iff. exists a. auto. }
  destruct (String.eqb data_mode "dense"); [|exact Hsparse].
  rewrite densify_grid, map_map. simpl. intros Hin.
  apply in_map_iff in Hin. destruct Hin as [[s' p] [<- Hk]].
  apply in_prod_iff in Hk. destruct Hk as [Hk _].
  apply (proj1 (unique_In String.eqb String.eqb_eq _ _)) in Hk.
  simpl. exact Hk.
Qed.




Lemma unique_constant (l : list string) (p : string) :
  (forall x, In x l -> x = p) ->
  (List.length (unique String.eqb l) <= 1)%nat.
Proof.
  intros Hall. destruct l as [|x t]; simpl; [lia|].
  assert (Hnil : filter (fun y => negb (String.eqb y x))
                        (unique String.eqb t) = []).
  { destruct (filter (fun y => negb (String.eqb y x)) (unique String.eqb t))
      as [|y l] eqn:E; [reflexivity|].
    assert (Hy : In y (filter (fun y => negb (String.eqb y x))
                              (unique String.eqb t)))
      by (rewrite E; now left).
    apply filter_In in Hy. destruct Hy as [Hy Hne].
    apply (proj1 (unique_In String.eqb String.eqb_eq _ _)) in Hy.
    rewrite (Hall y (or_intror Hy)), (Hall x (or_introl eq_refl)) in Hne.
    rewrite String.eqb_refl in Hne. discriminate. }
  rewrite Hnil. simpl. lia.
Qed.

(** X10. When all input rows belong to one period, nothing can be
    classified: in either mode every returned row has the empty label and
    both thresholds are 0. *)
Theorem xyz_single_period_unclassified :
  forall (df : list RawRecord) (data_mode : string) out (p : string),
    (forall r, In r (fill_values df) -> Period r = p) ->
    XYZ.assign_xyz_groups df data_mode = Ok out ->
    forall row, In row out ->
                XYZ.XYZ row = ""
                /\ XYZ.x_threshold_33 row = 0%R
                /\ XYZ.y_threshold_66 row = 0%R.
Proof.
  intros df data_mode out p Hp Hok row Hrow.
  set (stats := XYZ.sku_stats (XYZ.stats_input_df data_mode (fill_values df))).
  destruct (assign_xyz_groups_ok_inv df data_mode out Hok) as [Hmode _].
  assert (Hfew : forall st, In st stats -> (XYZ.n_periods st < 2)%nat).
  { intros st Hst. unfold stats in Hst. destruct Hmode as [-> | ->].
    - rewrite (dense_n_periods _ st Hst).
      assert (H : (List.length (unique String.eqb
                                       (map Period (fill_values df))) <= 1)%nat).
      { apply (unique_constant _ p). intros x Hx. apply in_map_iff in Hx.
        destruct Hx as [r [<- Hr]]. now apply Hp. }
      lia.
    - rewrite (sparse_n_periods _ st Hst).
      match goal with
      | |- (List.length (unique String.eqb ?l) < 2)%nat =>
          assert (H : (List.length (unique String.eqb l) <= 1)%nat)
      end.
      { apply (unique_constant _ p). intros x Hx. apply in_map_iff in Hx.
        destruct Hx as [r [<- Hr]]. apply filter_In in Hr. now apply Hp. }
      lia. }
  assert (Hnone : XYZ.eligible_cvs stats = []).
  { unfold XYZ.eligible_cvs.
    assert (Hf : filter XYZ.is_eligible stats = []).
    { destruct (filter XYZ.is_eligible stats) as [|st l] eqn:E; [reflexivity|].
      assert (Hst : In st (filter XYZ.is_eligible stats))
        by (rewrite E; now left).
      apply filter_In in Hst. destruct Hst as [Hst He].
      apply is_eligible_iff in He. specialize (Hfew st Hst). lia. }
    now rewrite Hf. }
  destruct (assign_xyz_groups_rows df data_mode out Hok row Hrow)
    as [st [Hst [_ [Hl [_ [Hx Hy]]]]]].
  fold stats in Hst, Hl, Hx, Hy.
  assert (Hthr : XYZ.thresholds stats = (0%R, 0%R)).
  { unfold XYZ.thresholds. now rewrite Hnone. }
  rewrite Hx, Hy, Hl, Hthr. simpl fst. simpl snd.
  split; [|split; reflexivity].
  destruct (xyz_label_cases 0%R 0%R st) as [H _].
  apply H. now apply Hfew.
Qed.

Lemma xyz_single_period_unclassified_witness :
  exists out,
    XYZ.assign_xyz_groups
      [ mkRaw "X1" "2024-01" (Some 10); mkRaw "X2" "2024-01" (Some 5) ]
      "dense" = Ok out
    /\ forall row, In row out ->
                   XYZ.XYZ row = ""
                   /\ XYZ.x_threshold_33 row = 0%R
                   /\ XYZ.y_threshold_66 row = 0%R.
Proof.
  set (df := [ mkRaw "X1" "2024-01" (Some 10);
               mkRaw "X2" "2024-01" (Some 5) ]).
  pose proof (assign_xyz_groups_returns df "dense" (or_introl eq_refl)) as E.
  cbv zeta in E. eexists. split; [exact E|].
  apply (xyz_single_period_unclassified df "dense" _ "2024-01"); [|exact E].
  intros r [<-|[<-|[]]]; reflexivity.
Defined.

(* ================================================================== *)
(** * prepare_data *)
(* ================================================================== *)

Section PrepareFacts.
Context {C : Type}.
Variable to_period : list C -> list C.

Lemma has_column_app (n : string) (f g : @Prepare.frame C) :
  Prepare.has_column n (f ++ g)%list
  = (Prepare.has_column n f || Prepare.has_column n g)%bool.
Proof. unfold Prepare.has_column. apply existsb_app. Qed.

Lemma has_column_set (n m : string) (col : list C) (f : @Prepare.frame C) :
  Prepare.has_column n (Prepare.set_column m col f)
  = (Prepare.has_column n f || String.eqb m n)%bool.
Proof.
  unfold Prepare.set_column.
  destruct (Prepare.has_column m f) eqn:Hm.
  - assert (Hsame : Prepare.has_column n
                      (map (fun nc : string * list C =>
                              if String.eqb (fst nc) m then (m, col) else nc) f)
                    = Prepare.has_column n f).
    { clear Hm. unfold Prepare.has_column.
      induction f as [|[k c] f IH]; simpl; [reflexivity|].
      rewrite IH. destruct (String.eqb k m) eqn:E; simpl; [|reflexivity].
      apply String.eqb_eq in E. now subst k. }
    rewrite Hsame. destruct (String.eqb m n) eqn:E.
    + apply String.eqb_eq in E. subst n. rewrite Hm. reflexivity.
    + now rewrite orb_false_r.
  - rewrite has_column_app. simpl. unfold Prepare.has_column at 2. simpl.
    now rewrite orb_false_r.
Qed.

Lemma has_column_del (n d : string) (f : @Prepare.frame C) :
  Prepare.has_column n (Prepare.del_column d f)
  = (Prepare.has_column n f && negb (String.eqb d n))%bool.
Proof.
  unfold Prepare.has_column, Prepare.del_column.
  induction f as [|[k c] f IH]; simpl; [reflexivity|].
  destruct (String.eqb k d) eqn:Ed; simpl.
  - apply String.eqb_eq in Ed. subst k. rewrite IH.
    destruct (String.eqb d n); simpl; [|reflexivity].
    now rewrite andb_false_r.
  - rewrite IH. destruct (String.eqb k n) eqn:En; simpl; [|reflexivity].
    apply String.eqb_eq in En. subst k. rewrite String.eqb_sym, Ed.
    reflexivity.
Qed.

Lemma has_column_rename (n old new : string) (f : @Prepare.frame C) :
  Prepare.has_column n (Prepare.rename_column old new f)
  = ((Prepare.has_column n f && negb (String.eqb old n))
     || (Prepare.has_column old f && String.eqb new n))%bool.
Proof.
  unfold Prepare.has_column, Prepare.rename_column.
  induction f as [|[k c] f IH]; simpl; [reflexivity|].
  rewrite IH. clear IH.
  destruct (String.eqb k old) eqn:Eo; simpl.
  - apply String.eqb_eq in Eo. subst k.
    destruct (String.eqb new n), (String.eqb old n); simpl;
      repeat match goal with
             | |- context [existsb ?p f] => destruct (existsb p f)
             end; reflexivity.
  - destruct (String.eqb k n) eqn:En; simpl.
    + apply String.eqb_eq in En. subst k. rewrite String.eqb_sym, Eo.
      reflexivity.
    + reflexivity.
Qed.

Lemma get_column_none (n : string) (f : @Prepare.frame C) :
  Prepare.get_column n f = None <-> Prepare.has_column n f = false.
Proof.
  unfold Prepare.get_column, Prepare.has_column.
  induction f as [|[k c] f IH]; simpl; [tauto|].
  destruct (String.eqb k n); simpl; [split; discriminate | exact IH].
Qed.

(** The frame just before the Stock / Value test. *)
Lemma prepared_columns (dates : list C) (stock : @Prepare.frame C) (n : string) :
  Prepare.has_column n
    (Prepare.del_column "Date"
       (Prepare.set_column "Period" (to_period dates) stock))
  = ((Prepare.has_column n stock || String.eqb "Period" n)
     && negb (String.eqb "Date" n))%bool.
Proof. now rewrite has_column_del, has_column_set. Qed.

Lemma prepare_data_returns (stock : @Prepare.frame C) :
  Prepare.has_column "Date" stock = true ->
  Prepare.has_column "Stock" stock = true
  \/ Prepare.has_column "Value" stock = true ->
  exists stock', Prepare.prepare_data to_period stock = (stock', None).
Proof.
  intros Hd Hsv. unfold Prepare.prepare_data.
  destruct (Prepare.get_column "Date" stock) as [dates|] eqn:Ed.
  - cbv zeta. rewrite !prepared_columns. simpl.
    rewrite !orb_false_r, !andb_true_r.
    destruct (Prepare.has_column "Stock" stock); [eexists; reflexivity|].
    destruct Hsv as [Hs|Hv]; [discriminate|]. rewrite Hv.
    eexists. reflexivity.
  - apply get_column_none in Ed. congruence.
Qed.

(** X11. [prepare_data] raises its first error exactly when the frame has
    no Date column, and then leaves the frame as it was.  It raises its
    second error exactly when there is a Date column but neither Stock nor
    Value, and by then the caller's frame has already lost Date and gained
    Period.  In every other case it returns. *)
Theorem prepare_data_outcome :
  forall stock : @Prepare.frame C,
    (Prepare.has_column "Date" stock = false ->
     Prepare.prepare_data to_period stock = (stock, Some Prepare.MissingDate))
    /\ (Prepare.has_column "Date" stock = true ->
        Prepare.has_column "Stock" stock = false ->
        Prepare.has_column "Value" stock = false ->
        exists stock',
          Prepare.prepare_data to_period stock
          = (stock', Some Prepare.MissingStockAndValue)
          /\ Prepare.has_column "Date" stock' = false
          /\ Prepare.has_column "Period" stock' = true)
    /\ (Prepare.has_column "Date" stock = true ->
        Prepare.has_column "Stock" stock = true
        \/ Prepare.has_column "Value" stock = true ->
        exists stock', Prepare.prepare_data to_period stock = (stock', None)).
Proof.
  intros stock. unfold Prepare.prepare_data.
  destruct (Prepare.get_column "Date" stock) as [dates|] eqn:Ed.
  - assert (Hd : Prepare.has_column "Date" stock = true).
    { destruct (Prepare.has_column "Date" stock) eqn:E; [reflexivity|].
      apply get_column_none in E. congruence. }
    cbv zeta. rewrite !prepared_columns. simpl.
    rewrite !orb_false_r, !andb_true_r.
    split; [intros H; congruence|]. split.
    + intros _ Hs Hv. rewrite Hs, Hv. simpl. eexists.
      split; [reflexivity|]. rewrite !prepared_columns. simpl.
      rewrite andb_false_r, orb_true_r. auto.
    + intros _ [Hs|Hv].
      * rewrite Hs. eexists. reflexivity.
      * rewrite Hv. destruct (Prepare.has_column "Stock" stock);
          eexists; reflexivity.
  - apply get_column_none in Ed. split; [reflexivity|].
    split; intros H; congruence.
Qed.

Lemma prepare_data_returns_inv (stock stock' : @Prepare.frame C) :
  Prepare.prepare_data to_period stock = (stock', None) ->
  exists dates,
    Prepare.get_column "Date" stock = Some dates
    /\ (Prepare.has_column "Stock" stock = true
        \/ Prepare.has_column "Value" stock = true)
    /\ stock'
       = (if Prepare.has_column "Stock" stock
          then Prepare.rename_column "Stock" "Value"
          else fun f => f)
           (Prepare.del_column "Date"
              (Prepare.set_column "Period" (to_period dates) stock)).
Proof.
  unfold Prepare.prepare_data.
  destruct (Prepare.get_column "Date" stock) as [dates|]; [|discriminate].
  cbv zeta. rewrite !prepared_columns. simpl.
  rewrite !orb_false_r, !andb_true_r.
  destruct (Prepare.has_column "Stock" stock) eqn:Hs.
  - intros H. inversion H. exists dates. auto.
  - destruct (Prepare.has_column "Value" stock) eqn:Hv; simpl;
      intros H; inversion H. exists dates. auto.
Qed.

(** X12. When [prepare_data] returns, the frame has a Period and a Value
    column and neither Date nor Stock, and whether it has SKU is as
    before: SKU is the only required column that the classifier can still
    find missing.  Applied again to its own result, [prepare_data] raises
    the missing-Date error and leaves the frame unchanged. *)
Theorem prepare_data_postcondition :
  forall stock stock' : @Prepare.frame C,
    Prepare.prepare_data to_period stock = (stock', None) ->
    Prepare.has_column "Period" stock' = true
    /\ Prepare.has_column "Value" stock' = true
    /\ Prepare.has_column "Date" stock' = false
    /\ Prepare.has_column "Stock" stock' = false
    /\ Prepare.has_column "SKU" stock' = Prepare.has_column "SKU" stock
    /\ (forall n, In n (Prepare.missing_columns stock') -> n = "SKU")
    /\ Prepare.prepare_data to_period stock'
       = (stock', Some Prepare.MissingDate).
Proof.
  intros stock stock' Hret.
  destruct (prepare_data_returns_inv stock stock' Hret)
    as [dates [Hd [Hsv Hstock']]].
  assert (Hcols : Prepare.has_column "Period" stock' = true
                  /\ Prepare.has_column "Value" stock' = true
                  /\ Prepare.has_column "Date" stock' = false
                  /\ Prepare.has_column "Stock" stock' = false
                  /\ Prepare.has_column "SKU" stock'
                     = Prepare.has_column "SKU" stock).
  { subst stock'. destruct (Prepare.has_column "Stock" stock) eqn:Hs.
    - rewrite !has_column_rename, !prepared_columns. simpl.
      rewrite Hs. simpl.
      rewrite !andb_false_r, !andb_true_r, !orb_true_r, !orb_false_r.
      auto.
    - rewrite !prepared_columns. simpl. rewrite Hs.
      destruct Hsv as [Hsv|Hsv]; [discriminate|]. rewrite Hsv. simpl.
      rewrite !andb_false_r, !andb_true_r, !orb_true_r, !orb_false_r.
      auto. }
  destruct Hcols as [Hp [Hv [Hdate [Hs Hsku]]]].
  repeat split; try assumption.
  - intros n. unfold Prepare.missing_columns. simpl.
    rewrite Hp, Hv. simpl.
    destruct (Prepare.has_column "SKU" stock'); simpl; intuition.
  - unfold Prepare.prepare_data.
    apply get_column_none in Hdate. now rewrite Hdate.
Qed.

Lemma count_column_set (n m : string) (col : list C) (f : @Prepare.frame C) :
  m <> n ->
  List.length (filter (fun nc => String.eqb (fst nc) n)
                      (Prepare.set_column m col f))
  = List.length (filter (fun nc => String.eqb (fst nc) n) f).
Proof.
  intros Hne. unfold Prepare.set_column.
  apply String.eqb_neq in Hne.
  destruct (Prepare.has_column m f).
  - induction f as [|[k c] f IH]; simpl; [reflexivity|].
    destruct (String.eqb k m) eqn:E; simpl.
    + apply String.eqb_eq in E. subst k. rewrite Hne. exact IH.
    + destruct (String.eqb k n); simpl; now rewrite IH.
  - rewrite filter_app, length_app. simpl. rewrite Hne. simpl. lia.
Qed.

Lemma count_column_del (n d : string) (f : @Prepare.frame C) :
  d <> n ->
  List.length (filter (fun nc => String.eqb (fst nc) n)
                      (Prepare.del_column d f))
  = List.length (filter (fun nc => String.eqb (fst nc) n) f).
Proof.
  intros Hne. unfold Prepare.del_column.
  induction f as [|[k c] f IH]; simpl; [reflexivity|].
  destruct (String.eqb k d) eqn:E; simpl.
  - apply String.eqb_eq in E. subst k.
    apply String.eqb_neq in Hne. rewrite Hne. exact IH.
  - destruct (String.eqb k n); simpl; now rewrite IH.
Qed.

Lemma count_column_rename (old new : string) (f : @Prepare.frame C) :
  old <> new ->
  List.length (filter (fun nc => String.eqb (fst nc) new)
                      (Prepare.rename_column old new f))
  = (List.length (filter (fun nc => String.eqb (fst nc) new) f)
     + List.length (filter (fun nc => String.eqb (fst nc) old) f))%nat.
Proof.
  intros Hne. unfold Prepare.rename_column.
  induction f as [|[k c] f IH]; simpl; [reflexivity|].
  destruct (String.eqb k old) eqn:Eo; simpl.
  - apply String.eqb_eq in Eo. subst k.
    rewrite String.eqb_refl. apply String.eqb_neq in Hne. rewrite Hne.
    simpl. rewrite IH. lia.
  - destruct (String.eqb k new); simpl; rewrite IH; lia.
Qed.

Lemma count_column_present (n : string) (f : @Prepare.frame C) :
  NoDup (map fst f) -> Prepare.has_column n f = true ->
  List.length (filter (fun nc => String.eqb (fst nc) n) f) = 1%nat.
Proof.
  unfold Prepare.has_column.
  induction f as [|[k c] f IH]; simpl; intros Hnd Hn; [discriminate|].
  inversion Hnd as [|? ? Hnotin Hrest]; subst.
  destruct (String.eqb k n) eqn:E; simpl.
  - apply String.eqb_eq in E. subst k. f_equal.
    apply length_zero_iff_nil.
    destruct (filter (fun nc : string * list C => String.eqb (fst nc) n) f)
      as [|x l] eqn:Ef; [reflexivity|].
    assert (Hx : In x (filter (fun nc : string * list C =>
                                 String.eqb (fst nc) n) f))
      by (rewrite Ef; now left).
    apply filter_In in Hx. destruct Hx as [Hx Hk].
    apply String.eqb_eq in Hk. exfalso. apply Hnotin. rewrite <- Hk.
    now apply in_map.
  - now apply IH.
Qed.

(** X13. A sheet with distinct column names that holds Date and both
    Stock and Value goes through [prepare_data] without error, and comes
    out with two columns named Value: Stock is renamed onto the name that
    is already there. *)
Theorem prepare_data_duplicates_value :
  forall stock : @Prepare.frame C,
    NoDup (map fst stock) ->
    Prepare.has_column "Date" stock = true ->
    Prepare.has_column "Stock" stock = true ->
    Prepare.has_column "Value" stock = true ->
    exists stock',
      Prepare.prepare_data to_period stock = (stock', None)
      /\ List.length (filter (fun nc => String.eqb (fst nc) "Value") stock')
         = 2%nat.
Proof.
  intros stock Hnd Hd Hs Hv.
  destruct (prepare_data_returns stock Hd (or_introl Hs)) as [stock' Hret].
  exists stock'. split; [exact Hret|].
  destruct (prepare_data_returns_inv stock stock' Hret)
    as [dates [_ [_ Hstock']]].
  rewrite Hs in Hstock'. subst stock'.
  rewrite count_column_rename by discriminate.
  rewrite !count_column_del, !count_column_set by discriminate.
  now rewrite !count_column_present.
Qed.
End PrepareFacts.

Lemma prepare_data_postcondition_witness :
  let stock := [ ("SKU", [1%nat]); ("Date", [2%nat]); ("Stock", [3%nat]) ] in
  let stock' := [ ("SKU", [1%nat]); ("Value", [3%nat]); ("Period", [2%nat]) ] in
  Prepare.has_column "Period" stock' = true
  /\ Prepare.has_column "Value" stock' = true
  /\ Prepare.has_column "Date" stock' = false
  /\ Prepare.has_column "Stock" stock' = false
  /\ Prepare.has_column "SKU" stock' = Prepare.has_column "SKU" stock
  /\ (forall n, In n (Prepare.missing_columns stock') -> n = "SKU")
  /\ Prepare.prepare_data (fun col => col) stock'
     = (stock', Some Prepare.MissingDate).
Proof.
  intros stock stock'.
  apply (prepare_data_postcondition (fun col => col) stock stock').
  reflexivity.
Defined.

Lemma prepare_data_duplicates_value_witness :
  exists stock',
    Prepare.prepare_data (fun col => col)
      [ ("Date", [1%nat]); ("Stock", [2%nat]); ("Value", [3%nat]) ]
    = (stock', None)
    /\ List.length (filter (fun nc => String.eqb (fst nc) "Value") stock')
       = 2%nat.
Proof.
  apply (prepare_data_duplicates_value (fun col => col)
           [ ("Date", [1%nat]); ("Stock", [2%nat]); ("Value", [3%nat]) ]).
  - repeat constructor; simpl; intuition discriminate.
  - reflexivity.
  - reflexivity.
  - reflexivity.
Defined.

(* ================================================================== *)
(** * Periods *)
(* ================================================================== *)

Lemma digit_char_compare (a b : nat) :
  (a < 10)%nat -> (b < 10)%nat ->
  Ascii.compare (ascii_of_nat (48 + a)) (ascii_of_nat (48 + b))
  = Nat.compare a b.
Proof.
  intros Ha Hb.
  do 10 (destruct a as [|a];
         [ do 10 (destruct b as [|b]; [reflexivity|]); lia |]).
  lia.
Qed.

Lemma digit_compare (a b : nat) :
  Ascii.compare (Period.digit a) (Period.digit b)
  = Nat.compare (a mod 10) (b mod 10).
Proof.
  unfold Period.digit. apply digit_char_compare; apply Nat.mod_upper_bound; lia.
Qed.

Lemma split_ten (n : nat) :
  n = (10 * (n / 10) + n mod 10)%nat /\ (n mod 10 < 10)%nat.
Proof.
  split; [apply Nat.div_mod_eq | apply Nat.mod_upper_bound; lia].
Qed.

(** X14. The period strings produced by [strftime('%Y-%m')] order like
    the months they stand for: comparing two of them as strings is
    comparing (year, month); so two dates get the same Period exactly
    when they share year and month, and sorting by Period is sorting by
    time. *)
Theorem period_order_is_chronological :
  forall t1 t2 : Period.Timestamp,
    (Period.ts_year t1 < 10 * 1000)%nat ->
    (Period.ts_year t2 < 10 * 1000)%nat ->
    (Period.ts_month t1 <= 12)%nat ->
    (Period.ts_month t2 <= 12)%nat ->
    String.compare (Period.strftime_Y_m t1) (Period.strftime_Y_m t2)
    = match Nat.compare (Period.ts_year t1) (Period.ts_year t2) with
      | Eq => Nat.compare (Period.ts_month t1) (Period.ts_month t2)
      | c => c
      end
    /\ (Period.strftime_Y_m t1 = Period.strftime_Y_m t2
        <-> Period.ts_year t1 = Period.ts_year t2
            /\ Period.ts_month t1 = Period.ts_month t2).
Proof.
  intros [y1 m1] [y2 m2]. simpl Period.ts_year. simpl Period.ts_month.
  intros Hy1 Hy2 Hm1 Hm2.
  assert (Hcmp :
    String.compare (Period.strftime_Y_m (Period.mkTimestamp y1 m1))
                   (Period.strftime_Y_m (Period.mkTimestamp y2 m2))
    = match Nat.compare y1 y2 with
      | Eq => Nat.compare m1 m2
      | c => c
      end).
  { unfold Period.strftime_Y_m. cbn [Period.ts_year Period.ts_month].
    cbn [String.compare]. rewrite !digit_compare.
    change (Ascii.compare "-" "-") with Eq. cbv iota.
    destruct (split_ten y1) as [E10 B10], (split_ten (y1 / 10)) as [E11 B11],
      (split_ten (y1 / 10 / 10)) as [E12 B12],
      (split_ten (y1 / 10 / 10 / 10)) as [E13 B13].
    destruct (split_ten y2) as [E20 B20], (split_ten (y2 / 10)) as [E21 B21],
      (split_ten (y2 / 10 / 10)) as [E22 B22],
      (split_ten (y2 / 10 / 10 / 10)) as [E23 B23].
    destruct (split_ten m1) as [F10 C10], (split_ten (m1 / 10)) as [F11 C11].
    destruct (split_ten m2) as [F20 C20], (split_ten (m2 / 10)) as [F21 C21].
    destruct (Nat.compare_spec (y1 / 10 / 10 / 10 mod 10)
                               (y2 / 10 / 10 / 10 mod 10)) as [H3|H3|H3];
      [ destruct (Nat.compare_spec (y1 / 10 / 10 mod 10)
                                   (y2 / 10 / 10 mod 10)) as [H2|H2|H2];
        [ destruct (Nat.compare_spec (y1 / 10 mod 10) (y2 / 10 mod 10))
            as [H1|H1|H1];
          [ destruct (Nat.compare_spec (y1 mod 10) (y2 mod 10)) as [H0|H0|H0]
          | | ]
        | | ]
      | | ].
    1: { assert (Hy : y1 = y2) by lia. subst y2. rewrite Nat.compare_refl.
         destruct (Nat.compare_spec (m1 / 10 mod 10) (m2 / 10 mod 10))
           as [G1|G1|G1];
           [ destruct (Nat.compare_spec (m1 mod 10) (m2 mod 10)) as [G0|G0|G0]
           | | ].
         - assert (Hm : m1 = m2) by lia. subst m2.
           now rewrite Nat.compare_refl.
         - symmetry. apply Nat.compare_lt_iff. lia.
         - symmetry. apply Nat.compare_gt_iff. lia.
         - symmetry. apply Nat.compare_lt_iff. lia.
         - symmetry. apply Nat.compare_gt_iff. lia. }
    all: first [ assert (Hlt : (y1 < y2)%nat) by lia;
                 apply Nat.compare_lt_iff in Hlt; now rewrite Hlt
               | assert (Hgt : (y2 < y1)%nat) by lia;
                 apply Nat.compare_gt_iff in Hgt; now rewrite Hgt ]. }
  split; [exact Hcmp|]. split.
  - intros Heq. rewrite Heq, compare_refl in Hcmp.
    destruct (Nat.compare_spec y1 y2) as [Hy|Hy|Hy]; try discriminate.
    destruct (Nat.compare_spec m1 m2) as [Hm|Hm|Hm]; try discriminate.
    auto.
  - intros [-> ->]. reflexivity.
Qed.

Lemma period_order_is_chronological_witness :
  let t1 := Period.mkTimestamp 2023 12 in
  let t2 := Period.mkTimestamp 2024 1 in
  String.compare (Period.strftime_Y_m t1) (Period.strftime_Y_m t2)
  = match Nat.compare (Period.ts_year t1) (Period.ts_year t2) with
    | Eq => Nat.compare (Period.ts_month t1) (Period.ts_month t2)
    | c => c
    end
  /\ (Period.strftime_Y_m t1 = Period.strftime_Y_m t2
      <-> Period.ts_year t1 = Period.ts_year t2
          /\ Period.ts_month t1 = Period.ts_month t2).
Proof.
  intros t1 t2.
  apply (period_order_is_chronological t1 t2); simpl; lia.
Defined.

Example strftime_Y_m_example :
  Period.strftime_Y_m (Period.mkTimestamp 2024 3) = "2024-03".
Proof. reflexivity. Qed.

(* ================================================================== *)
(** * transform_data *)
(* ================================================================== *)

Lemma merge_left_length {A B : Type} (matches : A -> B -> bool)
      (left : list A) (right : list B) :
  List.length (merge_left matches left right)
  = list_sum (map (fun a => Nat.max 1 (List.length (filter (matches a) right)))
                  left).
Proof.
  induction left as [|a left IH]; [reflexivity|].
  rewrite merge_left_cons, length_app, IH. simpl. f_equal.
  destruct (filter (matches a) right) as [|b l]; simpl; [reflexivity|].
  now rewrite length_map.
Qed.

Lemma merge_left_In {A B : Type} (matches : A -> B -> bool)
      (left : list A) (right : list B) (a : A) (m : option B) :
  In (a, m) (merge_left matches left right) ->
  In a left
  /\ match m with
     | Some b => In b right /\ matches a b = true
     | None => filter (matches a) right = []
     end.
Proof.
  induction left as [|a0 left IH]; [intros []|].
  rewrite merge_left_cons. intros Hin. apply in_app_or in Hin.
  destruct Hin as [Hin|Hin].
  - destruct (filter (matches a0) right) as [|b l] eqn:Ef.
    + destruct Hin as [Heq|[]]. inversion Heq; subst.
      split; [now left | exact Ef].
    + apply in_map_iff in Hin. destruct Hin as [b' [Heq Hb']].
      inversion Heq; subst. split; [now left|].
      rewrite <- Ef in Hb'. apply filter_In in Hb'. exact Hb'.
  - destruct (IH Hin) as [Ha Hm]. split; [now right | exact Hm].
Qed.

(** X15. [transform_data] returns, for each stock row in order, as many
    rows as the cost sheet lists its SKU, and one row when it does not
    list it.  With a cost sheet that lists every SKU at most once the
    result is one row per stock row: its SKU, the period of its date, and
    Stock times the cost of the SKU, the cost being 0 when the SKU has no
    cost row or a null cost, and the value null when Stock is null. *)
Theorem transform_data_rows :
  forall (stock : list Transform.StockRow) (cogs : list Transform.CogsRow),
    List.length (Transform.transform_data stock cogs)
    = list_sum
        (map (fun s =>
                Nat.max 1
                  (List.length
                     (filter (fun c => String.eqb (Transform.stock_SKU s)
                                                  (Transform.cogs_SKU c))
                             cogs)))
             stock)
    /\ (NoDup (map Transform.cogs_SKU cogs) ->
        Transform.transform_data stock cogs
        = map (fun s =>
                 mkRaw (Transform.stock_SKU s)
                       (Period.strftime_Y_m (Transform.stock_Date s))
                       (option_map
                          (fun q =>
                             q * Transform.cogs_of
                                   (find (fun c =>
                                            String.eqb (Transform.stock_SKU s)
                                                       (Transform.cogs_SKU c))
                                         cogs))
                          (Transform.stock_Stock s)))
              stock).
Proof.
  intros stock cogs. unfold Transform.transform_data. split.
  - rewrite length_map. apply merge_left_length.
  - intros Hnd. rewrite merge_left_at_most_one.
    + rewrite map_map. apply map_ext. intros s. simpl.
      assert (Hfind : forall (f : Transform.CogsRow -> bool) l,
                 hd_error (filter f l) = find f l).
      { intros f l. induction l as [|c l IH]; simpl; [reflexivity|].
        destruct (f c); [reflexivity | exact IH]. }
      now rewrite Hfind.
    + intros s _.
      apply (filter_key_at_most_one String.eqb Transform.cogs_SKU cogs
                                    (Transform.stock_SKU s) String.eqb_eq Hnd).
Qed.

Lemma transform_data_In (stock : list Transform.StockRow)
      (cogs : list Transform.CogsRow) r :
  In r (fill_values (Transform.transform_data stock cogs)) ->
  exists s m,
    In s stock
    /\ match m with
       | Some c => In c cogs /\ Transform.cogs_SKU c = Transform.stock_SKU s
       | None => True
       end
    /\ SKU r = Transform.stock_SKU s
    /\ Value r = fillna 0 (option_map (fun q => q * Transform.cogs_of m)
                                      (Transform.stock_Stock s)).
Proof.
  unfold fill_values, Transform.transform_data. rewrite !map_map.
  intros Hin. apply in_map_iff in Hin. destruct Hin as [[s m] [<- Hin]].
  apply merge_left_In in Hin. destruct Hin as [Hs Hm].
  exists s, m. simpl. repeat split; try assumption.
  destruct m as [c|]; [|exact I]. destruct Hm as [Hc Hk].
  apply String.eqb_eq in Hk. auto.
Qed.

(** X16. In the ABC script, with non-negative stock and costs, every
    record of a SKU that has no cost (no row in the cost sheet, or only
    null costs) is labelled C, in every period. *)
Theorem run_abc_sku_without_cost_is_C :
  forall (stock : list Transform.StockRow) (cogs : list Transform.CogsRow)
         out (s : string),
    (forall r q, In r stock -> Transform.stock_Stock r = Some q -> 0 <= q) ->
    (forall c q, In c cogs -> Transform.cogs_COGS c = Some q -> 0 <= q) ->
    (forall c, In c cogs -> Transform.cogs_SKU c = s ->
               Transform.cogs_COGS c = None) ->
    Transform.run_abc stock cogs = Ok out ->
    forall o, In o out -> SKU (fst o) = s -> snd o = Some "C".
Proof.
  intros stock cogs out s Hstock Hcogs Hnone Hok o Ho Hs.
  unfold Transform.run_abc in Hok.
  set (df := Transform.transform_data stock cogs) in *.
  assert (Hcost : forall m, match m with
                            | Some c => In c cogs
                            | None => True
                            end -> 0 <= Transform.cogs_of m).
  { intros [c|] Hm; unfold Transform.cogs_of; simpl; [|lra].
    destruct (Transform.cogs_COGS c) as [q|] eqn:E; simpl; [|lra].
    now apply (Hcogs c q). }
  assert (Hnn : Forall (fun r => 0 <= Value r) (fill_values df)).
  { apply Forall_forall. intros r Hr.
    destruct (transform_data_In stock cogs r Hr) as [st [m [Hst [Hm [_ ->]]]]].
    destruct (Transform.stock_Stock st) as [q|] eqn:E; simpl; [|lra].
    assert (Hq : 0 <= q) by now apply (Hstock st q).
    assert (Hc : 0 <= Transform.cogs_of m).
    { apply Hcost. destruct m; tauto. }
    nra. }
  destruct (assign_abc_groups_rows df ABC.default_a ABC.default_b out Hok)
    as [_ Hrows].
  destruct (Hrows o Ho) as [x [Hx [Hpx [Hsx ->]]]].
  f_equal.
  apply (abc_zero_row_is_C ABC.default_a ABC.default_b (fill_values df) x Hnn);
    try reflexivity; try exact Hx.
  rewrite (abc_table_value _ _ _ x Hx).
  apply Qle_antisym.
  - apply Qsum_nonpos. rewrite Forall_map. apply Forall_forall.
    intros r Hr. apply filter_In in Hr. destruct Hr as [Hr Hk].
    apply andb_true_iff in Hk. destruct Hk as [_ Hk].
    apply String.eqb_eq in Hk.
    destruct (transform_data_In stock cogs r Hr) as [st [m [Hst [Hm [Hsk ->]]]]].
    assert (Hzero : Transform.cogs_of m = 0).
    { destruct m as [c|]; [|reflexivity]. destruct Hm as [Hc Hcs].
      unfold Transform.cogs_of. rewrite (Hnone c Hc); [reflexivity|].
      congruence. }
    rewrite Hzero. destruct (Transform.stock_Stock st); simpl; lra.
  - apply Qsum_nonneg. rewrite Forall_map. apply Forall_forall.
    intros r Hr. apply filter_In in Hr. rewrite Forall_forall in Hnn.
    apply Hnn. tauto.
Qed.

Lemma run_abc_sku_without_cost_is_C_witness :
  snd (mkRecord "S2" "2024-01" 0, Some "C") = Some "C".
Proof.
  apply (run_abc_sku_without_cost_is_C
           [ Transform.mkStock "S1" (Period.mkTimestamp 2024 1) (Some 5);
             Transform.mkStock "S3" (Period.mkTimestamp 2024 1) (Some 1);
             Transform.mkStock "S2" (Period.mkTimestamp 2024 1) (Some 3) ]
           [ Transform.mkCogs "S1" (Some 2); Transform.mkCogs "S3" (Some 10) ]
           [ (mkRecord "S1" "2024-01" 10, Some "A");
             (mkRecord "S3" "2024-01" 10, Some "C");
             (mkRecord "S2" "2024-01" 0, Some "C") ]
           "S2").
  - intros r q [<-|[<-|[<-|[]]]] H; inversion H; subst; vm_compute;
      discriminate.
  - intros c q [<-|[<-|[]]] H; inversion H; subst; vm_compute; discriminate.
  - intros c [<-|[<-|[]]] H; discriminate.
  - reflexivity.
  - right. right. left. reflexivity.
  - reflexivity.
Defined.

(* ================================================================== *)
(** * Dense against sparse *)
(* ================================================================== *)

Lemma periods_of_sku_incl (df : list InventoryRecord) (s : string) :
  incl (unique String.eqb
               (map Period (filter (fun a => String.eqb s (SKU a)) df)))
       (unique String.eqb (map Period df)).
Proof.
  intros p Hp.
  apply (proj1 (unique_In String.eqb String.eqb_eq _ _)) in Hp.
  apply (proj2 (unique_In String.eqb String.eqb_eq _ _)).
  apply in_map_iff in Hp. destruct Hp as [a [<- Ha]].
  apply filter_In in Ha. apply in_map. tauto.
Qed.

(** X17. Dense mode never counts fewer periods for a SKU than sparse
    mode, and the two counts agree exactly when the SKU has a row in every
    period of the input. *)
Theorem xyz_dense_counts_at_least_sparse :
  forall (df : list RawRecord) (d s : XYZ.SkuStat),
    In d (XYZ.sku_stats (XYZ.stats_input_df "dense" (fill_values df))) ->
    In s (XYZ.sku_stats (XYZ.stats_input_df "sparse" (fill_values df))) ->
    XYZ.stat_SKU d = XYZ.stat_SKU s ->
    (XYZ.n_periods s <= XYZ.n_periods d)%nat
    /\ (XYZ.n_periods s = XYZ.n_periods d
        <-> forall p, In p (map Period (fill_values df)) ->
                      exists a, In a (fill_values df)
                                /\ SKU a = XYZ.stat_SKU s /\ Period a = p).
Proof.
  intros df d s Hd Hs Hsku.
  rewrite (dense_n_periods _ d Hd), (sparse_n_periods _ s Hs).
  set (own := unique String.eqb
                     (map Period
                          (filter (fun a => String.eqb (XYZ.stat_SKU s) (SKU a))
                                  (fill_values df)))).
  set (all := unique String.eqb (map Period (fill_values df))).
  assert (Hown : NoDup own) by (apply unique_NoDup, String.eqb_eq).
  assert (Hall : NoDup all) by (apply unique_NoDup, String.eqb_eq).
  assert (Hincl : incl own all) by apply periods_of_sku_incl.
  split; [now apply NoDup_incl_length|]. split.
  - intros Hlen p Hp.
    assert (Hrev : incl all own).
    { apply NoDup_length_incl; try assumption. lia. }
    assert (Hpo : In p own).
    { apply Hrev. now apply (proj2 (unique_In String.eqb String.eqb_eq _ _)). }
    apply (proj1 (unique_In String.eqb String.eqb_eq _ _)) in Hpo.
    apply in_map_iff in Hpo. destruct Hpo as [a [Hpa Ha]].
    apply filter_In in Ha. destruct Ha as [Ha Hk].
    apply String.eqb_eq in Hk. exists a. auto.
  - intros Hevery.
    assert (Hrev : incl all own).
    { intros p Hp.
      apply (proj1 (unique_In String.eqb String.eqb_eq _ _)) in Hp.
      destruct (Hevery p Hp) as [a [Ha [Hk Hpa]]].
      apply (proj2 (unique_In String.eqb String.eqb_eq _ _)).
      apply in_map_iff. exists a. split; [exact Hpa|].
      apply filter_In. split; [exact Ha|]. apply String.eqb_eq. now symmetry. }
    apply Nat.le_antisymm; now apply NoDup_incl_length.
Qed.

Lemma xyz_dense_counts_at_least_sparse_witness :
  let df := [ mkRaw "X1" "2024-01" (Some 10); mkRaw "X2" "2024-02" (Some 5);
              mkRaw "X1" "2024-03" (Some 10) ] in
  let d := XYZ.sku_stat ("X1", [10; 0; 10]) in
  let s := XYZ.sku_stat ("X1", [10; 10]) in
  (XYZ.n_periods s <= XYZ.n_periods d)%nat
  /\ (XYZ.n_periods s = XYZ.n_periods d
      <-> forall p, In p (map Period (fill_values df)) ->
                    exists a, In a (fill_values df)
                              /\ SKU a = XYZ.stat_SKU s /\ Period a = p).
Proof.
  intros df d s.
  apply (xyz_dense_counts_at_least_sparse df d s).
  - assert (Hg : XYZ.sku_groups (XYZ.stats_input_df "dense" (fill_values df))
                 = [("X1", [10; 0; 10]); ("X2", [0; 5; 0])])
      by (vm_compute; reflexivity).
    unfold XYZ.sku_stats. rewrite Hg. left. reflexivity.
  - assert (Hg : XYZ.sku_groups (XYZ.stats_input_df "sparse" (fill_values df))
                 = [("X1", [10; 10]); ("X2", [5])])
      by (vm_compute; reflexivity).
    unfold XYZ.sku_stats. rewrite Hg. left. reflexivity.
  - reflexivity.
Defined.

Lemma Qsum_map_add {A : Type} (g h : A -> Q) (l : list A) :
  Qsum (map (fun x => g x + h x) l) == Qsum (map g l) + Qsum (map h l).
Proof.
  induction l as [|x l IH]; simpl.
  - ring.
  - rewrite IH. ring.
Qed.

Lemma Qsum_map_ext {A : Type} (g h : A -> Q) (l : list A) :
  (forall x, In x l -> g x == h x) -> Qsum (map g l) == Qsum (map h l).
Proof.
  induction l as [|x l IH]; simpl; intros Hext.
  - reflexivity.
  - rewrite (Hext x (or_introl eq_refl)), IH; [reflexivity|].
    intros y Hy. apply Hext. now right.
Qed.

Lemma Qsum_zeros {A : Type} (g : A -> Q) (l : list A) :
  (forall x, In x l -> g x == 0) -> Qsum (map g l) == 0.
Proof.
  induction l as [|x l IH]; simpl; intros Hz.
  - reflexivity.
  - rewrite (Hz x (or_introl eq_refl)), IH; [ring|].
    intros y Hy. apply Hz. now right.
Qed.

Lemma Qsum_indicator (ps : list string) (p0 : string) (v : Q) :
  NoDup ps -> In p0 ps ->
  Qsum (map (fun p => if String.eqb p p0 then v else 0) ps) == v.
Proof.
  induction ps as [|p ps IH]; simpl; intros Hnd Hin; [contradiction|].
  inversion Hnd as [|? ? Hnotin Hrest]; subst.
  destruct (String.eqb p p0) eqn:E.
  - apply String.eqb_eq in E. subst p.
    assert (Hz : Qsum (map (fun p => if String.eqb p p0 then v else 0) ps) == 0).
    { clear IH Hin Hnd Hrest. induction ps as [|q ps IH]; simpl; [reflexivity|].
      destruct (String.eqb q p0) eqn:Eq.
      - apply String.eqb_eq in Eq. subst q. exfalso. apply Hnotin. now left.
      - rewrite IH; [ring|]. intros H. apply Hnotin. now right. }
    rewrite Hz. ring.
  - destruct Hin as [->|Hin]; [rewrite String.eqb_refl in E; discriminate|].
    rewrite IH by assumption. ring.
Qed.

(** Summing cell by cell over the periods is summing over the rows. *)
Lemma sum_over_periods (ps : list string) (l : list InventoryRecord)
      (s : string) :
  NoDup ps -> (forall a, In a l -> In (Period a) ps) ->
  Qsum (map (fun p =>
               Qsum (map Value
                         (filter (fun a => (String.eqb s (SKU a)
                                            && String.eqb p (Period a))%bool)
                                 l)))
            ps)
  == Qsum (map Value (filter (fun a => String.eqb s (SKU a)) l)).
Proof.
  intros Hnd. induction l as [|a l IH]; intros Hin.
  - apply Qsum_zeros. intros p _. reflexivity.
  - assert (IH' := IH (fun b Hb => Hin b (or_intror Hb))). clear IH.
    destruct (String.eqb s (SKU a)) eqn:Es.
    + transitivity
        (Qsum (map (fun p =>
                      (if String.eqb p (Period a) then Value a else 0)
                      + Qsum (map Value
                                  (filter (fun b => (String.eqb s (SKU b)
                                                     && String.eqb p (Period b))%bool)
                                          l)))
                   ps)).
      * apply Qsum_map_ext. intros p _. simpl. rewrite Es. simpl.
        destruct (String.eqb p (Period a)); simpl; ring.
      * rewrite Qsum_map_add, Qsum_indicator, IH';
          [|exact Hnd | apply Hin; now left].
        simpl. rewrite Es. simpl. ring.
    + transitivity
        (Qsum (map (fun p =>
                      Qsum (map Value
                                (filter (fun b => (String.eqb s (SKU b)
                                                   && String.eqb p (Period b))%bool)
                                        l)))
                   ps)).
      * apply Qsum_map_ext. intros p _. simpl. rewrite Es. reflexivity.
      * rewrite IH'. simpl. rewrite Es. reflexivity.
Qed.

Lemma sparse_sku_total (df : list InventoryRecord) (s : string) :
  Qsum (map Value (filter (fun a => String.eqb s (SKU a)) (XYZ.period_sum df)))
  == Qsum (map Value (filter (fun a => String.eqb s (SKU a)) df)).
Proof.
  unfold XYZ.period_sum. rewrite filter_map_comm, map_map. simpl.
  apply (sorted_group_sum_rows key2_eqb key2_eqb_spec
           (fun r => (SKU r, Period r)) Value
           (fun k => String.eqb s (fst k))).
Qed.

Lemma dense_sku_total (df : list InventoryRecord) (s : string) :
  In s (map SKU df) ->
  Qsum (map Value (filter (fun a => String.eqb s (SKU a))
                          (XYZ.stats_input_df "dense" df)))
  == Qsum (map Value (filter (fun a => String.eqb s (SKU a)) df)).
Proof.
  intros Hs.
  rewrite <- (sum_over_periods (unique String.eqb (map Period df)) df s).
  - assert (Hrows : map (fun r => (SKU r, Period r))
                        (filter (fun a => String.eqb s (SKU a))
                                (XYZ.stats_input_df "dense" df))
                    = map (fun p => (s, p)) (unique String.eqb (map Period df))).
    { rewrite <- (filter_map_comm (fun k => String.eqb s (fst k))
                                  (fun r => (SKU r, Period r))).
      rewrite dense_keys. apply filter_fst_list_prod.
      - apply unique_NoDup, String.eqb_eq.
      - now apply (proj2 (unique_In String.eqb String.eqb_eq _ _)). }
    assert (Hval : forall r,
               In r (filter (fun a => String.eqb s (SKU a))
                            (XYZ.stats_input_df "dense" df)) ->
               Value r
               = Qsum (map Value
                           (filter (fun a => (String.eqb s (SKU a)
                                              && String.eqb (Period r) (Period a))%bool)
                                   df))).
    { intros r Hr. apply filter_In in Hr. destruct Hr as [Hr Hk].
      apply String.eqb_eq in Hk. rewrite Hk.
      apply (dense_value df r Hr). }
    set (rows := filter (fun a => String.eqb s (SKU a))
                        (XYZ.stats_input_df "dense" df)) in *.
    assert (Hper : map Period rows = unique String.eqb (map Period df)).
    { assert (H := f_equal (map snd) Hrows). rewrite !map_map in H. simpl in H.
      rewrite map_id in H. exact H. }
    rewrite <- Hper, map_map.
    apply Qsum_map_ext. intros r Hr. rewrite (Hval r Hr). reflexivity.
  - apply unique_NoDup, String.eqb_eq.
  - intros a Ha. apply (proj2 (unique_In String.eqb String.eqb_eq _ _)).
    now apply in_map.
Qed.

Lemma sku_stat_mean_total (rows : list InventoryRecord) st :
  In st (XYZ.sku_stats rows) ->
  XYZ.mean_value st * inject_Z (Z.of_nat (XYZ.n_periods st))
  == Qsum (map Value
               (filter (fun a => String.eqb (XYZ.stat_SKU st) (SKU a)) rows))
  /\ (0 < XYZ.n_periods st)%nat.
Proof.
  intros Hst. apply sku_stats_In in Hst. destruct Hst as [s [Hs ->]].
  unfold XYZ.sku_stat. cbn [XYZ.mean_value XYZ.n_periods XYZ.stat_SKU fst snd].
  set (vs := map Value (filter (fun a => String.eqb s (SKU a)) rows)).
  assert (Hlen : (0 < XYZ.count vs)%nat).
  { unfold XYZ.count, vs. rewrite length_map.
    apply in_map_iff in Hs. destruct Hs as [a [Ha Hin]].
    assert (Hf : In a (filter (fun a => String.eqb s (SKU a)) rows)).
    { apply filter_In. split; [exact Hin|]. apply String.eqb_eq. now symmetry. }
    destruct (filter (fun a => String.eqb s (SKU a)) rows);
      [contradiction | simpl; lia]. }
  split; [|exact Hlen].
  unfold XYZ.mean. field.
  intros H. apply Qeq_eqR in H. rewrite Q2R_of_nat, Q2R_zero in H.
  apply lt_INR in Hlen. simpl in Hlen. lra.
Qed.

(** X18. In either mode the mean of a SKU times its period count is the
    total value of the SKU over the input; so with non-negative values
    the dense mean of a SKU is never above its sparse mean. *)
Theorem xyz_mean_is_total_over_count :
  forall (df : list RawRecord) (d s : XYZ.SkuStat),
    In d (XYZ.sku_stats (XYZ.stats_input_df "dense" (fill_values df))) ->
    In s (XYZ.sku_stats (XYZ.stats_input_df "sparse" (fill_values df))) ->
    XYZ.stat_SKU d = XYZ.stat_SKU s ->
    let total :=
        Qsum (map Value
                  (filter (fun a => String.eqb (XYZ.stat_SKU s) (SKU a))
                          (fill_values df))) in
    XYZ.mean_value d * inject_Z (Z.of_nat (XYZ.n_periods d)) == total
    /\ XYZ.mean_value s * inject_Z (Z.of_nat (XYZ.n_periods s)) == total
    /\ (Forall (fun r => 0 <= Value r) (fill_values df) ->
        XYZ.mean_value d <= XYZ.mean_value s).
Proof.
  intros df d s Hd Hs Hsku total.
  destruct (sku_stat_mean_total _ d Hd) as [Hmd Hnd].
  destruct (sku_stat_mean_total _ s Hs) as [Hms Hns].
  assert (Hdt : XYZ.mean_value d * inject_Z (Z.of_nat (XYZ.n_periods d))
                == total).
  { rewrite Hmd, Hsku. apply dense_sku_total.
    pose proof (proj1 (sku_stats_In _ s) Hs) as [k [Hk Hsk]].
    rewrite Hsk. simpl. now apply (stats_input_skus "sparse"). }
  assert (Hst : XYZ.mean_value s * inject_Z (Z.of_nat (XYZ.n_periods s))
                == total).
  { rewrite Hms. apply sparse_sku_total. }
  split; [exact Hdt|]. split; [exact Hst|].
  intros Hnn.
  assert (Htot : 0 <= total).
  { unfold total. apply Qsum_nonneg. rewrite Forall_map.
    apply Forall_forall. intros r Hr. apply filter_In in Hr.
    rewrite Forall_forall in Hnn. apply Hnn. tauto. }
  assert (Hle : (XYZ.n_periods s <= XYZ.n_periods d)%nat).
  { rewrite (dense_n_periods _ d Hd), (sparse_n_periods _ s Hs).
    apply NoDup_incl_length.
    - apply unique_NoDup, String.eqb_eq.
    - apply periods_of_sku_incl. }
  set (nd := inject_Z (Z.of_nat (XYZ.n_periods d))) in *.
  set (ns := inject_Z (Z.of_nat (XYZ.n_periods s))) in *.
  assert (Hns0 : 0 < ns).
  { unfold ns. change 0 with (inject_Z 0). rewrite <- Zlt_Qlt. lia. }
  assert (Hnsd : ns <= nd).
  { unfold ns, nd. rewrite <- Zle_Qle. lia. }
  assert (Hms0 : 0 <= XYZ.mean_value s) by nra.
  nra.
Qed.

Lemma xyz_mean_is_total_over_count_witness :
  let df := [ mkRaw "X1" "2024-01" (Some 10); mkRaw "X2" "2024-02" (Some 5);
              mkRaw "X1" "2024-03" (Some 10) ] in
  let d := XYZ.sku_stat ("X1", [10; 0; 10]) in
  let s := XYZ.sku_stat ("X1", [10; 10]) in
  let total :=
      Qsum (map Value
                (filter (fun a => String.eqb (XYZ.stat_SKU s) (SKU a))
                        (fill_values df))) in
  XYZ.mean_value d * inject_Z (Z.of_nat (XYZ.n_periods d)) == total
  /\ XYZ.mean_value s * inject_Z (Z.of_nat (XYZ.n_periods s)) == total
  /\ (Forall (fun r => 0 <= Value r) (fill_values df) ->
      XYZ.mean_value d <= XYZ.mean_value s).
Proof.
  intros df d s.
  apply (xyz_mean_is_total_over_count df d s).
  - assert (Hg : XYZ.sku_groups (XYZ.stats_input_df "dense" (fill_values df))
                 = [("X1", [10; 0; 10]); ("X2", [0; 5; 0])])
      by (vm_compute; reflexivity).
    unfold XYZ.sku_stats. rewrite Hg. left. reflexivity.
  - assert (Hg : XYZ.sku_groups (XYZ.stats_input_df "sparse" (fill_values df))
                 = [("X1", [10; 10]); ("X2", [5])])
      by (vm_compute; reflexivity).
    unfold XYZ.sku_stats. rewrite Hg. left. reflexivity.
  - reflexivity.
Defined.

(* ================================================================== *)
(** * Constant series *)
(* ================================================================== *)

Lemma Qsum_constant (vs : list Q) (v : Q) :
  (forall x, In x vs -> x == v) ->
  Qsum vs == inject_Z (Z.of_nat (List.length vs)) * v.
Proof.
  induction vs as [|x vs IH]; intros Hall.
  - simpl. ring.
  - assert (Hx : x == v) by (apply Hall; now left).
    assert (Hvs : Qsum vs == inject_Z (Z.of_nat (List.length vs)) * v)
      by (apply IH; intros y Hy; apply Hall; now right).
    change (Qsum (x :: vs)) with (x + Qsum vs).
    change (List.length (x :: vs)) with (S (List.length vs)).
    rewrite Nat2Z.inj_succ. unfold Z.succ. rewrite inject_Z_plus.
    rewrite Hx, Hvs. ring.
Qed.

Lemma constant_series_stats (vs : list Q) (v : Q) :
  (0 < List.length vs)%nat -> (forall x, In x vs -> x == v) ->
  XYZ.mean vs == v /\ XYZ.sum_sq_dev vs == 0.
Proof.
  intros Hlen Hall.
  assert (Hmean : XYZ.mean vs == v).
  { unfold XYZ.mean, XYZ.count. rewrite (Qsum_constant vs v Hall). field.
    intros H. apply Qeq_eqR in H. rewrite Q2R_of_nat, Q2R_zero in H.
    apply lt_INR in Hlen. simpl in Hlen. lra. }
  split; [exact Hmean|].
  unfold XYZ.sum_sq_dev. apply Qsum_zeros. intros x Hx.
  assert (Hxv : x == v) by now apply Hall.
  rewrite Hmean, Hxv. ring.
Qed.

(** X19. A SKU whose values over the periods counted (at least two) are
    all equal to one nonzero number has CV 0 and is labelled X. *)
Theorem xyz_constant_sku_is_X :
  forall (df : list RawRecord) (data_mode : string) out row (v : Q),
    XYZ.assign_xyz_groups df data_mode = Ok out ->
    In row out ->
    let vs := map Value
                  (filter (fun a => String.eqb (SKU (XYZ.rec row)) (SKU a))
                          (XYZ.stats_input_df data_mode (fill_values df))) in
    (2 <= List.length vs)%nat ->
    (forall x, In x vs -> x == v) ->
    ~ v == 0 ->
    XYZ.XYZ row = "X" /\ XYZ.CV row = Some 0%R.
Proof.
  intros df data_mode out row v Hok Hrow vs Hlen Hall Hv.
  destruct (assign_xyz_groups_rows df data_mode out Hok row Hrow)
    as [st [Hst [Hsku [Hl [Hcv _]]]]].
  set (stats := XYZ.sku_stats (XYZ.stats_input_df data_mode (fill_values df)))
    in *.
  pose proof (proj1 (sku_stats_In _ st) Hst) as [s [_ Hsk]].
  assert (Hs : s = SKU (XYZ.rec row)) by (rewrite <- Hsku, Hsk; reflexivity).
  subst s. fold vs in Hsk.
  destruct (constant_series_stats vs v) as [Hmean Hssd]; [lia | exact Hall|].
  assert (Hm : ~ XYZ.mean vs == 0) by (rewrite Hmean; exact Hv).
  assert (Hc : XYZ.cv st = Some 0%R).
  { rewrite Hsk. now apply cv_zero_when_constant. }
  split; [|now rewrite Hcv].
  rewrite Hl.
  destruct (xyz_label_cases (fst (XYZ.thresholds stats))
                            (snd (XYZ.thresholds stats)) st)
    as [_ [_ [_ [HX _]]]].
  apply (HX 0%R); try exact Hc.
  - rewrite Hsk. exact Hlen.
  - rewrite Hsk. exact Hm.
  - apply (thresholds_ordered
             (XYZ.stats_input_df data_mode (fill_values df))).
Qed.

Lemma xyz_constant_sku_is_X_witness :
  exists out row,
    XYZ.assign_xyz_groups
      [ mkRaw "X1" "2024-01" (Some 10); mkRaw "X1" "2024-02" (Some 10);
        mkRaw "X2" "2024-01" (Some 5); mkRaw "X2" "2024-02" (Some 7) ]
      "sparse" = Ok out
    /\ In row out /\ XYZ.XYZ row = "X" /\ XYZ.CV row = Some 0%R.
Proof.
  set (df := [ mkRaw "X1" "2024-01" (Some 10); mkRaw "X1" "2024-02" (Some 10);
               mkRaw "X2" "2024-01" (Some 5); mkRaw "X2" "2024-02" (Some 7) ]).
  pose proof (assign_xyz_groups_returns df "sparse" (or_intror eq_refl)) as E.
  cbv zeta in E.
  set (stats := XYZ.sku_stats (XYZ.stats_input_df "sparse" (fill_values df)))
    in E.
  destruct (broadcast_spec "sparse" (fill_values df)
                           (fst (XYZ.thresholds stats))
                           (snd (XYZ.thresholds stats))) as [Hrec _].
  fold stats in Hrec.
  remember (XYZ.broadcast (fill_values df) stats
                          (fst (XYZ.thresholds stats))
                          (snd (XYZ.thresholds stats))) as out eqn:Hout.
  clear Hout.
  destruct out as [|row out]; try discriminate.
  assert (Hr : XYZ.rec row = mkRecord "X1" "2024-01" 10)
    by (inversion Hrec; reflexivity).
  exists (row :: out), row.
  split; [exact E|]. split; [now left|].
  apply (xyz_constant_sku_is_X df "sparse" (row :: out) row 10 E).
  - now left.
  - rewrite Hr. vm_compute. lia.
  - rewrite Hr. intros x Hx. vm_compute in Hx.
    destruct Hx as [<-|[<-|[]]]; reflexivity.
  - intros H. vm_compute in H. discriminate.
Defined.

(* ================================================================== *)
(** * Periods are classified independently *)
(* ================================================================== *)

Section FilterGroups.
Context {A K : Type}.
Variable eqb : K -> K -> bool.
Hypothesis eqb_spec : forall x y, eqb x y = true <-> x = y.
Variable key : A -> K.
Variable sel : K -> bool.

Lemma add_to_group_filter k (a : A) (gs : list (K * list A)) :
  filter (fun kg => sel (fst kg)) (add_to_group eqb k a gs)
  = if sel k
    then add_to_group eqb k a (filter (fun kg => sel (fst kg)) gs)
    else filter (fun kg => sel (fst kg)) gs.
Proof.
  induction gs as [|[k0 g] gs IH]; simpl.
  - destruct (sel k); reflexivity.
  - destruct (eqb k k0) eqn:E; simpl.
    + apply eqb_spec in E. subst k0. destruct (sel k); simpl.
      * rewrite (proj2 (eqb_spec k k) eq_refl). reflexivity.
      * reflexivity.
    + rewrite IH. destruct (sel k0), (sel k); simpl; try reflexivity.
      now rewrite E.
Qed.

Lemma group_rows_filter (rows : list A) :
  filter (fun kg => sel (fst kg)) (group_rows eqb key rows)
  = group_rows eqb key (filter (fun a => sel (key a)) rows).
Proof.
  induction rows as [|a rows IH]; simpl; [reflexivity|].
  rewrite add_to_group_filter, IH. destruct (sel (key a)); reflexivity.
Qed.
End FilterGroups.

Section FilterSort.
Context {A : Type}.
Variable leb : A -> A -> bool.
Hypothesis leb_total : forall x y, leb x y = false -> leb y x = true.
Hypothesis leb_trans :
  forall x y z, leb x y = true -> leb y z = true -> leb x z = true.
Variable f : A -> bool.

Lemma insert_sorted_front x (l : list A) :
  Forall (fun z => leb x z = true) l -> insert_sorted leb x l = x :: l.
Proof.
  destruct l as [|z l]; simpl; [reflexivity|].
  intros H. inversion H as [|? ? Hz _]; subst. now rewrite Hz.
Qed.

Lemma insert_sorted_filter x (l : list A) :
  StronglySorted (fun a b => leb a b = true) l ->
  filter f (insert_sorted leb x l)
  = if f x then insert_sorted leb x (filter f l) else filter f l.
Proof.
  induction 1 as [|y t Ht IH Hall]; simpl.
  - destruct (f x); reflexivity.
  - destruct (leb x y) eqn:E.
    + simpl. destruct (f x); [|reflexivity].
      rewrite insert_sorted_front; [reflexivity|].
      apply Forall_forall. intros z Hz.
      assert (Hin : In z (y :: t)).
      { change (In z (filter f (y :: t))) in Hz.
        apply filter_In in Hz. tauto. }
      destruct Hin as [<-|Hin]; [exact E|].
      rewrite Forall_forall in Hall. eapply leb_trans; [exact E|].
      now apply Hall.
    + simpl. rewrite IH. destruct (f y), (f x); simpl; try reflexivity.
      now rewrite E.
Qed.

(** Sorting and selecting rows commute. *)
Lemma sort_by_filter (l : list A) :
  filter f (sort_by leb l) = sort_by leb (filter f l).
Proof.
  induction l as [|x l IH]; simpl; [reflexivity|].
  rewrite insert_sorted_filter.
  - rewrite IH. destruct (f x); reflexivity.
  - apply sort_by_sorted; auto.
Qed.
End FilterSort.

Lemma string_leb_iff (a b : string) :
  String.leb a b = true <-> String.compare a b <> Gt.
Proof.
  unfold String.leb. destruct (String.compare a b); split;
    congruence || discriminate || auto.
Qed.

Lemma string_leb_trans (a b c : string) :
  String.leb a b = true -> String.leb b c = true -> String.leb a c = true.
Proof.
  rewrite !string_leb_iff.
  destruct (String.compare a b) eqn:Eab; try congruence;
    destruct (String.compare b c) eqn:Ebc; try congruence; intros _ _.
  - apply String.compare_eq_iff in Eab, Ebc. subst.
    rewrite compare_refl. discriminate.
  - apply String.compare_eq_iff in Eab. subst. rewrite Ebc. discriminate.
  - apply String.compare_eq_iff in Ebc. subst. rewrite Eab. discriminate.
  - rewrite (compare_lt_trans _ _ _ Eab Ebc). discriminate.
Qed.

Lemma key2_leb_total (x y : key2) :
  key2_leb x y = false -> key2_leb y x = true.
Proof.
  unfold key2_leb.
  destruct (String.compare (fst x) (fst y)) eqn:E; intros H;
    try discriminate.
  - apply String.compare_eq_iff in E. rewrite E, compare_refl.
    destruct (String.leb_total (snd x) (snd y)) as [Hl|Hl];
      [congruence | exact Hl].
  - now rewrite (compare_gt_lt _ _ E).
Qed.

Lemma key2_leb_trans (x y z : key2) :
  key2_leb x y = true -> key2_leb y z = true -> key2_leb x z = true.
Proof.
  unfold key2_leb.
  destruct (String.compare (fst x) (fst y)) eqn:Exy;
    destruct (String.compare (fst y) (fst z)) eqn:Eyz;
    intros H1 H2; try discriminate.
  - apply String.compare_eq_iff in Exy, Eyz. rewrite Exy, Eyz, compare_refl.
    eapply string_leb_trans; eassumption.
  - apply String.compare_eq_iff in Exy. now rewrite Exy, Eyz.
  - apply String.compare_eq_iff in Eyz. now rewrite <- Eyz, Exy.
  - now rewrite (compare_lt_trans _ _ _ Exy Eyz).
Qed.

(** The aggregated rows of a period come from the input rows of that
    period alone. *)
Lemma aggregate_filter (df : list InventoryRecord) (p : string) :
  filter (fun r => String.eqb (ABC.agg_Period r) p) (ABC.aggregate df)
  = ABC.aggregate (filter (fun r => String.eqb (Period r) p) df).
Proof.
  unfold ABC.aggregate. rewrite filter_map_comm. simpl. f_equal.
  rewrite (sort_by_filter
             (fun x y : key2 * list InventoryRecord =>
                key2_leb (fst x) (fst y))).
  - f_equal.
    apply (group_rows_filter key2_eqb key2_eqb_spec
             (fun r => (Period r, SKU r))
             (fun k => String.eqb (fst k) p)).
  - intros x y. apply key2_leb_total.
  - intros x y z. apply key2_leb_trans.
Qed.

Lemma sort_values_filter (t : list ABC.PeriodAggregate) (p : string) :
  filter (fun r => String.eqb (ABC.agg_Period r) p) (ABC.sort_values t)
  = ABC.sort_values (filter (fun r => String.eqb (ABC.agg_Period r) p) t).
Proof.
  unfold ABC.sort_values. apply sort_by_filter.
  - apply period_value_leb_total.
  - apply period_value_leb_trans.
Qed.

Lemma annotate_filter a b (p : string) (t : list ABC.PeriodAggregate) :
  forall total total' running running',
    total p = total' p -> running p = running' p ->
    filter (fun x => String.eqb (ABC.agg_Period (ABC.agg x)) p)
           (ABC.annotate a b total running t)
    = ABC.annotate a b total' running'
                   (filter (fun r => String.eqb (ABC.agg_Period r) p) t).
Proof.
  induction t as [|r t IH]; intros total total' running running' Ht Hr;
    simpl; [reflexivity|].
  destruct (String.eqb (ABC.agg_Period r) p) eqn:E; simpl.
  - apply String.eqb_eq in E. rewrite E, Ht, Hr. f_equal.
    apply IH; [exact Ht|]. unfold ABC.bump. now rewrite String.eqb_refl.
  - apply IH; [exact Ht|]. unfold ABC.bump.
    rewrite String.eqb_sym, E. exact Hr.
Qed.

(** The table rows of a period are the table of that period's rows. *)
Lemma abc_table_filter a b (df : list InventoryRecord) (p : string) :
  filter (fun x => String.eqb (ABC.agg_Period (ABC.agg x)) p)
         (ABC.abc_table a b df)
  = ABC.abc_table a b (filter (fun r => String.eqb (Period r) p) df).
Proof.
  unfold ABC.abc_table. cbv zeta.
  rewrite <- aggregate_filter, <- sort_values_filter.
  apply annotate_filter; [|reflexivity].
  unfold ABC.period_total.
  set (t := ABC.sort_values (ABC.aggregate df)).
  f_equal. f_equal. clear. induction t as [|r t IH]; simpl; [reflexivity|].
  destruct (String.eqb (ABC.agg_Period r) p) eqn:E; simpl.
  - rewrite E. f_equal. exact IH.
  - exact IH.
Qed.

Lemma merge_left_filter_left {A B : Type} (matches : A -> B -> bool)
      (g : A -> bool) (left : list A) (right : list B) :
  filter (fun o => g (fst o)) (merge_left matches left right)
  = merge_left matches (filter g left) right.
Proof.
  induction left as [|a left IH]; [reflexivity|].
  rewrite merge_left_cons, filter_app, IH.
  change (filter g (a :: left))
    with (if g a then a :: filter g left else filter g left).
  assert (Hchunk : forall l : list (A * option B),
             Forall (fun o => fst o = a) l ->
             filter (fun o => g (fst o)) l = if g a then l else []).
  { induction l as [|o l IHl]; intros Hl.
    - destruct (g a); reflexivity.
    - apply Forall_cons_iff in Hl. destruct Hl as [Ho Hl']. simpl.
      rewrite Ho, (IHl Hl'). destruct (g a); reflexivity. }
  rewrite Hchunk.
  - destruct (g a); [now rewrite merge_left_cons | reflexivity].
  - destruct (filter (matches a) right) as [|b l].
    + repeat constructor.
    + rewrite Forall_map. apply Forall_forall. intros; reflexivity.
Qed.

Lemma merge_left_same_matches {A B : Type} (matches : A -> B -> bool)
      (left : list A) (right right' : list B) :
  (forall a, In a left -> filter (matches a) right = filter (matches a) right') ->
  merge_left matches left right = merge_left matches left right'.
Proof.
  induction left as [|a left IH]; intros H; [reflexivity|].
  rewrite !merge_left_cons, (H a (or_introl eq_refl)), IH; [reflexivity|].
  intros a' Ha'. apply H. now right.
Qed.

Lemma filter_filter_implied {A : Type} (f g : A -> bool) (l : list A) :
  (forall x, f x = true -> g x = true) ->
  filter f (filter g l) = filter f l.
Proof.
  intros Himp. induction l as [|x l IH]; simpl; [reflexivity|].
  destruct (g x) eqn:Eg; simpl.
  - now rewrite IH.
  - destruct (f x) eqn:Ef; [|exact IH].
    rewrite (Himp x Ef) in Eg. discriminate.
Qed.

Lemma assign_abc_groups_ok_inv (df : list RawRecord) (a b : Q) out :
  ABC.assign_abc_groups df a b = Ok out ->
  out = ABC.join_labels (fill_values df) (ABC.abc_table a b (fill_values df)).
Proof.
  unfold ABC.assign_abc_groups, ABC.check_assigned. cbv zeta.
  destruct (existsb _ _); [discriminate|]. intros H. now inversion H.
Qed.

(** The labelled records of a period, from the input rows of that period
    alone. *)
Lemma join_labels_filter a b (df : list InventoryRecord) (p : string) :
  filter (fun o => String.eqb (Period (fst o)) p)
         (ABC.join_labels df (ABC.abc_table a b df))
  = ABC.join_labels
      (filter (fun r => String.eqb (Period r) p) df)
      (ABC.abc_table a b (filter (fun r => String.eqb (Period r) p) df)).
Proof.
  unfold ABC.join_labels. rewrite filter_map_comm. simpl. f_equal.
  rewrite (merge_left_filter_left ABC.same_key
             (fun r => String.eqb (Period r) p)).
  rewrite <- abc_table_filter.
  apply merge_left_same_matches. intros r Hr.
  apply filter_In in Hr. destruct Hr as [_ Hp]. apply String.eqb_eq in Hp.
  symmetry. apply filter_filter_implied. intros x Hk.
  apply same_key_fields in Hk. destruct Hk as [Hk _].
  apply String.eqb_eq. congruence.
Qed.

(** X20. The ABC classifier treats every period on its own: the labelled
    records of a period depend only on the input rows of that period.
    Two inputs that agree on the rows of a period get the same labelled
    records for it, whatever their other periods hold. *)
Theorem abc_periods_independent :
  forall (df1 df2 : list RawRecord) (a_threshold b_threshold : Q)
         (p : string) out1 out2,
    filter (fun r => String.eqb (Period r) p) (fill_values df1)
    = filter (fun r => String.eqb (Period r) p) (fill_values df2) ->
    ABC.assign_abc_groups df1 a_threshold b_threshold = Ok out1 ->
    ABC.assign_abc_groups df2 a_threshold b_threshold = Ok out2 ->
    filter (fun o => String.eqb (Period (fst o)) p) out1
    = filter (fun o => String.eqb (Period (fst o)) p) out2.
Proof.
  intros df1 df2 a b p out1 out2 Hsame H1 H2.
  apply assign_abc_groups_ok_inv in H1, H2. subst out1 out2.
  rewrite !join_labels_filter, Hsame. reflexivity.
Qed.

Lemma abc_periods_independent_witness :
  filter (fun o => String.eqb (Period (fst o)) "2024-01")
         [ (mkRecord "S1" "2024-01" 9, Some "B");
           (mkRecord "S2" "2024-01" 1, Some "C");
           (mkRecord "S1" "2024-02" 4, Some "C") ]
  = filter (fun o => String.eqb (Period (fst o)) "2024-01")
           [ (mkRecord "S3" "2024-03" 7, Some "C");
             (mkRecord "S1" "2024-01" 9, Some "B");
             (mkRecord "S2" "2024-01" 1, Some "C") ].
Proof.
  apply (abc_periods_independent
           [ mkRaw "S1" "2024-01" (Some 9); mkRaw "S2" "2024-01" (Some 1);
             mkRaw "S1" "2024-02" (Some 4) ]
           [ mkRaw "S3" "2024-03" (Some 7); mkRaw "S1" "2024-01" (Some 9);
             mkRaw "S2" "2024-01" (Some 1) ]
           ABC.default_a ABC.default_b "2024-01").
  - reflexivity.
  - reflexivity.
  - reflexivity.
Defined.

(* ================================================================== *)
(** * The cv does not depend on the unit *)
(* ================================================================== *)

Lemma Qsum_scale (k : Q) (vs : list Q) :
  Qsum (map (Qmult k) vs) == k * Qsum vs.
Proof.
  induction vs as [|x vs IH]; simpl.
  - ring.
  - rewrite IH. ring.
Qed.

Lemma count_neq_zero (vs : list Q) :
  (0 < XYZ.count vs)%nat -> ~ inject_Z (Z.of_nat (XYZ.count vs)) == 0.
Proof.
  intros Hlen H. apply Qeq_eqR in H. rewrite Q2R_of_nat, Q2R_zero in H.
  apply lt_INR in Hlen. simpl in Hlen. lra.
Qed.

Lemma mean_scale (k : Q) (vs : list Q) :
  XYZ.mean (map (Qmult k) vs) == k * XYZ.mean vs.
Proof.
  unfold XYZ.mean, XYZ.count. rewrite length_map, Qsum_scale.
  destruct vs as [|x vs].
  - simpl. unfold Qdiv. ring.
  - field. apply (count_neq_zero (x :: vs)). simpl. lia.
Qed.

Lemma sum_sq_dev_scale (k : Q) (vs : list Q) :
  XYZ.sum_sq_dev (map (Qmult k) vs) == k * k * XYZ.sum_sq_dev vs.
Proof.
  unfold XYZ.sum_sq_dev. rewrite map_map.
  rewrite <- Qsum_scale, map_map.
  apply Qsum_map_ext. intros x _. rewrite mean_scale. ring.
Qed.

Lemma Q2R_Qabs (x : Q) : Q2R (Qabs x) = Rabs (Q2R x).
Proof.
  destruct (Qlt_le_dec x 0) as [Hneg|Hpos].
  - rewrite (Qeq_eqR _ _ (Qabs_neg x (Qlt_le_weak _ _ Hneg))), Q2R_opp.
    apply Qlt_Rlt in Hneg. rewrite Q2R_zero in Hneg.
    rewrite Rabs_left by exact Hneg. reflexivity.
  - rewrite (Qeq_eqR _ _ (Qabs_pos x Hpos)).
    apply Qle_Rle in Hpos. rewrite Q2R_zero in Hpos.
    rewrite Rabs_right by lra. reflexivity.
Qed.

(** X21. The cv of a SKU does not depend on the unit of its values:
    multiplying all the values of a SKU by one nonzero factor leaves its
    period count and its cv unchanged. *)
Theorem cv_scale_invariant :
  forall (s : string) (k : Q) (vs : list Q),
    ~ k == 0 ->
    XYZ.n_periods (XYZ.sku_stat (s, map (Qmult k) vs))
    = XYZ.n_periods (XYZ.sku_stat (s, vs))
    /\ XYZ.cv (XYZ.sku_stat (s, map (Qmult k) vs))
       = XYZ.cv (XYZ.sku_stat (s, vs)).
Proof.
  intros s k vs Hk. split.
  { unfold XYZ.sku_stat, XYZ.count. simpl. apply length_map. }
  unfold XYZ.sku_stat. cbn [XYZ.cv snd].
  unfold XYZ.coefficient_of_variation.
  pose proof (mean_scale k vs) as Hmean.
  destruct (Qeq_bool (XYZ.mean vs) 0) eqn:Em.
  - apply Qeq_bool_iff in Em.
    assert (Em' : Qeq_bool (XYZ.mean (map (Qmult k) vs)) 0 = true).
    { apply Qeq_bool_iff. rewrite Hmean, Em. ring. }
    now rewrite Em'.
  - apply Qeq_bool_false in Em.
    assert (Hm' : ~ XYZ.mean (map (Qmult k) vs) == 0).
    { rewrite Hmean. intros H. apply Qmult_integral in H. tauto. }
    rewrite (proj2 (Qeq_bool_false _ _) Hm').
    unfold XYZ.fdiv.
    pose proof (Q2R_Qabs_pos _ Em) as Hpos.
    pose proof (Q2R_Qabs_pos _ Hm') as Hpos'.
    destruct (Req_EM_T (Q2R (Qabs (XYZ.mean (map (Qmult k) vs)))) 0); [lra|].
    destruct (Req_EM_T (Q2R (Qabs (XYZ.mean vs))) 0); [lra|].
    cbn [XYZ.replace_inf]. f_equal.
    assert (HkR : Q2R k <> 0%R).
    { intros H. apply Hk. apply eqR_Qeq. now rewrite Q2R_zero. }
    assert (Habs : Q2R (Qabs (XYZ.mean (map (Qmult k) vs)))
                   = (Rabs (Q2R k) * Q2R (Qabs (XYZ.mean vs)))%R).
    { rewrite !Q2R_Qabs, (Qeq_eqR _ _ Hmean), Q2R_mult. apply Rabs_mult. }
    rewrite Habs.
    assert (Hkpos : (0 < Rabs (Q2R k))%R) by now apply Rabs_pos_lt.
    unfold XYZ.std, XYZ.var, XYZ.count. rewrite length_map.
    destruct (List.length vs <? 2)%nat eqn:El; cbn [option_map fillna].
    + field. split; lra.
    + apply Nat.ltb_ge in El.
      assert (Hn : ~ inject_Z (Z.of_nat (List.length vs - 1)) == 0).
      { intros H. apply Qeq_eqR in H. rewrite Q2R_of_nat, Q2R_zero in H.
        assert (Hl : (0 < List.length vs - 1)%nat) by lia.
        apply lt_INR in Hl. simpl in Hl. lra. }
      assert (Hvar : XYZ.sum_sq_dev (map (Qmult k) vs)
                     / inject_Z (Z.of_nat (List.length vs - 1))
                     == k * k * (XYZ.sum_sq_dev vs
                                 / inject_Z (Z.of_nat (List.length vs - 1)))).
      { rewrite sum_sq_dev_scale. field. exact Hn. }
      rewrite (Qeq_eqR _ _ Hvar), !Q2R_mult.
      rewrite sqrt_mult_alt by apply Rle_0_sqr.
      change (Q2R k * Q2R k)%R with (Rsqr (Q2R k)).
      rewrite sqrt_Rsqr_abs. field. split; lra.
Qed.

Lemma cv_scale_invariant_witness :
  XYZ.n_periods (XYZ.sku_stat ("X1", map (Qmult 100) [10; 0; 10]))
  = XYZ.n_periods (XYZ.sku_stat ("X1", [10; 0; 10]))
  /\ XYZ.cv (XYZ.sku_stat ("X1", map (Qmult 100) [10; 0; 10]))
     = XYZ.cv (XYZ.sku_stat ("X1", [10; 0; 10])).
Proof.
  apply (cv_scale_invariant "X1" 100 [10; 0; 10]).
  intros H. vm_compute in H. discriminate.
Defined.
